(** * godel_process_path_generation: the mesh importer

    A shallow embedding of [mesh_importer.cpp] (class [MeshImporter]):
    plane estimation from a point cloud, construction of the local plane
    frame, the vertex-merging mesh builder and the projection of the
    boundary loops into the plane frame.

    Conventions of the embedding.
    - [double] and [float] values are idealised as real numbers ([R]); the
      comparisons of the source are decided on the exact values.
    - [uint32_t] point indices are [N]; PCL vertex and half-edge indices
      are [nat].
    - A call either returns, throws [std::out_of_range] (the [at] of a
      vector or of a bimap view) or is stopped by a failed [ROS_ASSERT];
      the three are the constructors of [result].  ROS console output is
      kept as a list of messages, newest first: it is the only thing that
      tells two [return false] apart.
    - What the file takes from outside is a parameter of the importer:
      the consensus fit of PCL ([segment]), the boundary extraction of
      get_boundary.h ([getBoundBoundaryHalfEdges]) with PCL's
      [getOriginatingVertexIndex], and whether [ROS_ASSERT] is compiled
      in ([ROS_ASSERT_ENABLED]). *)

From Stdlib Require Import Reals Lra Psatz.
From stdpp Require Import gmap list.

(** ** Eigen: vectors, hyperplanes and affine transforms *)

Module Eigen.

Local Open Scope R_scope.

Record Vector3d : Type := V3 { vx : R; vy : R; vz : R }.

Definition UnitX : Vector3d := V3 1 0 0.
Definition UnitY : Vector3d := V3 0 1 0.
Definition UnitZ : Vector3d := V3 0 0 1.
Definition Zero3 : Vector3d := V3 0 0 0.

Definition vadd (a b : Vector3d) : Vector3d :=
  V3 (vx a + vx b) (vy a + vy b) (vz a + vz b).

Definition vsub (a b : Vector3d) : Vector3d :=
  V3 (vx a - vx b) (vy a - vy b) (vz a - vz b).

Definition vscale (k : R) (a : Vector3d) : Vector3d :=
  V3 (k * vx a) (k * vy a) (k * vz a).

Definition vneg (a : Vector3d) : Vector3d := vscale (-1) a.

Definition dot (a b : Vector3d) : R :=
  vx a * vx b + vy a * vy b + vz a * vz b.

Definition cross (a b : Vector3d) : Vector3d :=
  V3 (vy a * vz b - vz a * vy b)
     (vz a * vx b - vx a * vz b)
     (vx a * vy b - vy a * vx b).

Definition squaredNorm (a : Vector3d) : R := dot a a.

Definition norm (a : Vector3d) : R := sqrt (squaredNorm a).

(** [v.normalized()] is [v / v.norm()]. *)
Definition normalized (a : Vector3d) : Vector3d := vscale (/ norm a) a.

(** [Eigen::Hyperplane<double, 3>]: the four coefficients, the first three
    being [normal()] and the last [offset()]. *)
Record Hyperplane : Type := mkHyperplane { normal : Vector3d; offset : R }.

Definition signedDistance (h : Hyperplane) (p : Vector3d) : R :=
  dot (normal h) p + offset h.

(** [projection(p)] is [p - signedDistance(p) * normal()]. *)
Definition projection (h : Hyperplane) (p : Vector3d) : Vector3d :=
  vsub p (vscale (signedDistance h p) (normal h)).

(** [Eigen::Affine3d]: the three columns of the linear part and the
    translation; the last row of the 4x4 matrix is the constant (0 0 0 1). *)
Record Affine3d : Type := mkAffine {
  col0 : Vector3d;
  col1 : Vector3d;
  col2 : Vector3d;
  translation : Vector3d
}.

Definition Identity : Affine3d := mkAffine UnitX UnitY UnitZ Zero3.

Definition set_col0 (v : Vector3d) (t : Affine3d) : Affine3d :=
  mkAffine v (col1 t) (col2 t) (translation t).
Definition set_col1 (v : Vector3d) (t : Affine3d) : Affine3d :=
  mkAffine (col0 t) v (col2 t) (translation t).
Definition set_col2 (v : Vector3d) (t : Affine3d) : Affine3d :=
  mkAffine (col0 t) (col1 t) v (translation t).
Definition set_translation (v : Vector3d) (t : Affine3d) : Affine3d :=
  mkAffine (col0 t) (col1 t) (col2 t) v.

(** The linear part applied to a vector. *)
Definition linear_mul (t : Affine3d) (p : Vector3d) : Vector3d :=
  vadd (vadd (vscale (vx p) (col0 t)) (vscale (vy p) (col1 t)))
       (vscale (vz p) (col2 t)).

(** [t * p] for a point [p]. *)
Definition transform (t : Affine3d) (p : Vector3d) : Vector3d :=
  vadd (linear_mul t p) (translation t).

Definition determinant (t : Affine3d) : R :=
  dot (col0 t) (cross (col1 t) (col2 t)).

(** [t.inverse()] in [Affine] mode: the linear part is inverted by
    cofactors (the rows of the inverse are the cross products of the
    columns, times [1 / det]) and the translation becomes
    [- linear^-1 * translation]. *)
Definition inverse (t : Affine3d) : Affine3d :=
  let invdet := / determinant t in
  let r0 := vscale invdet (cross (col1 t) (col2 t)) in
  let r1 := vscale invdet (cross (col2 t) (col0 t)) in
  let r2 := vscale invdet (cross (col0 t) (col1 t)) in
  let lin := mkAffine (V3 (vx r0) (vx r1) (vx r2))
                      (V3 (vy r0) (vy r1) (vy r2))
                      (V3 (vz r0) (vz r1) (vz r2)) Zero3 in
  set_translation (vneg (linear_mul lin (translation t))) lin.

(** Comparisons of the source, as booleans. *)
Definition Rltb (a b : R) : bool := if Rlt_dec a b then true else false.

#[global] Arguments vadd : simpl never.
#[global] Arguments vsub : simpl never.
#[global] Arguments vscale : simpl never.
#[global] Arguments vneg : simpl never.
#[global] Arguments dot : simpl never.
#[global] Arguments cross : simpl never.
#[global] Arguments squaredNorm : simpl never.
#[global] Arguments norm : simpl never.
#[global] Arguments normalized : simpl never.
#[global] Arguments signedDistance : simpl never.
#[global] Arguments projection : simpl never.
#[global] Arguments linear_mul : simpl never.
#[global] Arguments transform : simpl never.
#[global] Arguments determinant : simpl never.
#[global] Arguments inverse : simpl never.
#[global] Arguments Rltb : simpl never.

End Eigen.

Import Eigen.

(** ** PCL: point clouds, polygon meshes, the triangle mesh *)

Module pcl.

(** [Cloud::PointType]: a position and a normal. *)
Record PointType : Type := mkPoint {
  x : R; y : R; z : R;
  normal_x : R; normal_y : R; normal_z : R
}.

Record Cloud : Type := mkCloud {
  points : list PointType;
  width : N;
  height : N
}.

(** [pcl::Vertices]: the point indices of one polygon. *)
Abbreviation Vertices := (list N) (only parsing).

(** [pcl::PolygonMesh]; the cloud is taken after [fromPCLPointCloud2]. *)
Record PolygonMesh : Type := mkPolygonMesh {
  cloud : Cloud;
  polygons : list Vertices
}.

(** What [SACSegmentation::segment] hands back. *)
Record Segmentation : Type := mkSegmentation {
  indices : list nat;
  values : list R
}.

Definition position (p : PointType) : Vector3d := V3 (x p) (y p) (z p).

Definition point_normal (p : PointType) : Vector3d :=
  V3 (normal_x p) (normal_y p) (normal_z p).

(** [pcl::compute3DCentroid]: the mean of the positions.  On an empty
    cloud PCL leaves the centroid untouched; the importer never gets that
    far with one. *)
Definition compute3DCentroid (c : Cloud) : Vector3d :=
  vscale (/ INR (length (points c)))
         (foldr (fun p acc => vadd (position p) acc) Zero3 (points c)).

Abbreviation VertexIndex := nat (only parsing).
Abbreviation HalfEdgeIndex := nat (only parsing).

(** [pcl::geometry::TriangleMesh], as far as the importer drives it: the
    vertices are numbered in the order of [addVertex]; [faces] records the
    [addFace] calls in order (what PCL makes of them is read back only
    through the boundary extraction). *)
Record TriangleMesh : Type := mkMesh {
  sizeVertices : nat;
  faces : list (VertexIndex * VertexIndex * VertexIndex)
}.

Definition emptyMesh : TriangleMesh := mkMesh 0 [].

Definition addVertex (m : TriangleMesh) : VertexIndex * TriangleMesh :=
  (sizeVertices m, mkMesh (S (sizeVertices m)) (faces m)).

Definition addFace (a b c : VertexIndex) (m : TriangleMesh) : TriangleMesh :=
  mkMesh (sizeVertices m) (faces m ++ [(a, b, c)]).

#[global] Arguments position : simpl never.
#[global] Arguments point_normal : simpl never.
#[global] Arguments compute3DCentroid : simpl never.

End pcl.

Import pcl.

(** ** boost::bimap<uint32_t, Mesh::VertexIndex> *)

Module bimap.

Record t : Type := mk {
  left : gmap N VertexIndex;
  right : gmap VertexIndex N
}.

Definition empty : t := mk ∅ ∅.

Definition left_count (k : N) (m : t) : nat :=
  match left m !! k with Some _ => 1 | None => 0 end.

(** [insert] adds the pair only when neither side holds its key yet. *)
Definition insert (k : N) (v : VertexIndex) (m : t) : t :=
  match left m !! k, right m !! v with
  | None, None => mk (<[k := v]> (left m)) (<[v := k]> (right m))
  | _, _ => m
  end.

End bimap.

(** ** The importer *)

Definition PolygonPt : Type := (R * R)%type.
Definition PolygonBoundary : Type := list PolygonPt.

Record MeshImporter : Type := mkImporter {
  plane_frame_ : Affine3d;
  boundaries_ : list PolygonBoundary;
  verbose_ : bool
}.

(** The console messages of the file, one constructor per call site. *)
Inductive ros_msg : Type :=
| WARN_could_not_compute_plane
| INFO_normal (h : Hyperplane)
| ERROR_polygon_sides (n : nat)
| WARN_less_than_90_percent
| WARN_flipping_normal
| WARN_normal_out_of_tolerance (c tol : R)
| FATAL_assertion_failed.

Record state : Type := mkState {
  self : MeshImporter;
  rosout : list ros_msg
}.

Inductive result (A : Type) : Type :=
| Returned (a : A)
| Thrown_out_of_range
| Aborted.

Arguments Returned {A} a.
Arguments Thrown_out_of_range {A}.
Arguments Aborted {A}.

Definition M (A : Type) : Type := state -> result A * state.

Definition ret {A} (a : A) : M A := fun s => (Returned a, s).

Definition bind {A B} (m : M A) (k : A -> M B) : M B :=
  fun s =>
    match m s with
    | (Returned a, s') => k a s'
    | (Thrown_out_of_range, s') => (Thrown_out_of_range, s')
    | (Aborted, s') => (Aborted, s')
    end.

Declare Scope importer_scope.
Delimit Scope importer_scope with imp.
Notation "'do' x <- m ; k" := (bind m (fun x => k))
  (at level 10, x name, m at level 100, k at level 200) : importer_scope.
Notation "'exec' m ; k" := (bind m (fun _ => k))
  (at level 10, m at level 100, k at level 200) : importer_scope.
Local Open Scope importer_scope.

Definition throw {A} : M A := fun s => (Thrown_out_of_range, s).

Definition ros_log (m : ros_msg) : M unit :=
  fun s => (Returned tt, mkState (self s) (m :: rosout s)).

Definition get_self : M MeshImporter := fun s => (Returned (self s), s).

Definition modify_self (f : MeshImporter -> MeshImporter) : M unit :=
  fun s => (Returned tt, mkState (f (self s)) (rosout s)).

(** [v.at(i)] of a [std::vector]. *)
Definition vector_at {A} (v : list A) (i : nat) : M A :=
  match v !! i with Some a => ret a | None => throw end.

Definition left_at (k : N) (m : bimap.t) : M VertexIndex :=
  match bimap.left m !! k with Some v => ret v | None => throw end.

Definition right_at (v : VertexIndex) (m : bimap.t) : M N :=
  match bimap.right m !! v with Some k => ret k | None => throw end.

(** [static_cast<double>(n) / static_cast<double>(total) < 0.9].  With
    [total = 0] the quotient is an infinity or a NaN and the comparison is
    false. *)
Definition fraction_below_90 (n : nat) (total : N) : bool :=
  if decide (total = 0%N) then false
  else Rltb (INR n / IZR (Z.of_N total)) (9 / 10).

(** [cloud->height * cloud->width], a [uint32_t] product. *)
Definition cloud_size (c : Cloud) : N := ((height c * width c) mod 2 ^ 32)%N.

(** The angle given to [setEpsAngle] and read back by [getEpsAngle]. *)
Definition EpsAngle : R := (1 / 2)%R.

(** The importer right after the two resets that open
    [calculateBoundaryData]. *)
Definition reset (s : state) : state :=
  mkState (mkImporter Identity [] (verbose_ (self s))) (rosout s).

(** ** Notions the properties are stated with *)

(** Columns of unit length, pairwise perpendicular, determinant one. *)
Definition orthonormal_right_handed (t : Affine3d) : Prop :=
  squaredNorm (col0 t) = 1%R ∧ squaredNorm (col1 t) = 1%R ∧
  squaredNorm (col2 t) = 1%R ∧
  dot (col0 t) (col1 t) = 0%R ∧ dot (col1 t) (col2 t) = 0%R ∧
  dot (col0 t) (col2 t) = 0%R ∧
  determinant t = 1%R.

(** [q] is the foot of the perpendicular from [p] to the plane [h]. *)
Definition orthogonal_projection (h : Hyperplane) (p q : Vector3d) : Prop :=
  signedDistance h q = 0%R ∧ ∃ k : R, vsub p q = vscale k (normal h).

Definition distance (a b : Vector3d) : R := norm (vsub a b).

(** The distinct elements of a list of point indices, in the order in
    which each is met first. *)
Definition note_index (seen : list N) (k : N) : list N :=
  if decide (k ∈ seen) then seen else seen ++ [k].

Definition first_occurrences (l : list N) : list N := foldl note_index [] l.

(** The vertex handle the builder is expected to give to an index: its
    rank among the first occurrences. *)
Definition handle_of (l : list N) (k : N) (v : VertexIndex) : Prop :=
  first_occurrences l !! v = Some k.

(** ** Sample data: a triangle in the plane z = 4 *)

Definition flat_point (px py : R) : PointType := mkPoint px py 4 0 0 1.

Definition triangle_cloud : Cloud :=
  mkCloud [flat_point 0 (-3); flat_point 6 0; flat_point 0 3] 3 1.

Definition triangle_input : PolygonMesh :=
  mkPolygonMesh triangle_cloud [[0; 1; 2]%N].

Definition faceless_input : PolygonMesh := mkPolygonMesh triangle_cloud [].

Definition quad_input : PolygonMesh :=
  mkPolygonMesh triangle_cloud [[0; 1; 2]%N; [0; 1; 2; 2]%N; [2; 1; 0]%N].

Definition plane_z4 : Hyperplane := mkHyperplane (V3 0 0 1) (-4).

Definition centroid_z4 : Vector3d := V3 2 0 4.

(** The frame the builder makes of [plane_z4] and [centroid_z4]. *)
Definition tilted_frame : Affine3d :=
  mkAffine (V3 (3 / 5) 0 (4 / 5)) (V3 0 1 0) (V3 0 0 1) (V3 2 0 4).

(** A fit that takes all three points as inliers of z = 4. *)
Definition full_fit (c : Cloud) : Segmentation :=
  mkSegmentation [0; 1; 2] [0; 0; 1; -4]%R.

(** The same plane written with the opposite normal. *)
Definition reversed_fit (c : Cloud) : Segmentation :=
  mkSegmentation [0; 1; 2] [0; 0; -1; 4]%R.

(** A fit that keeps two points out of three. *)
Definition sparse_fit (c : Cloud) : Segmentation :=
  mkSegmentation [0; 1] [0; 0; 1; -4]%R.

(** Modelled from the spec: [getBoundBoundaryHalfEdges] is declared in
    get_boundary.h, which is not among the sources.  For a mesh of a
    single triangle the extractor returns exactly one boundary loop of
    length 3, one half-edge leaving each vertex of the triangle; a mesh
    without faces has no half-edge and hence no loop. *)
Definition one_triangle_loops (m : TriangleMesh) : list (list HalfEdgeIndex) :=
  match faces m with
  | [_] => [[0; 1; 2]]
  | _ => []
  end.

Definition one_triangle_origin (m : TriangleMesh) (he : HalfEdgeIndex) : VertexIndex :=
  match faces m with
  | [(a, b, c)] => match he with 0 => a | 1 => b | _ => c end
  | _ => 0
  end.

(** What the builder makes of the single triangle, the inverse of
    [tilted_frame], and the three vertices of the triangle in the
    coordinates of [tilted_frame]. *)
Definition triangle_mesh : TriangleMesh := mkMesh 3 [(0, 1, 2)].

Definition triangle_map : bimap.t :=
  bimap.insert 2 2 (bimap.insert 1 1 (bimap.insert 0 0 bimap.empty)).

Definition tilted_inverse : Affine3d :=
  mkAffine (V3 (5 / 3) 0 (-4 / 3)) (V3 0 1 0) (V3 0 0 1) (V3 (-10 / 3) 0 (-4 / 3)).

Definition triangle_plane_points : list (list Vector3d) :=
  [[V3 (-10 / 3) (-3) (8 / 3); V3 (20 / 3) 0 (-16 / 3); V3 (-10 / 3) 3 (8 / 3)]].

Definition state0 : state := mkState (mkImporter Identity [] false) [].

(** Unfolds the vector operations down to real arithmetic on components. *)
Ltac vunfold :=
  cbv [distance norm squaredNorm transform linear_mul inverse determinant
       projection signedDistance vneg cross dot vadd vsub vscale
       set_translation set_col0 set_col1 set_col2
       UnitX UnitY UnitZ Zero3 position point_normal
       vx vy vz normal offset col0 col1 col2 translation
       x y z normal_x normal_y normal_z] in *.

Ltac vcalc := vunfold; apply f_equal3; try lra; try (field; lra).

Section Importer.

(** Whether [ROS_ASSERT] is compiled in (it is unless [NDEBUG] is set). *)
Variable ROS_ASSERT_ENABLED : bool.

(** The outcome of [seg.segment] on a cloud: the consensus fit of PCL. *)
Variable segment : Cloud -> Segmentation.

(** [pcl_godel::geometry::getBoundBoundaryHalfEdges] of [get_boundary.h]
    and [Mesh::getOriginatingVertexIndex]. *)
Variable getBoundBoundaryHalfEdges : TriangleMesh -> list (list HalfEdgeIndex).
Variable getOriginatingVertexIndex : TriangleMesh -> HalfEdgeIndex -> VertexIndex.

(** [ROS_ASSERT(cond)]: a failed condition logs a fatal message and breaks;
    nothing at all happens when assertions are compiled out. *)
Definition ROS_ASSERT (cond : bool) : M unit :=
  if ROS_ASSERT_ENABLED then
    if cond then ret tt
    else fun s => (Aborted, mkState (self s) (FATAL_assertion_failed :: rosout s))
  else ret tt.

(** The result is [Some h] when the source returns [true] with [output]
    set to [h], and [None] when it returns [false] ([output] is then left
    as it was). *)
Definition computePlaneCoefficients (cloud : Cloud) : M (option Hyperplane) :=
  do p0 <- vector_at (points cloud) 0;
  let expected_normal := point_normal p0 in
  let seg := segment cloud in
  let coefficients := values seg in
  exec ROS_ASSERT (bool_decide (length coefficients = 4));
  if fraction_below_90 (length (indices seg)) (cloud_size cloud) then
    exec ros_log WARN_less_than_90_percent;
    ret None
  else
    do c0 <- vector_at coefficients 0;
    do c1 <- vector_at coefficients 1;
    do c2 <- vector_at coefficients 2;
    let actual_normal := V3 c0 c1 c2 in
    do actual_normal <-
      (if Rltb (dot actual_normal expected_normal) 0 then
         exec ros_log WARN_flipping_normal;
         ret (vscale (-1) actual_normal)
       else ret actual_normal);
    if Rltb (dot actual_normal expected_normal) (cos EpsAngle) then
      exec ros_log (WARN_normal_out_of_tolerance
                      (dot actual_normal expected_normal) (cos EpsAngle));
      ret None
    else
      do c3 <- vector_at coefficients 3;
      ret (Some (mkHyperplane actual_normal c3)).

(** The frame written by [computeLocalPlaneFrame] over [frame]. *)
Definition localPlaneFrame (plane : Hyperplane) (centroid : Vector3d)
    (frame : Affine3d) : Affine3d :=
  let origin := projection plane centroid in
  let plane_normal := normal plane in
  let frame :=
    if Rltb (Rabs (dot plane_normal UnitX)) (8 / 10) then
      let x_axis := projection plane (vadd origin UnitX) in
      let frame := set_col0 (normalized x_axis) frame in
      let frame := set_col2 (normalized plane_normal) frame in
      set_col1 (normalized (cross (normalized plane_normal) (normalized x_axis))) frame
    else
      let y_axis := projection plane (vadd origin UnitY) in
      let frame := set_col1 (normalized y_axis) frame in
      let frame := set_col2 (normalized plane_normal) frame in
      set_col0 (normalized (cross (normalized y_axis) (normalized plane_normal))) frame
  in
  set_translation origin frame.

Definition computeLocalPlaneFrame (plane : Hyperplane) (centroid : Vector3d) : M unit :=
  modify_self (fun i =>
    mkImporter (localPlaneFrame plane centroid (plane_frame_ i))
               (boundaries_ i) (verbose_ i)).

(** The inner loop over the indices of one polygon. *)
Fixpoint vertices_loop (vertices : Vertices) (vi : list VertexIndex)
    (mesh : TriangleMesh) (mesh_index_map : bimap.t)
    : M (list VertexIndex * TriangleMesh * bimap.t) :=
  match vertices with
  | [] => ret (vi, mesh, mesh_index_map)
  | vidx :: rest =>
      let '(mesh, mesh_index_map) :=
        if bool_decide (bimap.left_count vidx mesh_index_map = 0) then
          let '(v, mesh) := addVertex mesh in
          (mesh, bimap.insert vidx v mesh_index_map)
        else (mesh, mesh_index_map) in
      do v <- left_at vidx mesh_index_map;
      vertices_loop rest (vi ++ [v]) mesh mesh_index_map
  end.

(** The loop over [input_mesh.polygons]: [None] is the [return false] from
    inside the loop. *)
Fixpoint polygons_loop (polygons : list Vertices)
    (mesh : TriangleMesh) (mesh_index_map : bimap.t)
    : M (option (TriangleMesh * bimap.t)) :=
  match polygons with
  | [] => ret (Some (mesh, mesh_index_map))
  | vertices :: rest =>
      if bool_decide (length vertices ≠ 3) then
        exec ros_log (ERROR_polygon_sides (length vertices));
        ret None
      else
        do r <- vertices_loop vertices [] mesh mesh_index_map;
        let '(vi, mesh, mesh_index_map) := r in
        do v0 <- vector_at vi 0;
        do v1 <- vector_at vi 1;
        do v2 <- vector_at vi 2;
        polygons_loop rest (addFace v0 v1 v2 mesh) mesh_index_map
  end.

(** The inner loop over the half-edges of one boundary. *)
Fixpoint edges_loop (points : Cloud) (hplane : Hyperplane) (plane_inverse : Affine3d)
    (mesh : TriangleMesh) (mesh_index_map : bimap.t)
    (boundary : list HalfEdgeIndex) (pbound : PolygonBoundary) : M PolygonBoundary :=
  match boundary with
  | [] => ret pbound
  | edge :: rest =>
      do idx <- right_at (getOriginatingVertexIndex mesh edge) mesh_index_map;
      do cloudpt <- vector_at (pcl.points points) (N.to_nat idx);
      let projected_pt := projection hplane (position cloudpt) in
      let plane_pt := transform plane_inverse projected_pt in
      exec ROS_ASSERT (Rltb (Rabs (vz plane_pt)) (1 / 1000));
      edges_loop points hplane plane_inverse mesh mesh_index_map rest
                 (pbound ++ [(vx plane_pt, vy plane_pt)])
  end.

(** The loop over the boundaries. *)
Fixpoint boundaries_loop (points : Cloud) (hplane : Hyperplane) (plane_inverse : Affine3d)
    (mesh : TriangleMesh) (mesh_index_map : bimap.t)
    (boundary_he_indices : list (list HalfEdgeIndex)) : M unit :=
  match boundary_he_indices with
  | [] => ret tt
  | boundary :: rest =>
      do pbound <- edges_loop points hplane plane_inverse mesh mesh_index_map boundary [];
      exec modify_self (fun i =>
        mkImporter (plane_frame_ i) (boundaries_ i ++ [pbound]) (verbose_ i));
      boundaries_loop points hplane plane_inverse mesh mesh_index_map rest
  end.

Definition calculateBoundaryData (input_mesh : PolygonMesh) : M bool :=
  exec modify_self (fun i => mkImporter Identity (boundaries_ i) (verbose_ i));
  exec modify_self (fun i => mkImporter (plane_frame_ i) [] (verbose_ i));
  let points := cloud input_mesh in
  do fit <- computePlaneCoefficients points;
  match fit with
  | None =>
      exec ros_log WARN_could_not_compute_plane;
      ret false
  | Some hplane =>
      do me <- get_self;
      exec (if verbose_ me then ros_log (INFO_normal hplane) else ret tt);
      let centroid := compute3DCentroid points in
      exec computeLocalPlaneFrame hplane centroid;
      do built <- polygons_loop (polygons input_mesh) emptyMesh bimap.empty;
      match built with
      | None => ret false
      | Some (mesh, mesh_index_map) =>
          let boundary_he_indices := getBoundBoundaryHalfEdges mesh in
          do me <- get_self;
          let plane_inverse := inverse (plane_frame_ me) in
          exec boundaries_loop points hplane plane_inverse mesh mesh_index_map
                               boundary_he_indices;
          ret true
      end
  end.


(** The link between the indices met so far, the mesh and the bimap: the
    vertex [v] stands for the [v]-th distinct index. *)
Definition linked (seen : list N) (mesh : TriangleMesh) (m : bimap.t) : Prop :=
  NoDup seen ∧ sizeVertices mesh = length seen ∧
  (∀ k v, bimap.left m !! k = Some v ↔ seen !! v = Some k) ∧
  (∀ v k, bimap.right m !! v = Some k ↔ seen !! v = Some k).

(** A face of the mesh resolves the three indices of a polygon. *)
Definition resolves (seen : list N) (f : Vertices)
    (t : VertexIndex * VertexIndex * VertexIndex) : Prop :=
  Forall2 (λ k v, seen !! v = Some k) f [t.1.1; t.1.2; t.2].

Definition append_log (msgs : list ros_msg) (s : state) : state :=
  mkState (self s) (msgs ++ rosout s).

(** A computation that leaves the importer alone: outcome and console
    output are the same from every state. *)
Definition logs_only {A} (m : M A) : Prop :=
  ∃ r msgs, ∀ s, m s = (r, append_log msgs s).

(** Outcome and console output of the estimator on a cloud, and outcome
    of the builder on a list of polygons, read off a run from [state0]. *)
Definition fit (cloud : Cloud) : result (option Hyperplane) :=
  fst (computePlaneCoefficients cloud state0).

Definition fit_log (cloud : Cloud) : list ros_msg :=
  rosout (snd (computePlaneCoefficients cloud state0)).

Definition build (polygons : list (list N)) : result (option (TriangleMesh * bimap.t)) :=
  fst (polygons_loop polygons emptyMesh bimap.empty state0).

(** The state in which the builder starts once the estimator returned
    [h]: frame written, boundaries empty, console output of the fit. *)
Definition framed (h : Hyperplane) (cloud : Cloud) (s : state) : state :=
  mkState
    (mkImporter (localPlaneFrame h (compute3DCentroid cloud) Identity) []
                (verbose_ (self s)))
    ((if verbose_ (self s) then [INFO_normal h] else []) ++ fit_log cloud ++ rosout s).

(** What the projector computes for one half-edge: the point of the
    cloud it starts from, projected on the plane and written in the frame. *)
Definition plane_point (points : Cloud) (hplane : Hyperplane) (plane_inverse : Affine3d)
    (mesh : TriangleMesh) (m : bimap.t) (edge : nat) : option Vector3d :=
  match bimap.right m !! getOriginatingVertexIndex mesh edge with
  | None => None
  | Some idx =>
      match pcl.points points !! N.to_nat idx with
      | None => None
      | Some cloudpt => Some (transform plane_inverse (projection hplane (position cloudpt)))
      end
  end.

Definition xy (p : Vector3d) : PolygonPt := (vx p, vy p).

Definition push_boundaries (bs : list PolygonBoundary) (s : state) : state :=
  mkState (mkImporter (plane_frame_ (self s)) (boundaries_ (self s) ++ bs)
                      (verbose_ (self s)))
          (rosout s).

(** The point of the cloud a boundary half-edge starts from: the two
    lookups of the projector. *)
Definition boundary_vertex (points : Cloud) (mesh : TriangleMesh) (m : bimap.t)
    (edge : nat) : option PointType :=
  match bimap.right m !! getOriginatingVertexIndex mesh edge with
  | None => None
  | Some idx => pcl.points points !! N.to_nat idx
  end.

(** ** Sample data: the same triangle in the plane z = 0 *)

Definition ground_point (px py : R) : PointType := mkPoint px py 0 0 0 1.

Definition ground_cloud : Cloud :=
  mkCloud [ground_point 0 (-3); ground_point 6 0; ground_point 0 3] 3 1.

Definition ground_input : PolygonMesh := mkPolygonMesh ground_cloud [[0; 1; 2]%N].

(** A triangle whose third index lies beyond the cloud. *)
Definition stray_input : PolygonMesh := mkPolygonMesh ground_cloud [[0; 1; 7]%N].

Definition stray_map : bimap.t :=
  bimap.insert 7 2 (bimap.insert 1 1 (bimap.insert 0 0 bimap.empty)).

Definition plane_z0 : Hyperplane := mkHyperplane (V3 0 0 1) 0.

Definition ground_frame : Affine3d :=
  mkAffine (V3 1 0 0) (V3 0 1 0) (V3 0 0 1) (V3 2 0 0).

Definition ground_inverse : Affine3d :=
  mkAffine (V3 1 0 0) (V3 0 1 0) (V3 0 0 1) (V3 (-2) 0 0).

Definition ground_fit (c : Cloud) : Segmentation :=
  mkSegmentation [0; 1; 2] [0; 0; 1; 0]%R.

(** A fit that found no model. *)
Definition no_fit (c : Cloud) : Segmentation := mkSegmentation [] [].

(** What the builder makes of the triangle followed by a second one that
    shares an edge with it. *)
Definition two_triangle_mesh : TriangleMesh := mkMesh 4 [(0, 1, 2); (2, 1, 3)].

Definition two_triangle_map : bimap.t := bimap.insert 3 3 triangle_map.

(** A computation that no state makes end on a failed assertion. *)
Definition never_aborts {A} (m : M A) : Prop := ∀ s, fst (m s) ≠ Aborted.

(** ** Sample data: a flipped fit, two triangles apart *)

(** The plane z = 4 as [reversed_fit] writes it, and the plane the
    estimator makes of it by negating the normal alone. *)
Definition reversed_plane : Hyperplane := mkHyperplane (V3 0 0 (-1)) 4.

Definition flipped_plane : Hyperplane := mkHyperplane (vscale (-1) (V3 0 0 (-1))) 4.

(** The triangle of [ground_cloud] and a second triangle, without a common
    vertex, whose three indices lie beyond the cloud. *)
Definition apart_input : PolygonMesh :=
  mkPolygonMesh ground_cloud [[0; 1; 2]%N; [7; 8; 9]%N].

Definition apart_mesh : TriangleMesh := mkMesh 6 [(0, 1, 2); (3, 4, 5)].

Definition apart_map : bimap.t :=
  bimap.insert 9 5 (bimap.insert 8 4 (bimap.insert 7 3 triangle_map)).

(** Modelled from the spec: [getBoundBoundaryHalfEdges] is declared in
    get_boundary.h, which is not among the sources.  A boundary loop is a
    maximal closed walk of boundary half-edges, so a mesh of two triangles
    without a common vertex has two loops of length 3, one around each
    triangle, one half-edge leaving each vertex, here in the order in
    which the faces were added; a single triangle has one loop and a mesh
    without faces none. *)
Definition apart_loops (m : TriangleMesh) : list (list HalfEdgeIndex) :=
  match faces m with
  | [_] => [[0; 1; 2]]
  | [_; _] => [[0; 1; 2]; [3; 4; 5]]
  | _ => []
  end.

Definition apart_origin (m : TriangleMesh) (he : HalfEdgeIndex) : VertexIndex :=
  match faces m with
  | [(a, b, c)] => match he with 0 => a | 1 => b | _ => c end
  | [(a, b, c); (d, e, f)] =>
      match he with 0 => a | 1 => b | 2 => c | 3 => d | 4 => e | _ => f end
  | _ => 0
  end.

(** ** Real arithmetic of the vectors *)

Local Open Scope R_scope.

Lemma Rltb_true (a b : R) : a < b → Rltb a b = true.
Proof. intros H. unfold Rltb. destruct (Rlt_dec a b); [reflexivity | contradiction]. Qed.

Lemma Rltb_false (a b : R) : b <= a → Rltb a b = false.
Proof. intros H. unfold Rltb. destruct (Rlt_dec a b); [lra | reflexivity]. Qed.

Lemma Rltb_iff (a b : R) : Rltb a b = true ↔ a < b.
Proof.
  unfold Rltb. destruct (Rlt_dec a b); split; intros; try done.
Qed.

Lemma Rltb_false_iff (a b : R) : Rltb a b = false ↔ b <= a.
Proof.
  unfold Rltb. destruct (Rlt_dec a b); split; intros; try done; lra.
Qed.

Lemma norm_of_square (a : Vector3d) (r : R) :
  0 <= r → squaredNorm a = r * r → norm a = r.
Proof. intros Hr H. unfold norm. rewrite H. apply sqrt_square, Hr. Qed.

Lemma normalized_unit (a : Vector3d) : squaredNorm a = 1 → normalized a = a.
Proof.
  intros H. unfold normalized.
  rewrite (norm_of_square a 1) by (lra || (rewrite H; lra)).
  destruct a; unfold vscale; simpl. f_equal; field.
Qed.

Lemma normalized_by (a : Vector3d) (r : R) :
  0 < r → squaredNorm a = r * r → normalized a = vscale (/ r) a.
Proof.
  intros Hr H. unfold normalized. rewrite (norm_of_square a r); [reflexivity | lra | exact H].
Qed.

Lemma localPlaneFrame_z4 (frame : Affine3d) :
  localPlaneFrame plane_z4 centroid_z4 frame = tilted_frame.
Proof.
  unfold localPlaneFrame.
  assert (Ho : projection plane_z4 centroid_z4 = V3 2 0 4).
  { unfold plane_z4, centroid_z4. vcalc. }
  rewrite Ho.
  assert (Hx : projection plane_z4 (vadd (V3 2 0 4) UnitX) = V3 3 0 4).
  { unfold plane_z4. vcalc. }
  rewrite Hx.
  rewrite Rltb_true.
  2:{ unfold plane_z4. vunfold. rewrite Rabs_pos_eq; lra. }
  rewrite (normalized_unit (normal plane_z4)) by (unfold plane_z4; vunfold; lra).
  rewrite (normalized_by (V3 3 0 4) 5) by (try lra; vunfold; lra).
  assert (Hc : cross (normal plane_z4) (vscale (/ 5) (V3 3 0 4)) = V3 0 (3 / 5) 0).
  { unfold plane_z4. vcalc. }
  rewrite Hc.
  rewrite (normalized_by (V3 0 (3 / 5) 0) (3 / 5)) by (try lra; vunfold; lra).
  unfold tilted_frame, plane_z4. vunfold.
  f_equal; vcalc.
Qed.

Local Close Scope R_scope.

(** ** The mesh builder *)

Lemma note_index_prefix (seen : list N) (k : N) (v : nat) (j : N) :
  seen !! v = Some j → note_index seen k !! v = Some j.
Proof.
  intros H. unfold note_index. case_decide; [done |].
  by apply lookup_app_l_Some.
Qed.

Lemma first_occurrences_prefix (l seen : list N) (v : nat) (j : N) :
  seen !! v = Some j → foldl note_index seen l !! v = Some j.
Proof.
  revert seen. induction l as [| k l IH]; intros seen H; [done |].
  simpl. apply IH. by apply note_index_prefix.
Qed.

Lemma linked_empty : linked [] emptyMesh bimap.empty.
Proof.
  repeat split; try done; try constructor; simpl; intros H;
    try (by rewrite lookup_empty in H).
Qed.

Lemma linked_addFace seen mesh m a b c :
  linked seen mesh m → linked seen (addFace a b c mesh) m.
Proof. intros (H1 & H2 & H3 & H4). split; [exact H1 |]. split; [exact H2 |]. split; assumption. Qed.

(** One trip through the inner loop: the handle of an index is looked up,
    a vertex being added first when the index is new. *)
Lemma vertex_step seen mesh m (vidx : N) :
  linked seen mesh m →
  ∃ mesh' m' v,
    (if bool_decide (bimap.left_count vidx m = 0) then
       let '(v, mesh) := addVertex mesh in (mesh, bimap.insert vidx v m)
     else (mesh, m)) = (mesh', m') ∧
    bimap.left m' !! vidx = Some v ∧
    linked (note_index seen vidx) mesh' m' ∧
    faces mesh' = faces mesh ∧
    (sizeVertices mesh' = sizeVertices mesh ↔ vidx ∈ seen) ∧
    (sizeVertices mesh' = S (sizeVertices mesh) ↔ vidx ∉ seen).
Proof.
  intros (Hnd & Hsz & Hl & Hr).
  unfold bimap.left_count, note_index.
  destruct (bimap.left m !! vidx) as [v0 |] eqn:Hlk.
  - assert (Hin : vidx ∈ seen).
    { apply Hl in Hlk. by eapply list_elem_of_lookup_2. }
    rewrite bool_decide_eq_false_2 by done.
    rewrite decide_True by done.
    exists mesh, m, v0. split; [done |]. split; [done |].
    split; [unfold linked; done |]. split; [done |].
    split; [by split | split; [lia | done]].
  - assert (Hnin : vidx ∉ seen).
    { intros [v Hv]%list_elem_of_lookup_1. apply Hl in Hv. congruence. }
    rewrite bool_decide_eq_true_2 by done.
    rewrite decide_False by done.
    simpl. unfold bimap.insert. rewrite Hlk.
    assert (Hfresh : bimap.right m !! sizeVertices mesh = None).
    { destruct (bimap.right m !! sizeVertices mesh) as [k |] eqn:E; [| done].
      apply Hr in E. apply lookup_lt_Some in E. lia. }
    rewrite Hfresh.
    eexists _, _, (sizeVertices mesh). split; [reflexivity |]. simpl.
    split; [by rewrite lookup_insert_eq |].
    split; [| split; [done | split; [split; [lia | done] | done]]].
    split; [| split; [| split]].
    + apply NoDup_app. split; [done |]. split; [| apply NoDup_singleton].
      intros j Hj ->%list_elem_of_singleton. done.
    + simpl. rewrite length_app. simpl. lia.
    + intros k v. simpl. rewrite lookup_insert. case_decide as Hk.
      * subst k. split.
        -- intros [= <-]. rewrite Hsz. by apply list_lookup_middle.
        -- intros Hv. f_equal.
           destruct (decide (v < length seen)) as [Hlt | Hge].
           ++ rewrite lookup_app_l in Hv by done.
              exfalso. apply Hnin. by eapply list_elem_of_lookup_2.
           ++ apply lookup_lt_Some in Hv. rewrite length_app in Hv. simpl in Hv. lia.
      * rewrite Hl. split.
        -- intros Hv. by apply lookup_app_l_Some.
        -- intros Hv. destruct (decide (v < length seen)) as [Hlt | Hge].
           ++ by rewrite lookup_app_l in Hv.
           ++ assert (v = length seen) as ->.
              { apply lookup_lt_Some in Hv. rewrite length_app in Hv. simpl in Hv. lia. }
              rewrite list_lookup_middle in Hv by done. congruence.
    + intros v k. simpl. rewrite lookup_insert. case_decide as Hv.
      * subst v. rewrite Hsz. rewrite list_lookup_middle by done.
        split; congruence.
      * rewrite Hr. split.
        -- intros Hs. by apply lookup_app_l_Some.
        -- intros Hs. destruct (decide (v < length seen)) as [Hlt | Hge].
           ++ by rewrite lookup_app_l in Hs.
           ++ apply lookup_lt_Some in Hs. rewrite length_app in Hs. simpl in Hs. lia.
Qed.

Lemma vertices_loop_linked (vertices : list N) :
  ∀ vi mesh m seen s,
    linked seen mesh m →
    ∃ mesh' m' hs,
      vertices_loop vertices vi mesh m s = (Returned (vi ++ hs, mesh', m'), s) ∧
      linked (foldl note_index seen vertices) mesh' m' ∧
      faces mesh' = faces mesh ∧
      Forall2 (λ k v, foldl note_index seen vertices !! v = Some k) vertices hs.
Proof.
  induction vertices as [| vidx rest IH]; intros vi mesh m seen s Hlink.
  - exists mesh, m, []. rewrite app_nil_r. simpl.
    split; [done |]. split; [done |]. split; [done | constructor].
  - destruct (vertex_step seen mesh m vidx Hlink)
      as (mesh1 & m1 & v & Hstep & Hv & Hlink1 & Hfaces & _).
    destruct (IH (vi ++ [v]) mesh1 m1 (note_index seen vidx) s Hlink1)
      as (mesh' & m' & hs & Hrun & Hlink' & Hfaces' & Hall).
    exists mesh', m', (v :: hs).
    split; [| split; [done | split; [congruence |]]].
    + cbn [vertices_loop]. rewrite Hstep.
      unfold left_at, bind. rewrite Hv. simpl.
      rewrite Hrun. by rewrite <- app_assoc.
    + simpl. constructor; [| done].
      apply first_occurrences_prefix.
      destruct Hlink1 as (_ & _ & Hl & _). by apply Hl.
Qed.

Lemma first_occurrences_app (l1 l2 seen : list N) :
  foldl note_index seen (l1 ++ l2) = foldl note_index (foldl note_index seen l1) l2.
Proof. apply foldl_app. Qed.

Lemma resolves_prefix (l seen : list N) (f : list N) t :
  resolves seen f t → resolves (foldl note_index seen l) f t.
Proof.
  unfold resolves. intros H.
  eapply Forall2_impl; [exact H |]. intros k v Hv.
  by apply first_occurrences_prefix.
Qed.

(** The outer loop on triangles only: it runs to the end, touches neither
    the importer nor the console, and every face is made of the handles
    of its three indices. *)
Lemma polygons_loop_triangles (polygons : list (list N)) :
  Forall (λ f, length f = 3) polygons →
  ∀ mesh m seen s,
    linked seen mesh m →
    ∃ mesh' m' ts,
      polygons_loop polygons mesh m s = (Returned (Some (mesh', m')), s) ∧
      linked (foldl note_index seen (concat polygons)) mesh' m' ∧
      faces mesh' = faces mesh ++ ts ∧
      Forall2 (resolves (foldl note_index seen (concat polygons))) polygons ts.
Proof.
  induction 1 as [| f rest Hf Hrest IH]; intros mesh m seen s Hlink.
  - exists mesh, m, []. rewrite app_nil_r. simpl.
    split; [done |]. split; [done |]. split; [done | constructor].
  - destruct (vertices_loop_linked f [] mesh m seen s Hlink)
      as (mesh1 & m1 & hs & Hrun & Hlink1 & Hfaces1 & Hall).
    assert (Hlen : length hs = 3).
    { apply Forall2_length in Hall. congruence. }
    destruct hs as [| v0 [| v1 [| v2 [| ? ?]]]]; try discriminate Hlen.
    set (mesh2 := addFace v0 v1 v2 mesh1).
    assert (Hlink2 : linked (foldl note_index seen f) mesh2 m1).
    { by apply linked_addFace. }
    destruct (IH mesh2 m1 (foldl note_index seen f) s Hlink2)
      as (mesh' & m' & ts & Hrun' & Hlink' & Hfaces' & Hall').
    exists mesh', m', ((v0, v1, v2) :: ts).
    simpl concat. rewrite first_occurrences_app.
    split; [| split; [done | split]].
    + cbn [polygons_loop]. rewrite bool_decide_eq_false_2 by (intros Hne; done).
      unfold bind at 1. rewrite Hrun. simpl. exact Hrun'.
    + rewrite Hfaces'. unfold mesh2. simpl. rewrite Hfaces1.
      by rewrite <- app_assoc.
    + constructor; [| done].
      apply resolves_prefix. exact Hall.
Qed.

(** The outer loop with a polygon that is no triangle: it stops there. *)
Lemma polygons_loop_bad (pre : list (list N)) (bad : list N) (post : list (list N)) :
  Forall (λ f, length f = 3) pre →
  length bad ≠ 3 →
  ∀ mesh m seen s,
    linked seen mesh m →
    polygons_loop (pre ++ bad :: post) mesh m s =
      (Returned None, append_log [ERROR_polygon_sides (length bad)] s).
Proof.
  intros Hpre Hbad. induction Hpre as [| f rest Hf Hrest IH]; intros mesh m seen s Hlink.
  - simpl. rewrite bool_decide_eq_true_2 by done. reflexivity.
  - destruct (vertices_loop_linked f [] mesh m seen s Hlink)
      as (mesh1 & m1 & hs & Hrun & Hlink1 & Hfaces1 & Hall).
    assert (Hlen : length hs = 3).
    { apply Forall2_length in Hall. congruence. }
    destruct hs as [| v0 [| v1 [| v2 [| ? ?]]]]; try discriminate Hlen.
    assert (Hlink2 : linked (foldl note_index seen f) (addFace v0 v1 v2 mesh1) m1).
    { by apply linked_addFace. }
    simpl app. cbn [polygons_loop].
    rewrite bool_decide_eq_false_2 by (intros Hne; done).
    unfold bind at 1. rewrite Hrun. simpl.
    exact (IH _ _ _ s Hlink2).
Qed.

Lemma elem_of_note_index (seen : list N) (k j : N) :
  j ∈ note_index seen k ↔ j ∈ seen ∨ j = k.
Proof.
  unfold note_index. case_decide as Hk.
  - split; [by left | intros [? | ->]; done].
  - rewrite elem_of_app, list_elem_of_singleton. done.
Qed.

Lemma elem_of_first_occurrences_from (l seen : list N) (j : N) :
  j ∈ foldl note_index seen l ↔ j ∈ seen ∨ j ∈ l.
Proof.
  revert seen. induction l as [| k l IH]; intros seen; simpl.
  - split; [by left | intros [? | H]; [done | by apply elem_of_nil in H]].
  - rewrite IH, elem_of_note_index, elem_of_cons. tauto.
Qed.

Lemma elem_of_first_occurrences (l : list N) (j : N) :
  j ∈ first_occurrences l ↔ j ∈ l.
Proof.
  unfold first_occurrences. rewrite elem_of_first_occurrences_from.
  split; [intros [H | H]; [by apply elem_of_nil in H | done] | by right].
Qed.

Lemma NoDup_note_index (seen : list N) (k : N) : NoDup seen → NoDup (note_index seen k).
Proof.
  intros H. unfold note_index. case_decide as Hk; [done |].
  apply NoDup_app. split; [done |]. split; [| apply NoDup_singleton].
  intros j Hj ->%list_elem_of_singleton. done.
Qed.

Lemma NoDup_first_occurrences (l : list N) : NoDup (first_occurrences l).
Proof.
  unfold first_occurrences. generalize (NoDup_nil_2 (A := N)).
  generalize (@nil N). induction l as [| k l IH]; intros seen Hs; simpl; [done |].
  apply IH. by apply NoDup_note_index.
Qed.

(** As many first occurrences as there are distinct indices. *)
Lemma length_first_occurrences (l : list N) :
  length (first_occurrences l) = size (list_to_set l : gset N).
Proof.
  rewrite <- (size_list_to_set (C := gset N) (first_occurrences l))
    by apply NoDup_first_occurrences.
  f_equal. apply set_eq. intros j.
  rewrite !elem_of_list_to_set. apply elem_of_first_occurrences.
Qed.

(** C8. For a list of triangular faces the builder runs to the end and
    leaves a bimap that is a bijection between the point indices the faces
    refer to and the vertex handles [0 .. sizeVertices - 1]: there is one
    vertex per distinct index, the handle of an index is its rank among
    the first occurrences (the vertex is made when the index is met first),
    and every occurrence of the index in a face is resolved to that one
    handle. *)
Theorem mesh_builder_merges_indices (polygons : list (list N)) (s : state) :
  Forall (λ f, length f = 3) polygons →
  ∃ mesh m,
    polygons_loop polygons emptyMesh bimap.empty s = (Returned (Some (mesh, m)), s) ∧
    (∀ k v, bimap.left m !! k = Some v ↔ bimap.right m !! v = Some k) ∧
    (∀ k, is_Some (bimap.left m !! k) ↔ k ∈ concat polygons) ∧
    (∀ v, is_Some (bimap.right m !! v) ↔ v < sizeVertices mesh) ∧
    sizeVertices mesh = size (list_to_set (concat polygons) : gset N) ∧
    (∀ k v, bimap.left m !! k = Some v ↔ handle_of (concat polygons) k v) ∧
    Forall2 (λ f t, Forall2 (λ k v, bimap.left m !! k = Some v) f [t.1.1; t.1.2; t.2])
            polygons (faces mesh).
Proof.
  intros Htri.
  destruct (polygons_loop_triangles polygons Htri emptyMesh bimap.empty [] s linked_empty)
    as (mesh & m & ts & Hrun & Hlink & Hfaces & Hall).
  fold (first_occurrences (concat polygons)) in Hlink, Hall.
  destruct Hlink as (Hnd & Hsz & Hl & Hr).
  exists mesh, m. split; [exact Hrun |].
  split; [intros k v; by rewrite Hl, Hr |].
  split.
  { intros k. rewrite <- elem_of_first_occurrences. split.
    - intros [v Hv]. apply Hl in Hv. by eapply list_elem_of_lookup_2.
    - intros [v Hv]%list_elem_of_lookup_1. exists v. by apply Hl. }
  split.
  { intros v. rewrite Hsz. rewrite <- lookup_lt_is_Some. split.
    - intros [k Hk]. exists k. by apply Hr.
    - intros [k Hk]. exists k. by apply Hr. }
  split; [by rewrite Hsz, length_first_occurrences |].
  split; [exact Hl |].
  simpl in Hfaces. subst ts.
  eapply Forall2_impl; [exact Hall |]. intros f t Hres.
  eapply Forall2_impl; [exact Hres |]. intros k v Hv. by apply Hl.
Qed.

(** ** Laws of the plumbing *)

Lemma append_log_nil (s : state) : append_log [] s = s.
Proof. by destruct s. Qed.

Lemma append_log_app (l1 l2 : list ros_msg) (s : state) :
  append_log l1 (append_log l2 s) = append_log (l1 ++ l2) s.
Proof. unfold append_log. simpl. by rewrite app_assoc. Qed.

Lemma bind_ret {A B} (a : A) (k : A → M B) (s : state) : bind (ret a) k s = k a s.
Proof. reflexivity. Qed.

Lemma bind_throw {A B} (k : A → M B) (s : state) :
  bind throw k s = (Thrown_out_of_range, s).
Proof. reflexivity. Qed.

Lemma bind_log {B} (msg : ros_msg) (k : unit → M B) (s : state) :
  bind (ros_log msg) k s = k tt (append_log [msg] s).
Proof. reflexivity. Qed.

Lemma bind_run {A B} (m : M A) (k : A → M B) (s s' : state) (a : A) :
  m s = (Returned a, s') → bind m k s = k a s'.
Proof. intros H. unfold bind. by rewrite H. Qed.

Lemma bind_thrown {A B} (m : M A) (k : A → M B) (s s' : state) :
  m s = (Thrown_out_of_range, s') → bind m k s = (Thrown_out_of_range, s').
Proof. intros H. unfold bind. by rewrite H. Qed.

Lemma bind_aborted {A B} (m : M A) (k : A → M B) (s s' : state) :
  m s = (Aborted, s') → bind m k s = (Aborted, s').
Proof. intros H. unfold bind. by rewrite H. Qed.

Lemma vector_at_Some {A} (v : list A) (i : nat) (a : A) :
  v !! i = Some a → vector_at v i = ret a.
Proof. intros H. unfold vector_at. by rewrite H. Qed.

Lemma vector_at_None {A} (v : list A) (i : nat) :
  v !! i = None → vector_at v i = throw.
Proof. intros H. unfold vector_at. by rewrite H. Qed.

Lemma ROS_ASSERT_pass (c : bool) :
  (ROS_ASSERT_ENABLED = true → c = true) → ROS_ASSERT c = ret tt.
Proof.
  intros H. unfold ROS_ASSERT. destruct ROS_ASSERT_ENABLED; [| done].
  by rewrite H.
Qed.

Lemma ROS_ASSERT_fail (c : bool) (s : state) :
  ROS_ASSERT_ENABLED = true → c = false →
  ROS_ASSERT c s = (Aborted, append_log [FATAL_assertion_failed] s).
Proof. intros He Hc. unfold ROS_ASSERT. by rewrite He, Hc. Qed.

Lemma logs_only_ret {A} (a : A) : logs_only (ret a).
Proof. exists (Returned a), []. intros s. by rewrite append_log_nil. Qed.

Lemma logs_only_throw {A} : logs_only (@throw A).
Proof. exists Thrown_out_of_range, []. intros s. by rewrite append_log_nil. Qed.

Lemma logs_only_log (msg : ros_msg) : logs_only (ros_log msg).
Proof. by exists (Returned tt), [msg]. Qed.

Lemma logs_only_vector_at {A} (v : list A) (i : nat) : logs_only (vector_at v i).
Proof.
  unfold vector_at. destruct (v !! i); [apply logs_only_ret | apply logs_only_throw].
Qed.

Lemma logs_only_assert (c : bool) : logs_only (ROS_ASSERT c).
Proof.
  unfold ROS_ASSERT. destruct ROS_ASSERT_ENABLED, c; try apply logs_only_ret.
  by exists Aborted, [FATAL_assertion_failed].
Qed.

Lemma logs_only_bind {A B} (m : M A) (k : A → M B) :
  logs_only m → (∀ a, logs_only (k a)) → logs_only (bind m k).
Proof.
  intros (r & msgs & Hm) Hk. destruct r as [a | |].
  - destruct (Hk a) as (r' & msgs' & Hk').
    exists r', (msgs' ++ msgs). intros s.
    rewrite (bind_run m k s _ a (Hm s)). by rewrite Hk', append_log_app.
  - exists Thrown_out_of_range, msgs. intros s. by apply bind_thrown.
  - exists Aborted, msgs. intros s. by apply bind_aborted.
Qed.

Lemma logs_only_if {A} (b : bool) (m1 m2 : M A) :
  logs_only m1 → logs_only m2 → logs_only (if b then m1 else m2).
Proof. by destruct b. Qed.

(** ** The plane estimator *)

(** The estimator reads the importer but never writes it. *)
Lemma computePlaneCoefficients_logs_only (cloud : Cloud) :
  logs_only (computePlaneCoefficients cloud).
Proof.
  unfold computePlaneCoefficients.
  repeat first
    [ apply logs_only_ret | apply logs_only_log | apply logs_only_vector_at
    | apply logs_only_assert | apply logs_only_if
    | apply logs_only_bind; [| intros ?] ].
Qed.

Local Open Scope R_scope.

Lemma computePlaneCoefficients_empty (cloud : Cloud) (s : state) :
  points cloud = [] →
  computePlaneCoefficients cloud s = (Thrown_out_of_range, s).
Proof.
  intros Hp. unfold computePlaneCoefficients.
  rewrite vector_at_None by (by rewrite Hp). apply bind_throw.
Qed.

Lemma computePlaneCoefficients_no_model (cloud : Cloud) (s : state) :
  points cloud ≠ [] → ROS_ASSERT_ENABLED = true →
  length (values (segment cloud)) ≠ 4%nat →
  computePlaneCoefficients cloud s = (Aborted, append_log [FATAL_assertion_failed] s).
Proof.
  intros Hp He Hlen. unfold computePlaneCoefficients.
  destruct (points cloud) as [| p0 rest]; [done |].
  rewrite (vector_at_Some _ 0%nat p0) by done. rewrite bind_ret.
  apply bind_aborted. apply ROS_ASSERT_fail; [done |].
  by apply bool_decide_eq_false_2.
Qed.

Lemma computePlaneCoefficients_below (cloud : Cloud) (s : state) :
  points cloud ≠ [] →
  (ROS_ASSERT_ENABLED = true → length (values (segment cloud)) = 4%nat) →
  fraction_below_90 (length (indices (segment cloud))) (cloud_size cloud) = true →
  computePlaneCoefficients cloud s =
    (Returned None, append_log [WARN_less_than_90_percent] s).
Proof.
  intros Hp Hlen Hfrac. unfold computePlaneCoefficients.
  destruct (points cloud) as [| p0 rest]; [done |].
  rewrite (vector_at_Some _ 0%nat p0) by done. rewrite bind_ret.
  rewrite ROS_ASSERT_pass by (intros He; by apply bool_decide_eq_true_2, Hlen).
  rewrite bind_ret, Hfrac. by rewrite bind_log.
Qed.

(** The estimator past the inlier test, on a fit of four coefficients. *)
Lemma computePlaneCoefficients_fit (cloud : Cloud) (s : state)
    (p0 : PointType) (rest : list PointType) (c0 c1 c2 c3 : R) :
  points cloud = p0 :: rest →
  values (segment cloud) = [c0; c1; c2; c3] →
  fraction_below_90 (length (indices (segment cloud))) (cloud_size cloud) = false →
  let seed := point_normal p0 in
  let fitted := V3 c0 c1 c2 in
  let flipped := Rltb (dot fitted seed) 0 in
  let corrected := if flipped then vscale (-1) fitted else fitted in
  let flip_log := if flipped then [WARN_flipping_normal] else [] in
  computePlaneCoefficients cloud s =
    if Rltb (dot corrected seed) (cos EpsAngle) then
      (Returned None,
       append_log (WARN_normal_out_of_tolerance (dot corrected seed) (cos EpsAngle)
                     :: flip_log) s)
    else
      (Returned (Some (mkHyperplane corrected c3)), append_log flip_log s).
Proof.
  intros Hp Hv Hfrac seed fitted flipped corrected flip_log.
  unfold computePlaneCoefficients. rewrite Hp, Hv.
  rewrite (vector_at_Some _ 0%nat p0) by done. rewrite bind_ret.
  rewrite ROS_ASSERT_pass by (intros _; by apply bool_decide_eq_true_2).
  rewrite bind_ret, Hfrac.
  rewrite (vector_at_Some _ 0%nat c0) by done. rewrite bind_ret.
  rewrite (vector_at_Some _ 1%nat c1) by done. rewrite bind_ret.
  rewrite (vector_at_Some _ 2%nat c2) by done. rewrite bind_ret.
  rewrite (vector_at_Some _ 3%nat c3) by done.
  fold fitted seed flipped.
  subst corrected flip_log. destruct flipped.
  - rewrite (bind_run _ _ s (append_log [WARN_flipping_normal] s) (vscale (-1) fitted))
      by (by rewrite bind_log).
    destruct (Rltb _ _); [by rewrite bind_log | by rewrite bind_ret].
  - rewrite bind_ret, append_log_nil.
    destruct (Rltb _ _); [by rewrite bind_log | by rewrite bind_ret].
Qed.

Lemma cloud_size_points (cloud : Cloud) :
  (height cloud * width cloud)%N = N.of_nat (length (points cloud)) →
  (N.of_nat (length (points cloud)) < 2 ^ 32)%N →
  cloud_size cloud = N.of_nat (length (points cloud)).
Proof.
  intros Hdim Hlt. unfold cloud_size. rewrite Hdim. by apply N.mod_small.
Qed.

Lemma fraction_below_90_iff (n : nat) (total : nat) :
  total ≠ 0%nat →
  fraction_below_90 n (N.of_nat total) = true ↔ INR n / INR total < 9 / 10.
Proof.
  intros Hpos. unfold fraction_below_90.
  rewrite decide_False by lia.
  rewrite nat_N_Z, <- INR_IZR_INZ. apply Rltb_iff.
Qed.

Local Close Scope R_scope.

(** ** The call as a whole *)

Lemma logs_only_fst {A} (m : M A) (s1 s2 : state) :
  logs_only m → fst (m s1) = fst (m s2).
Proof. intros (r & msgs & H). by rewrite !H. Qed.

Lemma computePlaneCoefficients_run (cloud : Cloud) (s : state) :
  computePlaneCoefficients cloud s = (fit cloud, append_log (fit_log cloud) s).
Proof.
  destruct (computePlaneCoefficients_logs_only cloud) as (r & msgs & H).
  unfold fit, fit_log. rewrite !H. simpl. by rewrite app_nil_r.
Qed.

Lemma logs_only_left_at (k : N) (m : bimap.t) : logs_only (left_at k m).
Proof.
  unfold left_at. destruct (bimap.left m !! k); [apply logs_only_ret | apply logs_only_throw].
Qed.

Lemma logs_only_vertices_loop (vertices : list N) :
  ∀ vi mesh m, logs_only (vertices_loop vertices vi mesh m).
Proof.
  induction vertices as [| vidx rest IH]; intros vi mesh m; simpl.
  - apply logs_only_ret.
  - destruct (bool_decide _); simpl;
      (apply logs_only_bind; [apply logs_only_left_at | intros v; apply IH]).
Qed.

Lemma logs_only_polygons_loop (polygons : list (list N)) :
  ∀ mesh m, logs_only (polygons_loop polygons mesh m).
Proof.
  induction polygons as [| f rest IH]; intros mesh m; simpl.
  - apply logs_only_ret.
  - apply logs_only_if.
    + apply logs_only_bind; [apply logs_only_log | intros ?; apply logs_only_ret].
    + apply logs_only_bind; [apply logs_only_vertices_loop |].
      intros [[vi mesh'] m'].
      repeat (apply logs_only_bind; [apply logs_only_vector_at | intros ?]).
      apply IH.
Qed.

Lemma build_triangles (polygons : list (list N)) :
  Forall (λ f, length f = 3) polygons →
  ∃ mesh m, build polygons = Returned (Some (mesh, m)) ∧
            ∀ s, polygons_loop polygons emptyMesh bimap.empty s = (Returned (Some (mesh, m)), s).
Proof.
  intros Htri.
  destruct (polygons_loop_triangles polygons Htri emptyMesh bimap.empty [] state0 linked_empty)
    as (mesh & m & ts & Hrun & _).
  exists mesh, m. split; [unfold build; by rewrite Hrun |].
  intros s.
  destruct (polygons_loop_triangles polygons Htri emptyMesh bimap.empty [] s linked_empty)
    as (mesh' & m' & ts' & Hrun' & _).
  pose proof (logs_only_fst _ s state0 (logs_only_polygons_loop polygons emptyMesh bimap.empty)) as E.
  rewrite Hrun, Hrun' in E. simpl in E. by rewrite Hrun', E.
Qed.

(** The call up to the estimator. *)
Lemma calculateBoundaryData_entry (input_mesh : PolygonMesh) (s : state) :
  calculateBoundaryData input_mesh s =
  bind (computePlaneCoefficients (cloud input_mesh))
    (λ fit,
       match fit with
       | None => exec ros_log WARN_could_not_compute_plane; ret false
       | Some hplane =>
           do me <- get_self;
           exec (if verbose_ me then ros_log (INFO_normal hplane) else ret tt);
           exec computeLocalPlaneFrame hplane (compute3DCentroid (cloud input_mesh));
           do built <- polygons_loop (polygons input_mesh) emptyMesh bimap.empty;
           match built with
           | None => ret false
           | Some (mesh, mesh_index_map) =>
               do me <- get_self;
               exec boundaries_loop (cloud input_mesh) hplane (inverse (plane_frame_ me))
                      mesh mesh_index_map (getBoundBoundaryHalfEdges mesh);
               ret true
           end
       end) (reset s).
Proof. reflexivity. Qed.

Lemma calculateBoundaryData_fit_failed (input_mesh : PolygonMesh) (s : state) :
  fit (cloud input_mesh) = Returned None →
  calculateBoundaryData input_mesh s =
    (Returned false,
     append_log (WARN_could_not_compute_plane :: fit_log (cloud input_mesh)) (reset s)).
Proof.
  intros Hfit. rewrite calculateBoundaryData_entry.
  rewrite (bind_run _ _ _ _ None
             (eq_trans (computePlaneCoefficients_run _ _) (f_equal (λ r, (r, _)) Hfit))).
  by rewrite bind_log.
Qed.

Lemma calculateBoundaryData_fit_thrown (input_mesh : PolygonMesh) (s : state) :
  fit (cloud input_mesh) = Thrown_out_of_range →
  calculateBoundaryData input_mesh s =
    (Thrown_out_of_range, append_log (fit_log (cloud input_mesh)) (reset s)).
Proof.
  intros Hfit. rewrite calculateBoundaryData_entry.
  apply bind_thrown. by rewrite computePlaneCoefficients_run, Hfit.
Qed.

Lemma calculateBoundaryData_fit_aborted (input_mesh : PolygonMesh) (s : state) :
  fit (cloud input_mesh) = Aborted →
  calculateBoundaryData input_mesh s =
    (Aborted, append_log (fit_log (cloud input_mesh)) (reset s)).
Proof.
  intros Hfit. rewrite calculateBoundaryData_entry.
  apply bind_aborted. by rewrite computePlaneCoefficients_run, Hfit.
Qed.

(** The call once the estimator has returned a plane. *)
Lemma calculateBoundaryData_fitted (input_mesh : PolygonMesh) (s : state) (h : Hyperplane) :
  fit (cloud input_mesh) = Returned (Some h) →
  calculateBoundaryData input_mesh s =
  bind (polygons_loop (polygons input_mesh) emptyMesh bimap.empty)
    (λ built,
       match built with
       | None => ret false
       | Some (mesh, mesh_index_map) =>
           do me <- get_self;
           exec boundaries_loop (cloud input_mesh) h (inverse (plane_frame_ me))
                  mesh mesh_index_map (getBoundBoundaryHalfEdges mesh);
           ret true
       end) (framed h (cloud input_mesh) s).
Proof.
  intros Hfit. rewrite calculateBoundaryData_entry.
  rewrite (bind_run _ _ _ _ (Some h)
             (eq_trans (computePlaneCoefficients_run _ _) (f_equal (λ r, (r, _)) Hfit))).
  unfold framed. destruct s as [[fr bs vb] out].
  destruct vb; reflexivity.
Qed.

(** ** The projector *)

Section Projector.

Variables (points : Cloud) (hplane : Hyperplane) (plane_inverse : Affine3d).
Variables (mesh : TriangleMesh) (mesh_index_map : bimap.t).

Local Abbreviation point_of := (plane_point points hplane plane_inverse mesh mesh_index_map).
Local Abbreviation small := (λ p : Vector3d, (Rabs (vz p) < 1 / 1000)%R).
Local Abbreviation large := (λ p : Vector3d, (1 / 1000 <= Rabs (vz p))%R).

(** One half-edge: the two lookups and the projection. *)
Lemma edge_step (edge : nat) (p : Vector3d) (rest : list nat)
    (pbound : PolygonBoundary) (s : state) :
  point_of edge = Some p →
  edges_loop points hplane plane_inverse mesh mesh_index_map (edge :: rest) pbound s =
  bind (ROS_ASSERT (Rltb (Rabs (vz p)) (1 / 1000)))
    (λ _, edges_loop points hplane plane_inverse mesh mesh_index_map rest
            (pbound ++ [xy p])) s.
Proof.
  unfold plane_point. intros Hp. cbn [edges_loop]. unfold right_at.
  destruct (bimap.right mesh_index_map !! getOriginatingVertexIndex mesh edge)
    as [idx |]; [| done].
  rewrite bind_ret.
  destruct (pcl.points points !! N.to_nat idx) as [cloudpt |] eqn:Hc; [| done].
  rewrite (vector_at_Some _ _ cloudpt) by done. rewrite bind_ret.
  by injection Hp as <-.
Qed.

Lemma edges_loop_pass (boundary : list nat) :
  ∀ (pts : list Vector3d) (pbound : PolygonBoundary) (s : state),
    Forall2 (λ e p, point_of e = Some p) boundary pts →
    (ROS_ASSERT_ENABLED = true → Forall small pts) →
    edges_loop points hplane plane_inverse mesh mesh_index_map boundary pbound s =
      (Returned (pbound ++ map xy pts), s).
Proof.
  induction boundary as [| edge rest IH]; intros pts pbound s Hpts Hsmall.
  - apply Forall2_nil_inv_l in Hpts as ->. simpl. by rewrite app_nil_r.
  - apply Forall2_cons_inv_l in Hpts as (p & pts' & Hp & Hrest & ->).
    rewrite (edge_step edge p) by done.
    rewrite ROS_ASSERT_pass.
    2:{ intros He. apply Rltb_true. by apply Forall_cons_1 in Hsmall as [? _]. }
    rewrite bind_ret. rewrite (IH pts') ; [| done |].
    + simpl. by rewrite <- app_assoc.
    + intros He. by apply Forall_cons_1 in Hsmall as [_ ?].
Qed.

Lemma edges_loop_stop (boundary : list nat) :
  ∀ (pts : list Vector3d) (pbound : PolygonBoundary) (s : state),
    ROS_ASSERT_ENABLED = true →
    Forall2 (λ e p, point_of e = Some p) boundary pts →
    Exists large pts →
    edges_loop points hplane plane_inverse mesh mesh_index_map boundary pbound s =
      (Aborted, append_log [FATAL_assertion_failed] s).
Proof.
  induction boundary as [| edge rest IH]; intros pts pbound s He Hpts Hlarge.
  - apply Forall2_nil_inv_l in Hpts as ->. by apply Exists_nil in Hlarge.
  - apply Forall2_cons_inv_l in Hpts as (p & pts' & Hp & Hrest & ->).
    rewrite (edge_step edge p) by done.
    destruct (Rlt_dec (Rabs (vz p)) (1 / 1000)) as [Hlt | Hge].
    + rewrite ROS_ASSERT_pass by (intros _; by apply Rltb_true).
      rewrite bind_ret. apply (IH pts'); [done | done |].
      apply Exists_cons in Hlarge as [Hl | Hl]; [simpl in Hl; lra | done].
    + apply bind_aborted. apply ROS_ASSERT_fail; [done |].
      apply Rltb_false. lra.
Qed.

Lemma boundaries_loop_pass (loops : list (list nat)) :
  ∀ (ptss : list (list Vector3d)) (s : state),
    Forall2 (Forall2 (λ e p, point_of e = Some p)) loops ptss →
    (ROS_ASSERT_ENABLED = true → Forall (Forall small) ptss) →
    boundaries_loop points hplane plane_inverse mesh mesh_index_map loops s =
      (Returned tt, push_boundaries (map (map xy) ptss) s).
Proof.
  induction loops as [| boundary rest IH]; intros ptss s Hpts Hsmall.
  - apply Forall2_nil_inv_l in Hpts as ->. simpl.
    unfold push_boundaries. simpl. rewrite app_nil_r. by destruct s as [[? ? ?] ?].
  - apply Forall2_cons_inv_l in Hpts as (pts & ptss' & Hp & Hrest & ->).
    cbn [boundaries_loop].
    rewrite (bind_run _ _ s s (map xy pts)).
    2:{ rewrite (edges_loop_pass boundary pts); [done | done |].
        intros He. by apply Forall_cons_1 in Hsmall as [? _]. }
    unfold bind at 1, modify_self at 1.
    rewrite (IH ptss'); [| done |].
    + unfold push_boundaries. simpl. by rewrite <- app_assoc.
    + intros He. by apply Forall_cons_1 in Hsmall as [_ ?].
Qed.

Lemma boundaries_loop_stop (loops : list (list nat)) :
  ∀ (ptss : list (list Vector3d)) (s : state),
    ROS_ASSERT_ENABLED = true →
    Forall2 (Forall2 (λ e p, point_of e = Some p)) loops ptss →
    Exists (Exists large) ptss →
    ∃ s', boundaries_loop points hplane plane_inverse mesh mesh_index_map loops s =
            (Aborted, s') ∧
          plane_frame_ (self s') = plane_frame_ (self s) ∧
          rosout s' = FATAL_assertion_failed :: rosout s.
Proof.
  induction loops as [| boundary rest IH]; intros ptss s He Hpts Hlarge.
  - apply Forall2_nil_inv_l in Hpts as ->. by apply Exists_nil in Hlarge.
  - apply Forall2_cons_inv_l in Hpts as (pts & ptss' & Hp & Hrest & ->).
    cbn [boundaries_loop].
    destruct (List.Exists_dec large pts) as [Hbig | Hnone].
    { intros p. destruct (Rle_dec (1 / 1000) (Rabs (vz p))); [by left | by right]. }
    + eexists. split; [| split].
      * apply bind_aborted. by apply (edges_loop_stop boundary pts).
      * done.
      * done.
    + assert (Hsm : Forall small pts).
      { apply Forall_forall. intros p Hin.
        destruct (Rlt_dec (Rabs (vz p)) (1 / 1000)) as [? | Hge]; [done |].
        exfalso. apply Hnone. apply Exists_exists. exists p. split; [done | lra]. }
      rewrite (bind_run _ _ s s (map xy pts))
        by (by rewrite (edges_loop_pass boundary pts)).
      unfold bind at 1, modify_self at 1.
      apply Exists_cons in Hlarge as [Hl | Hl]; [done |].
      match goal with
      | |- ∃ s', boundaries_loop _ _ _ _ _ _ ?s1 = _ ∧ _ =>
          destruct (IH ptss' s1 He Hrest Hl) as (s' & Hrun & Hfr & Hout)
      end.
      exists s'. by rewrite Hrun.
Qed.

End Projector.

Lemma logs_only_edges_loop points hplane plane_inverse mesh m (boundary : list nat) :
  ∀ pbound, logs_only (edges_loop points hplane plane_inverse mesh m boundary pbound).
Proof.
  induction boundary as [| edge rest IH]; intros pbound; simpl.
  - apply logs_only_ret.
  - apply logs_only_bind.
    { unfold right_at. destruct (bimap.right m !! _);
        [apply logs_only_ret | apply logs_only_throw]. }
    intros idx. apply logs_only_bind; [apply logs_only_vector_at |].
    intros cloudpt. apply logs_only_bind; [apply logs_only_assert |].
    intros _. apply IH.
Qed.

(** The loop over the boundaries only ever appends to [boundaries_]: the
    frame and the verbosity stay as they were, whatever the outcome. *)
Lemma boundaries_loop_keeps_frame points hplane plane_inverse mesh m
    (loops : list (list nat)) :
  ∀ s, plane_frame_ (self (snd (boundaries_loop points hplane plane_inverse mesh m loops s)))
       = plane_frame_ (self s).
Proof.
  induction loops as [| boundary rest IH]; intros s; [done |].
  cbn [boundaries_loop].
  destruct (logs_only_edges_loop points hplane plane_inverse mesh m boundary [])
    as (r & msgs & Hrun).
  destruct r as [pbound | |].
  - rewrite (bind_run _ _ s _ pbound (Hrun s)).
    unfold bind at 1, modify_self at 1. by rewrite IH.
  - by rewrite (bind_thrown _ _ s _ (Hrun s)).
  - by rewrite (bind_aborted _ _ s _ (Hrun s)).
Qed.

(** A list of polygons is all triangles, or has a first one that is not. *)
Lemma first_non_triangle (polygons : list (list N)) :
  Forall (λ f, length f = 3) polygons ∨
  ∃ pre bad post, polygons = pre ++ bad :: post ∧
                  Forall (λ f, length f = 3) pre ∧ length bad ≠ 3.
Proof.
  induction polygons as [| f rest IH]; [left; constructor |].
  destruct (decide (length f = 3)) as [Hf | Hf].
  - destruct IH as [Hall | (pre & bad & post & -> & Hpre & Hbad)].
    + left. by constructor.
    + right. exists (f :: pre), bad, post. repeat split; [by constructor | done].
  - right. exists [], f, rest. repeat split; [constructor | done].
Qed.

(** The four ways the call can end once the estimator returned [h]. *)
Lemma calculateBoundaryData_fitted_cases (input_mesh : PolygonMesh) (s : state)
    (h : Hyperplane) :
  fit (cloud input_mesh) = Returned (Some h) →
  let s2 := framed h (cloud input_mesh) s in
  (∃ pre bad post,
      polygons input_mesh = pre ++ bad :: post ∧
      Forall (λ f, length f = 3) pre ∧ length bad ≠ 3 ∧
      calculateBoundaryData input_mesh s =
        (Returned false, append_log [ERROR_polygon_sides (length bad)] s2)) ∨
  (∃ mesh m,
      Forall (λ f, length f = 3) (polygons input_mesh) ∧
      build (polygons input_mesh) = Returned (Some (mesh, m)) ∧
      let run := boundaries_loop (cloud input_mesh) h (inverse (plane_frame_ (self s2)))
                   mesh m (getBoundBoundaryHalfEdges mesh) s2 in
      calculateBoundaryData input_mesh s =
        (match fst run with
         | Returned _ => Returned true
         | Thrown_out_of_range => Thrown_out_of_range
         | Aborted => Aborted
         end, snd run)).
Proof.
  intros Hfit s2. rewrite (calculateBoundaryData_fitted _ _ h Hfit). fold s2.
  destruct (first_non_triangle (polygons input_mesh))
    as [Htri | (pre & bad & post & Hpoly & Hpre & Hbad)].
  - right. destruct (build_triangles _ Htri) as (mesh & m & Hb & Hrun).
    exists mesh, m. split; [done |]. split; [done |]. cbv zeta.
    rewrite (bind_run _ _ s2 s2 (Some (mesh, m)) (Hrun s2)).
    unfold bind at 1, get_self at 1.
    unfold bind.
    destruct (boundaries_loop _ _ _ _ _ _ s2) as [[[] | |] s3]; reflexivity.
  - left. exists pre, bad, post. split; [done |]. split; [done |]. split; [done |].
    rewrite Hpoly.
    rewrite (bind_run _ _ s2 _ None (polygons_loop_bad pre bad post Hpre Hbad _ _ [] s2 linked_empty)).
    reflexivity.
Qed.

(** ** Properties of the call *)

(** C10 (as the code has it). A call that returns [false] leaves the
    boundary list empty, but not always the frame it reset on entry: when
    the estimator fails the frame is the identity, whereas a call given up
    at a polygon that is no triangle leaves the frame just computed from
    the fitted plane and the centroid, whatever the frame was before the
    call. *)
Theorem failure_keeps_new_frame (input_mesh : PolygonMesh) (s s' : state) :
  calculateBoundaryData input_mesh s = (Returned false, s') →
  boundaries_ (self s') = [] ∧
  ((fit (cloud input_mesh) = Returned None ∧ plane_frame_ (self s') = Identity) ∨
   (∃ h, fit (cloud input_mesh) = Returned (Some h) ∧
         Exists (λ f, length f ≠ 3) (polygons input_mesh) ∧
         plane_frame_ (self s') =
           localPlaneFrame h (compute3DCentroid (cloud input_mesh)) Identity)).
Proof.
  intros Hcall.
  destruct (fit (cloud input_mesh)) as [[h |] | |] eqn:Hfit.
  - destruct (calculateBoundaryData_fitted_cases input_mesh s h Hfit)
      as [(pre & bad & post & Hpoly & Hpre & Hbad & Hrun)
         | (mesh & m & Htri & Hb & Hrun)].
    + rewrite Hrun in Hcall. injection Hcall as <-.
      split; [done |]. right. exists h. split; [done |]. split; [| done].
      rewrite Hpoly. apply Exists_app. right. by apply Exists_cons_hd.
    + cbv zeta in Hrun. rewrite Hrun in Hcall.
      destruct (fst (boundaries_loop _ _ _ _ _ _ _)); discriminate Hcall.
  - rewrite (calculateBoundaryData_fit_failed _ _ Hfit) in Hcall.
    injection Hcall as <-. split; [done |]. left. by split.
  - rewrite (calculateBoundaryData_fit_thrown _ _ Hfit) in Hcall. discriminate.
  - rewrite (calculateBoundaryData_fit_aborted _ _ Hfit) in Hcall. discriminate.
Qed.

(** The call at the first polygon that is no triangle, the estimator
    having returned [h]. *)
Lemma calculateBoundaryData_bad_face (input_mesh : PolygonMesh) (s : state)
    (pre : list (list N)) (bad : list N) (post : list (list N)) (h : Hyperplane) :
  polygons input_mesh = pre ++ bad :: post →
  Forall (λ f, length f = 3) pre →
  length bad ≠ 3 →
  fit (cloud input_mesh) = Returned (Some h) →
  calculateBoundaryData input_mesh s =
    (Returned false,
     append_log [ERROR_polygon_sides (length bad)] (framed h (cloud input_mesh) s)).
Proof.
  intros Hpoly Hpre Hbad Hfit.
  rewrite (calculateBoundaryData_fitted _ _ h Hfit), Hpoly.
  by rewrite (bind_run _ _ _ _ None
                (polygons_loop_bad pre bad post Hpre Hbad _ _ [] _ linked_empty)).
Qed.

(** C6 (as the code has it). With a polygon that is no triangle the call
    never returns [true] and its boundary list is empty whichever way it
    ends; once the estimator has returned a plane, the call returns
    [false] at the first such polygon, reporting its number of sides,
    without looking at the polygons after it. *)
Theorem non_triangular_face_aborts (input_mesh : PolygonMesh) (s : state)
    (pre : list (list N)) (bad : list N) (post : list (list N)) :
  polygons input_mesh = pre ++ bad :: post →
  Forall (λ f, length f = 3) pre →
  length bad ≠ 3 →
  fst (calculateBoundaryData input_mesh s) ≠ Returned true ∧
  boundaries_ (self (snd (calculateBoundaryData input_mesh s))) = [] ∧
  ∀ h, fit (cloud input_mesh) = Returned (Some h) →
       fst (calculateBoundaryData input_mesh s) = Returned false ∧
       rosout (snd (calculateBoundaryData input_mesh s)) =
         ERROR_polygon_sides (length bad) :: rosout (framed h (cloud input_mesh) s).
Proof.
  intros Hpoly Hpre Hbad.
  destruct (fit (cloud input_mesh)) as [[h |] | |] eqn:Hfit.
  - rewrite (calculateBoundaryData_bad_face _ s pre bad post h Hpoly Hpre Hbad Hfit).
    split; [done |]. split; [done |].
    intros h' [= <-]. by split.
  - rewrite (calculateBoundaryData_fit_failed _ _ Hfit). by repeat split.
  - rewrite (calculateBoundaryData_fit_thrown _ _ Hfit). by repeat split.
  - rewrite (calculateBoundaryData_fit_aborted _ _ Hfit). by repeat split.
Qed.

Lemma projection_orthogonal (h : Hyperplane) (p : Vector3d) :
  squaredNorm (normal h) = 1%R → orthogonal_projection h p (projection h p).
Proof.
  intros Hunit. split.
  - destruct h as [[nx ny nz] d], p as [px py pz]. vunfold.
    replace (nx * (px - (nx * px + ny * py + nz * pz + d) * nx) +
             ny * (py - (nx * px + ny * py + nz * pz + d) * ny) +
             nz * (pz - (nx * px + ny * py + nz * pz + d) * nz) + d)%R
      with ((nx * px + ny * py + nz * pz + d) * (1 - (nx * nx + ny * ny + nz * nz)))%R
      by ring.
    rewrite Hunit. ring.
  - exists (signedDistance h p).
    destruct h as [[nx ny nz] d], p as [px py pz]. vcalc.
Qed.

Lemma localPlaneFrame_translation (h : Hyperplane) (c : Vector3d) (fr : Affine3d) :
  translation (localPlaneFrame h c fr) = projection h c.
Proof. reflexivity. Qed.

Lemma localPlaneFrame_col2 (h : Hyperplane) (c : Vector3d) (fr : Affine3d) :
  col2 (localPlaneFrame h c fr) = normalized (normal h).
Proof. unfold localPlaneFrame. by destruct (Rltb _ _). Qed.

(** X16. After a call that returned [true] the frame of the importer has
    for translation the foot of the perpendicular from the centroid of the
    cloud to the plane the estimator returned, and for third column the
    unit normal of that plane. *)
Theorem plane_frame_invariant (input_mesh : PolygonMesh) (s s' : state) (h : Hyperplane) :
  calculateBoundaryData input_mesh s = (Returned true, s') →
  fit (cloud input_mesh) = Returned (Some h) →
  squaredNorm (normal h) = 1%R →
  orthogonal_projection h (compute3DCentroid (cloud input_mesh))
    (translation (plane_frame_ (self s'))) ∧
  col2 (plane_frame_ (self s')) = normal h.
Proof.
  intros Hcall Hfit Hunit.
  assert (Hframe : plane_frame_ (self s') =
            localPlaneFrame h (compute3DCentroid (cloud input_mesh)) Identity).
  { destruct (calculateBoundaryData_fitted_cases input_mesh s h Hfit)
      as [(pre & bad & post & _ & _ & _ & Hrun) | (mesh & m & _ & _ & Hrun)].
    - rewrite Hrun in Hcall. discriminate.
    - cbv zeta in Hrun. rewrite Hrun in Hcall.
      injection Hcall as _ <-. by rewrite boundaries_loop_keeps_frame. }
  rewrite Hframe, localPlaneFrame_translation, localPlaneFrame_col2.
  split; [by apply projection_orthogonal | by apply normalized_unit].
Qed.

Local Open Scope R_scope.

(** C4 (as the code has it). On a cloud that is not empty (and whose
    declared size is its number of points), given that the fit handed back
    the four plane coefficients the source asserts, the estimator returns
    [false] with the less-than-90% warning exactly when the number of
    inliers over the number of points is below 0.9; the whole call then
    returns [false] as well, with an identity frame and no boundary. *)
Theorem plane_fit_inlier_fraction (cloud : Cloud) (s : state) :
  points cloud ≠ [] →
  (height cloud * width cloud)%N = N.of_nat (length (points cloud)) →
  (N.of_nat (length (points cloud)) < 2 ^ 32)%N →
  (ROS_ASSERT_ENABLED = true → length (values (segment cloud)) = 4%nat) →
  let fraction := INR (length (indices (segment cloud))) / INR (length (points cloud)) in
  (computePlaneCoefficients cloud s =
     (Returned None, append_log [WARN_less_than_90_percent] s)
   ↔ fraction < 9 / 10) ∧
  (fraction < 9 / 10 →
   ∀ polygons,
     calculateBoundaryData (mkPolygonMesh cloud polygons) s =
       (Returned false,
        append_log [WARN_could_not_compute_plane; WARN_less_than_90_percent] (reset s))).
Proof.
  intros Hp Hdim Hlt Hlen fraction.
  assert (Hsize : cloud_size cloud = N.of_nat (length (points cloud)))
    by (by apply cloud_size_points).
  assert (Hne : length (points cloud) ≠ 0%nat)
    by (by destruct (points cloud)).
  assert (Hbelow : fraction < 9 / 10 →
            ∀ s0, computePlaneCoefficients cloud s0 =
                    (Returned None, append_log [WARN_less_than_90_percent] s0)).
  { intros Hfr s0. apply computePlaneCoefficients_below; [done | done |].
    rewrite Hsize. by apply fraction_below_90_iff. }
  split; [split |].
  - intros Hrun.
    destruct (fraction_below_90 (length (indices (segment cloud))) (cloud_size cloud))
      eqn:Hfrac.
    { rewrite Hsize in Hfrac. by apply fraction_below_90_iff in Hfrac. }
    exfalso. revert Hrun. unfold computePlaneCoefficients.
    destruct (points cloud) as [| p0 rest]; [done |].
    rewrite (vector_at_Some _ 0%nat p0) by done. rewrite bind_ret.
    destruct ROS_ASSERT_ENABLED eqn:He.
    + specialize (Hlen eq_refl).
      destruct (values (segment cloud)) as [| c0 [| c1 [| c2 [| c3 [| ? ?]]]]];
        try discriminate Hlen.
      unfold ROS_ASSERT. rewrite He. rewrite bool_decide_eq_true_2 by done.
      rewrite bind_ret, Hfrac.
      rewrite (vector_at_Some _ 0%nat c0) by done. rewrite bind_ret.
      rewrite (vector_at_Some _ 1%nat c1) by done. rewrite bind_ret.
      rewrite (vector_at_Some _ 2%nat c2) by done. rewrite bind_ret.
      rewrite (vector_at_Some _ 3%nat c3) by done.
      destruct (Rltb (dot _ _) 0).
      * rewrite (bind_run _ _ s (append_log [WARN_flipping_normal] s)
                   (vscale (-1) (V3 c0 c1 c2))) by (by rewrite bind_log).
        destruct (Rltb _ _); [rewrite bind_log | rewrite bind_ret]; intros [=].
      * rewrite bind_ret.
        destruct (Rltb _ _); [rewrite bind_log | rewrite bind_ret]; intros [=].
    + unfold ROS_ASSERT. rewrite He. rewrite bind_ret, Hfrac.
      unfold vector_at.
      destruct (values (segment cloud)) as [| c0 [| c1 [| c2 cs]]]; simpl;
        try (rewrite ?bind_ret, bind_throw; intros [=]).
      rewrite !bind_ret.
      destruct (Rltb (dot _ _) 0).
      * rewrite (bind_run _ _ s (append_log [WARN_flipping_normal] s)
                   (vscale (-1) (V3 c0 c1 c2))) by (by rewrite bind_log).
        destruct (Rltb _ _); [rewrite bind_log; intros [=] |].
        destruct (cs !! 0%nat); [rewrite bind_ret | rewrite bind_throw]; intros [=].
      * rewrite bind_ret.
        destruct (Rltb _ _); [rewrite bind_log; intros [=] |].
        destruct (cs !! 0%nat); [rewrite bind_ret | rewrite bind_throw]; intros [=].
  - intros Hfr. by apply Hbelow.
  - intros Hfr polygons.
    assert (Hfit : fit cloud = Returned None) by (unfold fit; by rewrite Hbelow).
    assert (Hlog : fit_log cloud = [WARN_less_than_90_percent])
      by (unfold fit_log; by rewrite Hbelow).
    rewrite calculateBoundaryData_fit_failed by done.
    simpl. by rewrite Hlog.
Qed.

Lemma cos_EpsAngle_pos : 0 < cos EpsAngle.
Proof.
  unfold EpsAngle. apply cos_gt_0.
  - pose proof PI2_1. lra.
  - pose proof PI2_1. lra.
Qed.

Lemma dot_vscale_l (k : R) (a b : Vector3d) : dot (vscale k a) b = k * dot a b.
Proof. destruct a, b. vunfold. ring. Qed.

(** C5. Past the inlier test, with [fitted] the normal of the fit and
    [seed] the normal of the first point: the normal is negated (and the
    flip reported) exactly when [fitted . seed < 0], so that the corrected
    normal has [|fitted . seed|] for dot product with the seed; the
    estimator returns [false] with the out-of-tolerance warning exactly
    when that dot product is below [cos 0.5]; otherwise it returns the
    plane of the corrected normal and the fitted offset, and the dot
    product of its normal with the seed is not negative. *)
Theorem normal_orientation (cloud : Cloud) (s : state)
    (p0 : PointType) (rest : list PointType) (c0 c1 c2 c3 : R) :
  points cloud = p0 :: rest →
  values (segment cloud) = [c0; c1; c2; c3] →
  fraction_below_90 (length (indices (segment cloud))) (cloud_size cloud) = false →
  let seed := point_normal p0 in
  let fitted := V3 c0 c1 c2 in
  ∃ (flipped : bool) (corrected : Vector3d),
    (flipped = true ↔ dot fitted seed < 0) ∧
    corrected = (if flipped then vscale (-1) fitted else fitted) ∧
    dot corrected seed = Rabs (dot fitted seed) ∧
    let flip_log := if flipped then [WARN_flipping_normal] else [] in
    (dot corrected seed < cos EpsAngle →
     computePlaneCoefficients cloud s =
       (Returned None,
        append_log (WARN_normal_out_of_tolerance (dot corrected seed) (cos EpsAngle)
                      :: flip_log) s)) ∧
    (¬ dot corrected seed < cos EpsAngle →
     computePlaneCoefficients cloud s =
       (Returned (Some (mkHyperplane corrected c3)), append_log flip_log s) ∧
     0 <= dot corrected seed).
Proof.
  intros Hp Hv Hfrac seed fitted.
  pose proof (computePlaneCoefficients_fit cloud s p0 rest c0 c1 c2 c3 Hp Hv Hfrac) as Hrun.
  cbv zeta in Hrun. fold seed fitted in Hrun.
  exists (Rltb (dot fitted seed) 0),
         (if Rltb (dot fitted seed) 0 then vscale (-1) fitted else fitted).
  split; [apply Rltb_iff |]. split; [reflexivity |].
  split.
  { destruct (Rltb (dot fitted seed) 0) eqn:Hflip.
    - apply Rltb_iff in Hflip. rewrite dot_vscale_l, Rabs_left by done. ring.
    - apply Rltb_false_iff in Hflip. by rewrite Rabs_pos_eq. }
  cbv zeta. split.
  - intros Htol. rewrite Hrun. by rewrite Rltb_true.
  - intros Htol. rewrite Hrun. rewrite Rltb_false by lra.
    split; [done |]. pose proof cos_EpsAngle_pos. lra.
Qed.

Local Close Scope R_scope.

Lemma build_Some_triangles (polygons : list (list N)) mesh m :
  build polygons = Returned (Some (mesh, m)) → Forall (λ f, length f = 3) polygons.
Proof.
  intros Hb. destruct (first_non_triangle polygons)
    as [Htri | (pre & bad & post & -> & Hpre & Hbad)]; [done |].
  unfold build in Hb.
  by rewrite (polygons_loop_bad pre bad post Hpre Hbad _ _ [] state0 linked_empty) in Hb.
Qed.

Lemma calculateBoundaryData_built (input_mesh : PolygonMesh) (s : state)
    (h : Hyperplane) mesh m :
  fit (cloud input_mesh) = Returned (Some h) →
  build (polygons input_mesh) = Returned (Some (mesh, m)) →
  let s2 := framed h (cloud input_mesh) s in
  let run := boundaries_loop (cloud input_mesh) h (inverse (plane_frame_ (self s2)))
               mesh m (getBoundBoundaryHalfEdges mesh) s2 in
  calculateBoundaryData input_mesh s =
    (match fst run with
     | Returned _ => Returned true
     | Thrown_out_of_range => Thrown_out_of_range
     | Aborted => Aborted
     end, snd run).
Proof.
  intros Hfit Hb s2 run.
  destruct (calculateBoundaryData_fitted_cases input_mesh s h Hfit)
    as [(pre & bad & post & Hpoly & Hpre & Hbad & _) | (mesh' & m' & _ & Hb' & Hrun)].
  - apply build_Some_triangles in Hb. rewrite Hpoly in Hb.
    apply Forall_app in Hb as [_ Hb]. apply Forall_cons_1 in Hb as [Hb _]. done.
  - rewrite Hb in Hb'. injection Hb' as <- <-. exact Hrun.
Qed.

(** C3 (as the code has it). With an empty cloud the call does not
    return: reading the first point throws, the frame is the identity and
    the boundary list is empty.  With no polygon the call has no failure
    of its own: it returns [false] exactly when the estimator does, and it
    returns [true] with an empty boundary list when the estimator returns
    a plane and the extractor finds no loop in the mesh without faces. *)
Theorem empty_input_outcomes (input_mesh : PolygonMesh) (s : state) :
  (points (cloud input_mesh) = [] →
   calculateBoundaryData input_mesh s = (Thrown_out_of_range, reset s)) ∧
  (polygons input_mesh = [] →
   (fst (calculateBoundaryData input_mesh s) = Returned false
      ↔ fit (cloud input_mesh) = Returned None) ∧
   (∀ h, fit (cloud input_mesh) = Returned (Some h) →
         getBoundBoundaryHalfEdges emptyMesh = [] →
         calculateBoundaryData input_mesh s =
           (Returned true, framed h (cloud input_mesh) s) ∧
         boundaries_ (self (framed h (cloud input_mesh) s)) = [])).
Proof.
  split.
  - intros Hp.
    pose proof (computePlaneCoefficients_empty (cloud input_mesh) state0 Hp) as Hrun.
    assert (Hfit : fit (cloud input_mesh) = Thrown_out_of_range)
      by (unfold fit; by rewrite Hrun).
    assert (Hlog : fit_log (cloud input_mesh) = [])
      by (unfold fit_log; by rewrite Hrun).
    rewrite (calculateBoundaryData_fit_thrown _ _ Hfit), Hlog.
    by rewrite append_log_nil.
  - intros Hpoly.
    assert (Hb : build (polygons input_mesh) = Returned (Some (emptyMesh, bimap.empty)))
      by (by rewrite Hpoly).
    split; [split |].
    + intros Hfalse.
      destruct (fit (cloud input_mesh)) as [[h |] | |] eqn:Hfit; [| done | |].
      * rewrite (calculateBoundaryData_built _ _ h _ _ Hfit Hb) in Hfalse.
        simpl in Hfalse. by destruct (fst (boundaries_loop _ _ _ _ _ _ _)).
      * by rewrite (calculateBoundaryData_fit_thrown _ _ Hfit) in Hfalse.
      * by rewrite (calculateBoundaryData_fit_aborted _ _ Hfit) in Hfalse.
    + intros Hfit. by rewrite (calculateBoundaryData_fit_failed _ _ Hfit).
    + intros h Hfit Hnone.
      rewrite (calculateBoundaryData_built _ _ h _ _ Hfit Hb).
      rewrite Hnone. by split.
Qed.

(** C2 (as the code has it). Once the call has reached the projector, a
    boundary vertex whose local Z is 0.001 or more in absolute value is
    met by an assertion, not by an error: with assertions compiled in, the
    call is stopped there after a fatal message and returns nothing; with
    assertions compiled out, the vertex is kept like any other and the
    call returns [true] with every loop in the boundary list. *)
Theorem residual_is_asserted (input_mesh : PolygonMesh) (s : state) (h : Hyperplane)
    mesh m (ptss : list (list Vector3d)) :
  fit (cloud input_mesh) = Returned (Some h) →
  build (polygons input_mesh) = Returned (Some (mesh, m)) →
  let frame := localPlaneFrame h (compute3DCentroid (cloud input_mesh)) Identity in
  Forall2 (Forall2 (λ e p, plane_point (cloud input_mesh) h (inverse frame) mesh m e = Some p))
          (getBoundBoundaryHalfEdges mesh) ptss →
  Exists (Exists (λ p, (1 / 1000 <= Rabs (vz p))%R)) ptss →
  if ROS_ASSERT_ENABLED then
    fst (calculateBoundaryData input_mesh s) = Aborted ∧
    rosout (snd (calculateBoundaryData input_mesh s)) =
      FATAL_assertion_failed :: rosout (framed h (cloud input_mesh) s)
  else
    calculateBoundaryData input_mesh s =
      (Returned true,
       push_boundaries (map (map xy) ptss) (framed h (cloud input_mesh) s)).
Proof.
  intros Hfit Hb frame Hpts Hlarge.
  rewrite (calculateBoundaryData_built _ _ h _ _ Hfit Hb). cbv zeta.
  change (plane_frame_ (self (framed h (cloud input_mesh) s))) with frame.
  destruct ROS_ASSERT_ENABLED eqn:He.
  - destruct (boundaries_loop_stop (cloud input_mesh) h (inverse frame) mesh m
                _ ptss (framed h (cloud input_mesh) s) He Hpts Hlarge)
      as (s' & Hrun & _ & Hout).
    rewrite Hrun. by split.
  - rewrite (boundaries_loop_pass (cloud input_mesh) h (inverse frame) mesh m _ ptss);
      [done | done | intros Hc; congruence].
Qed.

(** ** Back through the frame *)

Local Open Scope R_scope.

Lemma inverse_round_trip (frame : Affine3d) (q : Vector3d) :
  determinant frame ≠ 0 → transform frame (transform (inverse frame) q) = q.
Proof.
  destruct frame as [[a0 a1 a2] [b0 b1 b2] [c0 c1 c2] [t0 t1 t2]], q as [q0 q1 q2].
  intros Hdet. vunfold. apply f_equal3; field; exact Hdet.
Qed.

Lemma transform_drop_z (frame : Affine3d) (p : Vector3d) :
  transform frame (V3 (vx p) (vy p) 0) =
  vsub (transform frame p) (vscale (vz p) (col2 frame)).
Proof.
  destruct frame as [[a0 a1 a2] [b0 b1 b2] [c0 c1 c2] [t0 t1 t2]], p as [p0 p1 p2].
  vcalc.
Qed.

(** Taking the local X and Y of a point of space and going back through
    an invertible frame with a unit third column misses the point by the
    local Z that was dropped. *)
Lemma round_trip_distance (frame : Affine3d) (q : Vector3d) :
  determinant frame ≠ 0 → squaredNorm (col2 frame) = 1 →
  let p := transform (inverse frame) q in
  distance (transform frame (V3 (vx p) (vy p) 0)) q = Rabs (vz p).
Proof.
  intros Hdet Hunit p.
  rewrite transform_drop_z. unfold p at 1. rewrite inverse_round_trip by done.
  generalize (vz p). intros k. clear p.
  destruct frame as [a b [c0 c1 c2] t], q as [q0 q1 q2].
  unfold squaredNorm, dot in Hunit. cbn [col2 vx vy vz] in Hunit.
  unfold distance, norm, squaredNorm, dot, vsub, vscale. cbn [col2 vx vy vz].
  replace ((q0 - k * c0 - q0) * (q0 - k * c0 - q0) +
           (q1 - k * c1 - q1) * (q1 - k * c1 - q1) +
           (q2 - k * c2 - q2) * (q2 - k * c2 - q2))
    with (Rsqr k * (c0 * c0 + c1 * c1 + c2 * c2)) by (unfold Rsqr; ring).
  rewrite Hunit, Rmult_1_r. apply sqrt_Rsqr_abs.
Qed.

Lemma round_trip_within_residual (frame : Affine3d) (q : Vector3d) :
  determinant frame ≠ 0 → squaredNorm (col2 frame) = 1 →
  let p := transform (inverse frame) q in
  Rabs (vz p) < 1 / 1000 →
  distance (transform frame (V3 (vx p) (vy p) 0)) q < 1 / 1000.
Proof. intros Hdet Hunit p Hres. unfold p. by rewrite round_trip_distance. Qed.

(** The point that [computeLocalPlaneFrame] normalises into the local X
    axis, the projection of origin + X, is a point of the plane, not a
    direction in it: its dot product with a unit normal is minus the
    offset of the plane. *)
Lemma x_axis_point_dot_normal (h : Hyperplane) (c : Vector3d) :
  squaredNorm (normal h) = 1 →
  dot (projection h (vadd (projection h c) UnitX)) (normal h) = - offset h.
Proof.
  intros Hunit.
  assert (Hgen : ∀ o, dot (projection h (vadd o UnitX)) (normal h) =
                      (dot (normal h) o + vx (normal h)) * (1 - squaredNorm (normal h))
                      - offset h * squaredNorm (normal h)).
  { intros [o0 o1 o2]. destruct h as [[nx ny nz] d]. vunfold. ring. }
  rewrite Hgen, Hunit. ring.
Qed.

Local Close Scope R_scope.

(** ** More on the estimator *)

Local Open Scope R_scope.

(** The estimator past the inlier test when the fit hands back at least
    four coefficients (more than four can only get past a compiled-out
    assertion). *)
Lemma computePlaneCoefficients_past_test (cloud : Cloud) (s : state)
    (p0 : PointType) (rest : list PointType) (c0 c1 c2 c3 : R) (cs : list R) :
  points cloud = p0 :: rest →
  values (segment cloud) = c0 :: c1 :: c2 :: c3 :: cs →
  (ROS_ASSERT_ENABLED = true → cs = []) →
  fraction_below_90 (length (indices (segment cloud))) (cloud_size cloud) = false →
  let seed := point_normal p0 in
  let fitted := V3 c0 c1 c2 in
  let flipped := Rltb (dot fitted seed) 0 in
  let corrected := if flipped then vscale (-1) fitted else fitted in
  let flip_log := if flipped then [WARN_flipping_normal] else [] in
  computePlaneCoefficients cloud s =
    if Rltb (dot corrected seed) (cos EpsAngle) then
      (Returned None,
       append_log (WARN_normal_out_of_tolerance (dot corrected seed) (cos EpsAngle)
                     :: flip_log) s)
    else
      (Returned (Some (mkHyperplane corrected c3)), append_log flip_log s).
Proof.
  intros Hp Hv Hcs Hfrac seed fitted flipped corrected flip_log.
  unfold computePlaneCoefficients. rewrite Hp, Hv.
  rewrite (vector_at_Some _ 0%nat p0) by done. rewrite bind_ret.
  rewrite ROS_ASSERT_pass.
  2:{ intros He. rewrite (Hcs He). by apply bool_decide_eq_true_2. }
  rewrite bind_ret, Hfrac.
  rewrite (vector_at_Some _ 0%nat c0) by done. rewrite bind_ret.
  rewrite (vector_at_Some _ 1%nat c1) by done. rewrite bind_ret.
  rewrite (vector_at_Some _ 2%nat c2) by done. rewrite bind_ret.
  rewrite (vector_at_Some _ 3%nat c3) by done.
  fold fitted seed flipped.
  subst corrected flip_log. destruct flipped.
  - rewrite (bind_run _ _ s (append_log [WARN_flipping_normal] s) (vscale (-1) fitted))
      by (by rewrite bind_log).
    destruct (Rltb _ _); [by rewrite bind_log | by rewrite bind_ret].
  - rewrite bind_ret, append_log_nil.
    destruct (Rltb _ _); [by rewrite bind_log | by rewrite bind_ret].
Qed.

(** X1. Whenever the estimator returns a plane, the cloud was not empty, the
    fit had its four coefficients, the inlier test did not fail, the
    offset is the fitted one, the normal is the fitted normal or its
    opposite according to the sign of its dot product with the seed, and
    the dot product of the returned normal with the seed is at least
    [cos 0.5]. *)
Theorem estimator_success_postcondition (cloud : Cloud) (h : Hyperplane) :
  fit cloud = Returned (Some h) →
  ∃ p0 rest c0 c1 c2 c3 cs,
    points cloud = p0 :: rest ∧
    values (segment cloud) = c0 :: c1 :: c2 :: c3 :: cs ∧
    (ROS_ASSERT_ENABLED = true → cs = []) ∧
    fraction_below_90 (length (indices (segment cloud))) (cloud_size cloud) = false ∧
    offset h = c3 ∧
    ((0 <= dot (V3 c0 c1 c2) (point_normal p0) ∧ normal h = V3 c0 c1 c2) ∨
     (dot (V3 c0 c1 c2) (point_normal p0) < 0 ∧ normal h = vscale (-1) (V3 c0 c1 c2))) ∧
    cos EpsAngle <= dot (normal h) (point_normal p0).
Proof.
  unfold fit. intros Hfit.
  destruct (points cloud) as [| p0 rest] eqn:Hp.
  { by rewrite computePlaneCoefficients_empty in Hfit. }
  destruct (decide (ROS_ASSERT_ENABLED = true ∧ length (values (segment cloud)) ≠ 4%nat))
    as [[He Hlen] | Hok].
  { rewrite computePlaneCoefficients_no_model in Hfit; [done | by rewrite Hp | done | done]. }
  assert (Hlen : ROS_ASSERT_ENABLED = true → length (values (segment cloud)) = 4%nat).
  { intros He. destruct (decide (length (values (segment cloud)) = 4%nat)); [done |].
    exfalso. by apply Hok. }
  destruct (fraction_below_90 _ _) eqn:Hfrac.
  { rewrite computePlaneCoefficients_below in Hfit; [done | by rewrite Hp | done | done]. }
  destruct (values (segment cloud)) as [| c0 [| c1 [| c2 [| c3 cs]]]] eqn:Hv.
  1-4: exfalso; revert Hfit; unfold computePlaneCoefficients;
       rewrite Hp, Hv, (vector_at_Some _ 0%nat p0) by done;
       rewrite bind_ret, ROS_ASSERT_pass
         by (intros He; specialize (Hlen He); discriminate Hlen);
       rewrite bind_ret, Hfrac; unfold vector_at; simpl;
       rewrite ?bind_ret, ?bind_throw.
  1-3: intros Hf; discriminate Hf.
  { destruct (Rltb (dot _ _) 0).
    - rewrite (bind_run _ _ state0 (append_log [WARN_flipping_normal] state0)
                 (vscale (-1) (V3 c0 c1 c2))) by (by rewrite bind_log).
      destruct (Rltb _ _); [rewrite bind_log | rewrite bind_throw];
        intros Hf; discriminate Hf.
    - rewrite bind_ret.
      destruct (Rltb _ _); [rewrite bind_log | rewrite bind_throw];
        intros Hf; discriminate Hf. }
  assert (Hcs : ROS_ASSERT_ENABLED = true → cs = []).
  { intros He. specialize (Hlen He). simpl in Hlen. destruct cs; [done | discriminate]. }
  rewrite (computePlaneCoefficients_past_test cloud state0 p0 rest c0 c1 c2 c3 cs
             Hp Hv Hcs Hfrac) in Hfit.
  cbv zeta in Hfit.
  exists p0, rest, c0, c1, c2, c3, cs.
  split; [done |]. split; [done |]. split; [done |]. split; [done |].
  destruct (Rltb (dot (V3 c0 c1 c2) (point_normal p0)) 0) eqn:Hflip;
    destruct (Rltb _ (cos EpsAngle)) eqn:Htol; try discriminate Hfit;
    injection Hfit as <-; cbn [normal offset];
    apply Rltb_false_iff in Htol.
  - apply Rltb_iff in Hflip. split; [done |]. split; [right; by split | done].
  - apply Rltb_false_iff in Hflip. split; [done |]. split; [left; by split | done].
Qed.

(** X2. Flipping negates the normal and leaves the offset as fitted: the
    plane returned after a flip is not the fitted plane but its mirror
    image through the world origin.  A point at signed distance [t] from
    the fitted plane is at [2 * offset - t] from the returned one, so the
    points of the fitted plane lie at twice the offset. *)
Theorem flipped_plane_is_mirrored (cloud : Cloud) (h : Hyperplane)
    (p0 : PointType) (rest : list PointType) (c0 c1 c2 c3 : R) :
  points cloud = p0 :: rest →
  values (segment cloud) = [c0; c1; c2; c3] →
  fit cloud = Returned (Some h) →
  let fitted := mkHyperplane (V3 c0 c1 c2) c3 in
  ∀ q : Vector3d,
    (dot (normal fitted) (point_normal p0) < 0 →
     signedDistance h q = 2 * c3 - signedDistance fitted q) ∧
    (0 <= dot (normal fitted) (point_normal p0) →
     signedDistance h q = signedDistance fitted q).
Proof.
  intros Hp Hv Hfit fitted q.
  assert (Hfrac : fraction_below_90 (length (indices (segment cloud))) (cloud_size cloud)
                  = false).
  { destruct (fraction_below_90 _ _) eqn:Hfrac; [| done].
    unfold fit in Hfit.
    rewrite computePlaneCoefficients_below in Hfit;
      [done | by rewrite Hp | intros _; by rewrite Hv | done]. }
  unfold fit in Hfit.
  rewrite (computePlaneCoefficients_fit cloud state0 p0 rest c0 c1 c2 c3 Hp Hv Hfrac) in Hfit.
  cbv zeta in Hfit. cbn [normal fitted].
  destruct (Rltb (dot (V3 c0 c1 c2) (point_normal p0)) 0) eqn:Hflip;
    destruct (Rltb _ (cos EpsAngle)); try discriminate Hfit;
    injection Hfit as <-.
  - apply Rltb_iff in Hflip. split; [| lra].
    intros _. destruct q as [q0 q1 q2]. subst fitted. vunfold. ring.
  - apply Rltb_false_iff in Hflip. split; [lra |].
    intros _. reflexivity.
Qed.

(** X3. When the fit finds no model (no inlier, no coefficient) on a cloud
    that is not empty, the call is stopped by the assertion on the number
    of coefficients if assertions are compiled in, and otherwise returns
    [false] through the inlier test; either way the frame is the identity
    and the boundary list is empty. *)
Theorem no_model_outcome (input_mesh : PolygonMesh) (s : state) :
  points (cloud input_mesh) ≠ [] →
  cloud_size (cloud input_mesh) ≠ 0%N →
  segment (cloud input_mesh) = mkSegmentation [] [] →
  calculateBoundaryData input_mesh s =
    if ROS_ASSERT_ENABLED then
      (Aborted, append_log [FATAL_assertion_failed] (reset s))
    else
      (Returned false,
       append_log [WARN_could_not_compute_plane; WARN_less_than_90_percent] (reset s)).
Proof.
  intros Hp Hsize Hseg.
  destruct ROS_ASSERT_ENABLED eqn:He.
  - assert (Hrun : computePlaneCoefficients (cloud input_mesh) state0 =
                   (Aborted, append_log [FATAL_assertion_failed] state0)).
    { apply computePlaneCoefficients_no_model; [done | done |]. by rewrite Hseg. }
    rewrite calculateBoundaryData_fit_aborted.
    + unfold fit_log. by rewrite Hrun.
    + unfold fit. by rewrite Hrun.
  - assert (Hrun : computePlaneCoefficients (cloud input_mesh) state0 =
                   (Returned None, append_log [WARN_less_than_90_percent] state0)).
    { apply computePlaneCoefficients_below; [done | intros Hc; congruence |].
      rewrite Hseg. simpl. unfold fraction_below_90.
      rewrite decide_False by done. apply Rltb_true.
      assert (0 < IZR (Z.of_N (cloud_size (cloud input_mesh)))) by (apply IZR_lt; lia).
      unfold Rdiv. rewrite Rmult_0_l. lra. }
    rewrite calculateBoundaryData_fit_failed.
    + unfold fit_log. by rewrite Hrun.
    + unfold fit. by rewrite Hrun.
Qed.

Local Close Scope R_scope.

(** ** More on the mesh builder *)

(** X4. The loop over the polygons has no exception path: it returns, with a
    mesh when every polygon has three indices and without one (after a
    single error message) as soon as one has not; nothing is thrown,
    nothing asserted, and the importer is not touched. *)
Theorem builder_never_throws (polygons : list (list N)) (s : state) :
  (Forall (λ f, length f = 3) polygons ∧
   ∃ mesh m, polygons_loop polygons emptyMesh bimap.empty s = (Returned (Some (mesh, m)), s)) ∨
  (Exists (λ f, length f ≠ 3) polygons ∧
   ∃ n, n ≠ 3 ∧
        polygons_loop polygons emptyMesh bimap.empty s =
          (Returned None, append_log [ERROR_polygon_sides n] s)).
Proof.
  destruct (first_non_triangle polygons)
    as [Htri | (pre & bad & post & -> & Hpre & Hbad)].
  - left. split; [done |].
    destruct (build_triangles polygons Htri) as (mesh & m & _ & Hrun).
    by exists mesh, m.
  - right. split.
    + apply Exists_app. right. by apply Exists_cons_hd.
    + exists (length bad). split; [done |].
      apply (polygons_loop_bad pre bad post Hpre Hbad _ _ [] s linked_empty).
Qed.

(** The loop over a list of polygons followed by another is the loop over
    the second from where the first one ended. *)
Lemma polygons_loop_app (pre post : list (list N)) :
  ∀ mesh m mesh1 m1 s s1,
    polygons_loop pre mesh m s = (Returned (Some (mesh1, m1)), s1) →
    polygons_loop (pre ++ post) mesh m s = polygons_loop post mesh1 m1 s1.
Proof.
  induction pre as [| f rest IH]; intros mesh m mesh1 m1 s s1 Hrun.
  - simpl in Hrun. by injection Hrun as <- <- <-.
  - simpl app. cbn [polygons_loop] in Hrun |- *.
    destruct (bool_decide (length f ≠ 3)); [by rewrite bind_log in Hrun |].
    unfold bind at 1. unfold bind at 1 in Hrun.
    destruct (vertices_loop f [] mesh m s) as [[[[vi mesh'] m'] | |] s'];
      [| done | done].
    unfold bind at 1. unfold bind at 1 in Hrun.
    destruct (vector_at vi 0 s') as [[v0 | |] s0]; [| done | done].
    unfold bind at 1. unfold bind at 1 in Hrun.
    destruct (vector_at vi 1 s0) as [[v1 | |] s1']; [| done | done].
    unfold bind at 1. unfold bind at 1 in Hrun.
    destruct (vector_at vi 2 s1') as [[v2 | |] s2]; [| done | done].
    by apply IH.
Qed.

(** X5. Handles are stable: the mesh built from more polygons keeps every
    handle the shorter list had given, every vertex and every face, the
    new faces coming after the old ones. *)
Theorem builder_extends (pre post : list (list N)) mesh1 m1 mesh2 m2 :
  build pre = Returned (Some (mesh1, m1)) →
  build (pre ++ post) = Returned (Some (mesh2, m2)) →
  (∀ k v, bimap.left m1 !! k = Some v → bimap.left m2 !! k = Some v) ∧
  (∀ v k, bimap.right m1 !! v = Some k → bimap.right m2 !! v = Some k) ∧
  sizeVertices mesh1 ≤ sizeVertices mesh2 ∧
  ∃ ts, faces mesh2 = faces mesh1 ++ ts ∧ length ts = length post.
Proof.
  intros Hb1 Hb2.
  pose proof (build_Some_triangles _ _ _ Hb1) as Htri1.
  pose proof (build_Some_triangles _ _ _ Hb2) as Htri2.
  apply Forall_app in Htri2 as [_ Htri2].
  destruct (polygons_loop_triangles pre Htri1 emptyMesh bimap.empty [] state0 linked_empty)
    as (mesh1' & m1' & ts1 & Hrun1 & Hlink1 & _).
  unfold build in Hb1. rewrite Hrun1 in Hb1. injection Hb1 as -> ->.
  destruct (polygons_loop_triangles post Htri2 mesh1 m1 _ state0 Hlink1)
    as (mesh2' & m2' & ts & Hrun2 & Hlink2 & Hfaces & Hall).
  unfold build in Hb2.
  rewrite (polygons_loop_app pre post _ _ _ _ _ _ Hrun1), Hrun2 in Hb2.
  injection Hb2 as -> ->.
  destruct Hlink1 as (_ & Hsz1 & Hl1 & Hr1), Hlink2 as (_ & Hsz2 & Hl2 & Hr2).
  split; [| split; [| split]].
  - intros k v Hv. apply Hl2. apply first_occurrences_prefix. by apply Hl1.
  - intros v k Hv. apply Hr2. apply first_occurrences_prefix. by apply Hr1.
  - rewrite Hsz1, Hsz2.
    assert (Hpre : ∀ l seen, length seen ≤ length (foldl note_index seen l)).
    { clear. induction l as [| k l IH]; intros seen; simpl; [lia |].
      etrans; [| apply IH]. unfold note_index. case_decide; [lia |].
      rewrite length_app. simpl. lia. }
    apply Hpre.
  - exists ts. split; [done |]. symmetry. by eapply Forall2_length.
Qed.

(** ** More on the projector *)

Lemma plane_point_vertex points hplane plane_inverse mesh m (edge : nat) (p : Vector3d) :
  plane_point points hplane plane_inverse mesh m edge = Some p ↔
  ∃ pt, boundary_vertex points mesh m edge = Some pt ∧
        p = transform plane_inverse (projection hplane (position pt)).
Proof.
  unfold plane_point, boundary_vertex.
  destruct (bimap.right m !! _) as [idx |].
  - destruct (pcl.points points !! N.to_nat idx) as [pt |].
    + split; [intros [= <-]; by exists pt | intros (pt' & [= <-] & ->); done].
    + split; [done | intros (pt' & [=] & _)].
  - split; [done | intros (pt' & [=] & _)].
Qed.

(** A half-edge whose vertex is not in the bimap, or whose point index is
    beyond the cloud, ends the loop by an exception. *)
Lemma edge_step_none points hplane plane_inverse mesh m (edge : nat) (rest : list nat)
    (pbound : PolygonBoundary) (s : state) :
  plane_point points hplane plane_inverse mesh m edge = None →
  edges_loop points hplane plane_inverse mesh m (edge :: rest) pbound s =
    (Thrown_out_of_range, s).
Proof.
  unfold plane_point. intros Hp. cbn [edges_loop]. unfold right_at.
  destruct (bimap.right m !! getOriginatingVertexIndex mesh edge) as [idx |];
    [| by rewrite bind_throw].
  rewrite bind_ret.
  destruct (pcl.points points !! N.to_nat idx) as [cloudpt |] eqn:Hc; [done |].
  rewrite (vector_at_None _ _ Hc). by rewrite bind_throw.
Qed.

Lemma edges_loop_returned points hplane plane_inverse mesh m (boundary : list nat) :
  ∀ pbound pb s s',
    edges_loop points hplane plane_inverse mesh m boundary pbound s = (Returned pb, s') →
    ∃ pts,
      Forall2 (λ e p, plane_point points hplane plane_inverse mesh m e = Some p)
              boundary pts ∧
      pb = pbound ++ map xy pts ∧ s' = s ∧
      (ROS_ASSERT_ENABLED = true → Forall (λ p, (Rabs (vz p) < 1 / 1000)%R) pts).
Proof.
  induction boundary as [| edge rest IH]; intros pbound pb s s' Hrun.
  - simpl in Hrun. injection Hrun as <- <-. exists [].
    split; [constructor |]. split; [by rewrite app_nil_r |]. split; [done |].
    intros _. constructor.
  - destruct (plane_point points hplane plane_inverse mesh m edge) as [p |] eqn:Hp.
    2:{ by rewrite edge_step_none in Hrun. }
    rewrite (edge_step _ _ _ _ _ edge p) in Hrun by done.
    destruct (Rlt_dec (Rabs (vz p)) (1 / 1000)) as [Hlt | Hge].
    + rewrite ROS_ASSERT_pass in Hrun by (intros _; by apply Rltb_true).
      rewrite bind_ret in Hrun.
      destruct (IH _ _ _ _ Hrun) as (pts & Hpts & -> & -> & Hsmall).
      exists (p :: pts). split; [by constructor |].
      split; [simpl; by rewrite <- app_assoc |]. split; [done |].
      intros He. constructor; [done | by apply Hsmall].
    + destruct ROS_ASSERT_ENABLED eqn:He.
      * rewrite (bind_aborted _ _ s (append_log [FATAL_assertion_failed] s)) in Hrun; [done |].
        apply ROS_ASSERT_fail; [done |]. apply Rltb_false. lra.
      * rewrite ROS_ASSERT_pass in Hrun by (intros Hc; congruence).
        rewrite bind_ret in Hrun.
        destruct (IH _ _ _ _ Hrun) as (pts & Hpts & -> & -> & Hsmall).
        exists (p :: pts). split; [by constructor |].
        split; [simpl; by rewrite <- app_assoc |]. split; [done |].
        intros Hc. congruence.
Qed.

Lemma boundaries_loop_returned points hplane plane_inverse mesh m (loops : list (list nat)) :
  ∀ s s',
    boundaries_loop points hplane plane_inverse mesh m loops s = (Returned tt, s') →
    ∃ ptss,
      Forall2 (Forall2 (λ e p, plane_point points hplane plane_inverse mesh m e = Some p))
              loops ptss ∧
      s' = push_boundaries (map (map xy) ptss) s ∧
      (ROS_ASSERT_ENABLED = true →
       Forall (Forall (λ p, (Rabs (vz p) < 1 / 1000)%R)) ptss).
Proof.
  induction loops as [| boundary rest IH]; intros s s' Hrun.
  - simpl in Hrun. injection Hrun as <-. exists [].
    split; [constructor |]. split; [| intros _; constructor].
    unfold push_boundaries. simpl. rewrite app_nil_r. by destruct s as [[? ? ?] ?].
  - cbn [boundaries_loop] in Hrun. unfold bind at 1 in Hrun.
    destruct (edges_loop points hplane plane_inverse mesh m boundary [] s)
      as [[pb | |] s1] eqn:Hedges; [| done | done].
    destruct (edges_loop_returned _ _ _ _ _ _ _ _ _ _ Hedges)
      as (pts & Hpts & -> & -> & Hsmall).
    unfold bind at 1, modify_self at 1 in Hrun.
    destruct (IH _ _ Hrun) as (ptss & Hptss & -> & Hsmalls).
    exists (pts :: ptss). split; [by constructor |]. split.
    + unfold push_boundaries. simpl. by rewrite <- app_assoc.
    + intros He. constructor; [by apply Hsmall | by apply Hsmalls].
Qed.

(** What a call that returns [true] has gone through. *)
Lemma calculateBoundaryData_true_inv (input_mesh : PolygonMesh) (s s' : state) :
  calculateBoundaryData input_mesh s = (Returned true, s') →
  ∃ h mesh m ptss,
    fit (cloud input_mesh) = Returned (Some h) ∧
    build (polygons input_mesh) = Returned (Some (mesh, m)) ∧
    Forall2 (Forall2 (λ e p,
               plane_point (cloud input_mesh) h (inverse (plane_frame_ (self s')))
                           mesh m e = Some p))
            (getBoundBoundaryHalfEdges mesh) ptss ∧
    boundaries_ (self s') = map (map xy) ptss ∧
    (ROS_ASSERT_ENABLED = true →
     Forall (Forall (λ p, (Rabs (vz p) < 1 / 1000)%R)) ptss).
Proof.
  intros Hcall.
  destruct (fit (cloud input_mesh)) as [[h |] | |] eqn:Hfit.
  - destruct (calculateBoundaryData_fitted_cases input_mesh s h Hfit)
      as [(pre & bad & post & _ & _ & _ & Hrun) | (mesh & m & _ & Hb & Hrun)].
    { rewrite Hrun in Hcall. discriminate. }
    cbv zeta in Hrun. rewrite Hrun in Hcall.
    destruct (boundaries_loop _ _ _ _ _ _ _) as [[[] | |] s2] eqn:Hloop;
      try discriminate Hcall.
    simpl in Hcall. injection Hcall as <-.
    destruct (boundaries_loop_returned _ _ _ _ _ _ _ _ Hloop)
      as (ptss & Hpts & -> & Hsmall).
    exists h, mesh, m, ptss. split; [done |]. split; [done |].
    split; [exact Hpts |]. split; [done | exact Hsmall].
  - rewrite (calculateBoundaryData_fit_failed _ _ Hfit) in Hcall. discriminate.
  - rewrite (calculateBoundaryData_fit_thrown _ _ Hfit) in Hcall. discriminate.
  - rewrite (calculateBoundaryData_fit_aborted _ _ Hfit) in Hcall. discriminate.
Qed.

Lemma Forall2_Forall2_elem {A B} (R : A → B → Prop) (ls : list (list A))
    (ms : list (list B)) (l : list A) (a : A) :
  Forall2 (Forall2 R) ls ms → l ∈ ls → a ∈ l → ∃ b, R a b ∧ ∃ m', m' ∈ ms ∧ b ∈ m'.
Proof.
  intros Hall [i Hi]%list_elem_of_lookup_1 [j Hj]%list_elem_of_lookup_1.
  destruct (Forall2_lookup_l _ _ _ _ _ Hall Hi) as (m' & Hm' & Hlm).
  destruct (Forall2_lookup_l _ _ _ _ _ Hlm Hj) as (b & Hb & HR).
  exists b. split; [done |]. exists m'.
  split; by eapply list_elem_of_lookup_2.
Qed.

(** X6. A call that returns [true] has run the estimator and the builder to
    the end, and its boundary list has one polygon per extracted loop, in
    the order of the loops, and in each polygon one point per half-edge,
    in the order of the half-edges: the local X and Y of the projection of
    the cloud point the half-edge starts from. *)
Theorem returned_true_postcondition (input_mesh : PolygonMesh) (s s' : state) :
  calculateBoundaryData input_mesh s = (Returned true, s') →
  ∃ h mesh m (vss : list (list PointType)),
    fit (cloud input_mesh) = Returned (Some h) ∧
    build (polygons input_mesh) = Returned (Some (mesh, m)) ∧
    Forall2 (Forall2 (λ e pt, boundary_vertex (cloud input_mesh) mesh m e = Some pt))
            (getBoundBoundaryHalfEdges mesh) vss ∧
    boundaries_ (self s') =
      map (map (λ pt, xy (transform (inverse (plane_frame_ (self s')))
                                    (projection h (position pt))))) vss ∧
    length (boundaries_ (self s')) = length (getBoundBoundaryHalfEdges mesh) ∧
    Forall2 (λ loop pbound, length pbound = length loop)
            (getBoundBoundaryHalfEdges mesh) (boundaries_ (self s')).
Proof.
  intros Hcall.
  destruct (calculateBoundaryData_true_inv _ _ _ Hcall)
    as (h & mesh & m & ptss & Hfit & Hb & Hpts & Hbs & _).
  set (inv := inverse (plane_frame_ (self s'))) in *.
  assert (Hvss : ∃ vss,
            Forall2 (Forall2 (λ e pt, boundary_vertex (cloud input_mesh) mesh m e = Some pt))
                    (getBoundBoundaryHalfEdges mesh) vss ∧
            ptss = map (map (λ pt, transform inv (projection h (position pt)))) vss).
  { clear Hbs. induction Hpts as [| loop pts loops ptss' Hloop _ IH].
    - exists []. split; [constructor | done].
    - destruct IH as (vss & Hv & ->).
      assert (Hvs : ∃ vs,
                Forall2 (λ e pt, boundary_vertex (cloud input_mesh) mesh m e = Some pt) loop vs ∧
                pts = map (λ pt, transform inv (projection h (position pt))) vs).
      { clear Hv. induction Hloop as [| e p es ps Hp _ IHl].
        - exists []. split; [constructor | done].
        - destruct IHl as (vs & Hvs & ->).
          apply plane_point_vertex in Hp as (pt & Hpt & ->).
          exists (pt :: vs). split; [by constructor | done]. }
      destruct Hvs as (vs & Hvs & ->).
      exists (vs :: vss). split; [by constructor | done]. }
  destruct Hvss as (vss & Hv & ->).
  exists h, mesh, m, vss. split; [done |]. split; [done |]. split; [done |].
  assert (Hbs' : boundaries_ (self s') =
            map (map (λ pt, xy (transform inv (projection h (position pt))))) vss).
  { rewrite Hbs. rewrite <- list_fmap_compose. apply list_fmap_ext. intros _ vs _.
    simpl. by rewrite <- list_fmap_compose. }
  split; [exact Hbs' |]. rewrite Hbs'. split.
  - rewrite length_map. symmetry. by eapply Forall2_length.
  - apply Forall2_fmap_r. eapply Forall2_impl; [exact Hv |].
    intros loop vs Hl. simpl. rewrite length_map. symmetry. by eapply Forall2_length.
Qed.

Local Open Scope R_scope.

(** X7. With assertions compiled in, after a call that returned [true] on a
    frame that is invertible and has a unit third column, every boundary
    vertex round-trips: the local X and Y of its projection, taken back
    through the frame with local Z = 0, fall within 0.001 of that
    projection. *)
Theorem round_trip_when_asserted (input_mesh : PolygonMesh) (s s' : state) :
  ROS_ASSERT_ENABLED = true →
  calculateBoundaryData input_mesh s = (Returned true, s') →
  let frame := plane_frame_ (self s') in
  determinant frame ≠ 0 →
  squaredNorm (col2 frame) = 1 →
  ∃ h mesh m,
    fit (cloud input_mesh) = Returned (Some h) ∧
    build (polygons input_mesh) = Returned (Some (mesh, m)) ∧
    ∀ loop e pt,
      loop ∈ getBoundBoundaryHalfEdges mesh → e ∈ loop →
      boundary_vertex (cloud input_mesh) mesh m e = Some pt →
      let q := projection h (position pt) in
      let p := transform (inverse frame) q in
      Rabs (vz p) < 1 / 1000 ∧
      distance (transform frame (V3 (vx p) (vy p) 0)) q < 1 / 1000.
Proof.
  intros He Hcall frame Hdet Hunit.
  destruct (calculateBoundaryData_true_inv _ _ _ Hcall)
    as (h & mesh & m & ptss & Hfit & Hb & Hpts & _ & Hsmall).
  specialize (Hsmall He).
  exists h, mesh, m. split; [done |]. split; [done |].
  intros loop e pt Hloop Hin Hpt q p.
  destruct (Forall2_Forall2_elem _ _ _ _ _ Hpts Hloop Hin) as (p' & Hp' & pts & Hpts' & Hin').
  apply plane_point_vertex in Hp' as (pt' & Hpt' & ->).
  rewrite Hpt in Hpt'. injection Hpt' as <-.
  assert (Hres : Rabs (vz p) < 1 / 1000).
  { rewrite Forall_forall in Hsmall. specialize (Hsmall _ Hpts').
    rewrite Forall_forall in Hsmall. exact (Hsmall _ Hin'). }
  split; [exact Hres |].
  by apply round_trip_within_residual.
Qed.

Local Close Scope R_scope.

(** The loop over one boundary up to a half-edge whose vertex cannot be
    read. *)
Lemma edges_loop_throws points hplane plane_inverse mesh m (pre : list nat) :
  ∀ (pts : list Vector3d) (e : nat) (post : list nat) (pbound : PolygonBoundary) (s : state),
    Forall2 (λ e p, plane_point points hplane plane_inverse mesh m e = Some p) pre pts →
    (ROS_ASSERT_ENABLED = true → Forall (λ p, (Rabs (vz p) < 1 / 1000)%R) pts) →
    plane_point points hplane plane_inverse mesh m e = None →
    edges_loop points hplane plane_inverse mesh m (pre ++ e :: post) pbound s =
      (Thrown_out_of_range, s).
Proof.
  induction pre as [| e0 pre IH]; intros pts e post pbound s Hpts Hsmall Hnone.
  - by apply edge_step_none.
  - apply Forall2_cons_inv_l in Hpts as (p & pts' & Hp & Hrest & ->).
    simpl app. rewrite (edge_step _ _ _ _ _ e0 p) by done.
    rewrite ROS_ASSERT_pass.
    2:{ intros He. apply Rltb_true. by apply Forall_cons_1 in Hsmall as [? _]. }
    rewrite bind_ret. apply (IH pts'); [done | | done].
    intros He. by apply Forall_cons_1 in Hsmall as [_ ?].
Qed.

(** X8. The point indices of the polygons are not checked against the cloud
    when the mesh is built.  One that lies beyond the cloud is noticed
    only if it is the start of a boundary half-edge, and then by an
    exception: the call throws, and the boundary list keeps the loops
    that were completed before. *)
Theorem unreadable_vertex_throws (input_mesh : PolygonMesh) (s : state)
    (h : Hyperplane) mesh m (done_loops : list (list nat)) (ptss : list (list Vector3d))
    (pre : list nat) (pts : list Vector3d) (e : nat) (post : list nat)
    (rest : list (list nat)) :
  fit (cloud input_mesh) = Returned (Some h) →
  build (polygons input_mesh) = Returned (Some (mesh, m)) →
  let frame := localPlaneFrame h (compute3DCentroid (cloud input_mesh)) Identity in
  let point_of := plane_point (cloud input_mesh) h (inverse frame) mesh m in
  getBoundBoundaryHalfEdges mesh = done_loops ++ (pre ++ e :: post) :: rest →
  Forall2 (Forall2 (λ e p, point_of e = Some p)) done_loops ptss →
  Forall2 (λ e p, point_of e = Some p) pre pts →
  boundary_vertex (cloud input_mesh) mesh m e = None →
  (ROS_ASSERT_ENABLED = true →
   Forall (Forall (λ p, (Rabs (vz p) < 1 / 1000)%R)) (pts :: ptss)) →
  calculateBoundaryData input_mesh s =
    (Thrown_out_of_range,
     push_boundaries (map (map xy) ptss) (framed h (cloud input_mesh) s)).
Proof.
  intros Hfit Hb frame point_of Hloops Hdone Hpre Hnone Hsmall.
  rewrite (calculateBoundaryData_built _ _ h _ _ Hfit Hb). cbv zeta.
  change (plane_frame_ (self (framed h (cloud input_mesh) s))) with frame.
  rewrite Hloops.
  assert (Hgen : ∀ ls pss s0,
            Forall2 (Forall2 (λ e p, point_of e = Some p)) ls pss →
            (ROS_ASSERT_ENABLED = true →
             Forall (Forall (λ p, (Rabs (vz p) < 1 / 1000)%R)) pss) →
            boundaries_loop (cloud input_mesh) h (inverse frame) mesh m
              (ls ++ (pre ++ e :: post) :: rest) s0 =
              (Thrown_out_of_range, push_boundaries (map (map xy) pss) s0)).
  { induction ls as [| l ls IH]; intros pss s0 Hall Hsm.
    - apply Forall2_nil_inv_l in Hall as ->. simpl app. cbn [boundaries_loop].
      rewrite (bind_thrown _ _ s0 s0).
      + unfold push_boundaries. simpl. rewrite app_nil_r. by destruct s0 as [[? ? ?] ?].
      + apply (edges_loop_throws _ _ _ _ _ pre pts); [done | |].
        * intros He. specialize (Hsmall He). by apply Forall_cons_1 in Hsmall as [? _].
        * destruct (point_of e) as [p |] eqn:Hp; [| done].
          apply plane_point_vertex in Hp as (pt & Hpt & _). congruence.
    - apply Forall2_cons_inv_l in Hall as (ps & pss' & Hl & Hls & ->).
      simpl app. cbn [boundaries_loop].
      rewrite (bind_run _ _ s0 s0 (map xy ps)).
      2:{ rewrite (edges_loop_pass _ _ _ _ _ l ps); [done | done |].
          intros He. specialize (Hsm He). by apply Forall_cons_1 in Hsm as [? _]. }
      unfold bind at 1, modify_self at 1.
      rewrite (IH pss');
        [| done | intros He; specialize (Hsm He); by apply Forall_cons_1 in Hsm as [_ ?]].
      unfold push_boundaries. simpl. by rewrite <- app_assoc. }
  rewrite (Hgen done_loops ptss); [done | done |].
  intros He. specialize (Hsmall He). by apply Forall_cons_1 in Hsmall as [_ ?].
Qed.

(** ** The call and the state it starts from *)

Lemma boundaries_loop_appends points hplane plane_inverse mesh m (loops : list (list nat)) :
  ∃ r bs msgs, ∀ s,
    boundaries_loop points hplane plane_inverse mesh m loops s =
      (r, mkState (mkImporter (plane_frame_ (self s)) (boundaries_ (self s) ++ bs)
                              (verbose_ (self s)))
                  (msgs ++ rosout s)).
Proof.
  induction loops as [| boundary rest IH].
  - exists (Returned tt), [], []. intros [[fr bs vb] out]. simpl. by rewrite app_nil_r.
  - destruct (logs_only_edges_loop points hplane plane_inverse mesh m boundary [])
      as (r0 & msgs0 & Hedges).
    destruct r0 as [pb | |].
    + destruct IH as (r & bs & msgs & Hrest).
      exists r, (pb :: bs), (msgs ++ msgs0). intros s.
      cbn [boundaries_loop]. rewrite (bind_run _ _ s _ pb (Hedges s)).
      unfold bind at 1, modify_self at 1. rewrite Hrest. simpl.
      by rewrite <- !app_assoc.
    + exists Thrown_out_of_range, [], msgs0. intros s.
      cbn [boundaries_loop]. rewrite (bind_thrown _ _ s _ (Hedges s)).
      unfold append_log. by rewrite app_nil_r; destruct s as [[? ? ?] ?].
    + exists Aborted, [], msgs0. intros s.
      cbn [boundaries_loop]. rewrite (bind_aborted _ _ s _ (Hedges s)).
      unfold append_log. by rewrite app_nil_r; destruct s as [[? ? ?] ?].
Qed.

(** X9. Nothing of what the importer held before a call survives it, and
    nothing but the input decides it: the way the call ends, the frame
    and the boundary list it leaves are the same from every state (so a
    second call on the same input, the fit handing back the same, repeats
    the first); the verbosity flag is kept and the console output only
    grows. *)
Theorem call_depends_on_input_only (input_mesh : PolygonMesh) :
  ∃ r frame bs, ∀ s,
    let out := calculateBoundaryData input_mesh s in
    fst out = r ∧
    plane_frame_ (self (snd out)) = frame ∧
    boundaries_ (self (snd out)) = bs ∧
    verbose_ (self (snd out)) = verbose_ (self s) ∧
    ∃ msgs, rosout (snd out) = msgs ++ rosout s.
Proof.
  destruct (fit (cloud input_mesh)) as [[h |] | |] eqn:Hfit.
  - destruct (first_non_triangle (polygons input_mesh))
      as [Htri | (pre & bad & post & Hpoly & Hpre & Hbad)].
    + destruct (build_triangles _ Htri) as (mesh & m & Hb & _).
      destruct (boundaries_loop_appends (cloud input_mesh) h
                  (inverse (localPlaneFrame h (compute3DCentroid (cloud input_mesh)) Identity))
                  mesh m (getBoundBoundaryHalfEdges mesh))
        as (r & bs & msgs & Hloop).
      exists (match r with
              | Returned _ => Returned true
              | Thrown_out_of_range => Thrown_out_of_range
              | Aborted => Aborted
              end),
             (localPlaneFrame h (compute3DCentroid (cloud input_mesh)) Identity), bs.
      intros s. cbv zeta.
      rewrite (calculateBoundaryData_built _ _ h _ _ Hfit Hb). cbv zeta.
      change (plane_frame_ (self (framed h (cloud input_mesh) s)))
        with (localPlaneFrame h (compute3DCentroid (cloud input_mesh)) Identity).
      rewrite Hloop. simpl. repeat split; try done.
      eexists. by rewrite !app_assoc.
    + exists (Returned false),
             (localPlaneFrame h (compute3DCentroid (cloud input_mesh)) Identity), [].
      intros s. cbv zeta.
      rewrite (calculateBoundaryData_bad_face _ s pre bad post h Hpoly Hpre Hbad Hfit).
      simpl. repeat split; try done.
      eexists. by rewrite app_comm_cons, !app_assoc.
  - exists (Returned false), Identity, []. intros s. cbv zeta.
    rewrite (calculateBoundaryData_fit_failed _ _ Hfit). simpl.
    repeat split; try done. by eexists (_ :: _).
  - exists Thrown_out_of_range, Identity, []. intros s. cbv zeta.
    rewrite (calculateBoundaryData_fit_thrown _ _ Hfit). simpl.
    repeat split; try done. by eexists.
  - exists Aborted, Identity, []. intros s. cbv zeta.
    rewrite (calculateBoundaryData_fit_aborted _ _ Hfit). simpl.
    repeat split; try done. by eexists.
Qed.

(** ** More on the frame *)

Local Open Scope R_scope.

Lemma dot_cross_l (a b : Vector3d) : dot (cross a b) a = 0.
Proof. destruct a, b. vunfold. ring. Qed.

Lemma dot_cross_r (a b : Vector3d) : dot (cross a b) b = 0.
Proof. destruct a, b. vunfold. ring. Qed.

Lemma dot_comm (a b : Vector3d) : dot a b = dot b a.
Proof. destruct a, b. vunfold. ring. Qed.

Lemma dot_vscale_r (k : R) (a b : Vector3d) : dot a (vscale k b) = k * dot a b.
Proof. destruct a, b. vunfold. ring. Qed.

Lemma cross_vscale_l (k : R) (a b : Vector3d) :
  cross (vscale k a) b = vscale k (cross a b).
Proof. destruct a, b. vunfold. apply f_equal3; ring. Qed.

Lemma dot_normalized_l (a b : Vector3d) : dot (normalized a) b = / norm a * dot a b.
Proof. unfold normalized. apply dot_vscale_l. Qed.

Lemma squaredNorm_nonneg (a : Vector3d) : 0 <= squaredNorm a.
Proof. destruct a. vunfold. nra. Qed.

Lemma norm_pos (a : Vector3d) : squaredNorm a ≠ 0 → 0 < norm a.
Proof.
  intros Hne. unfold norm. apply sqrt_lt_R0.
  pose proof (squaredNorm_nonneg a). lra.
Qed.

Lemma norm_sqr (a : Vector3d) : norm a * norm a = squaredNorm a.
Proof. unfold norm. apply sqrt_sqrt, squaredNorm_nonneg. Qed.

Lemma squaredNorm_normalized (a : Vector3d) :
  squaredNorm a ≠ 0 → squaredNorm (normalized a) = 1.
Proof.
  intros Hne. pose proof (norm_pos a Hne) as Hpos. pose proof (norm_sqr a) as Hsq.
  unfold normalized.
  replace (squaredNorm (vscale (/ norm a) a))
    with (/ norm a * / norm a * squaredNorm a)
    by (destruct a; vunfold; ring).
  rewrite <- Hsq. field. lra.
Qed.

(** Lagrange's identity and the triple product of a cross product. *)
Lemma squaredNorm_cross (a b : Vector3d) :
  squaredNorm (cross a b) = squaredNorm a * squaredNorm b - dot a b * dot a b.
Proof. destruct a, b. vunfold. ring. Qed.

Lemma triple_cross (a b : Vector3d) :
  dot a (cross (cross b a) b) = squaredNorm (cross b a).
Proof. destruct a, b. vunfold. ring. Qed.

Lemma triple_cross' (a b : Vector3d) :
  dot (cross a b) (cross a b) = squaredNorm (cross a b).
Proof. reflexivity. Qed.

(** The two shapes of the frame. *)
Lemma localPlaneFrame_x_branch (h : Hyperplane) (c : Vector3d) (fr : Affine3d) :
  Rabs (dot (normal h) UnitX) < 8 / 10 →
  let x_axis := normalized (projection h (vadd (projection h c) UnitX)) in
  let z_axis := normalized (normal h) in
  localPlaneFrame h c fr =
    mkAffine x_axis (normalized (cross z_axis x_axis)) z_axis (projection h c).
Proof. intros Hlt. unfold localPlaneFrame. by rewrite Rltb_true. Qed.

Lemma localPlaneFrame_y_branch (h : Hyperplane) (c : Vector3d) (fr : Affine3d) :
  8 / 10 <= Rabs (dot (normal h) UnitX) →
  let y_axis := normalized (projection h (vadd (projection h c) UnitY)) in
  let z_axis := normalized (normal h) in
  localPlaneFrame h c fr =
    mkAffine (normalized (cross y_axis z_axis)) y_axis z_axis (projection h c).
Proof. intros Hge. unfold localPlaneFrame. by rewrite Rltb_false. Qed.

(** The world axis the frame is built from, and the column it ends up in. *)
Lemma axis_point_dot_normal (h : Hyperplane) (c u : Vector3d) :
  squaredNorm (normal h) = 1 →
  dot (projection h (vadd (projection h c) u)) (normal h) = - offset h.
Proof.
  intros Hunit.
  assert (Hgen : ∀ o, dot (projection h (vadd o u)) (normal h) =
                      (dot (normal h) o + dot (normal h) u) * (1 - squaredNorm (normal h))
                      - offset h * squaredNorm (normal h)).
  { intros [o0 o1 o2]. destruct h as [[nx ny nz] d], u as [u0 u1 u2]. vunfold. ring. }
  rewrite Hgen, Hunit. ring.
Qed.

(** X10. Whatever the plane and the centroid, the column of the frame made by
    the cross product is perpendicular to the other two: only the axis
    taken from the projected world axis and the normal can fail to be
    perpendicular to each other. *)
Theorem frame_cross_column_perpendicular (h : Hyperplane) (c : Vector3d) (fr : Affine3d) :
  let frame := localPlaneFrame h c fr in
  (Rabs (dot (normal h) UnitX) < 8 / 10 →
   dot (col1 frame) (col0 frame) = 0 ∧ dot (col1 frame) (col2 frame) = 0) ∧
  (8 / 10 <= Rabs (dot (normal h) UnitX) →
   dot (col0 frame) (col1 frame) = 0 ∧ dot (col0 frame) (col2 frame) = 0).
Proof.
  cbv zeta. split; intros Hb.
  - rewrite (localPlaneFrame_x_branch h c fr Hb). cbv zeta. cbn [col0 col1 col2].
    rewrite !dot_normalized_l, dot_cross_l, dot_cross_r. split; ring.
  - rewrite (localPlaneFrame_y_branch h c fr Hb). cbv zeta. cbn [col0 col1 col2].
    rewrite !dot_normalized_l, dot_cross_l, dot_cross_r. split; ring.
Qed.

(** X11. As long as the projected axis is not parallel to the normal, the
    frame is never left-handed nor singular: its determinant is the
    length of the cross product of the normal column and the axis column,
    a positive number. *)
Theorem frame_determinant_positive (h : Hyperplane) (c : Vector3d) (fr : Affine3d) :
  let frame := localPlaneFrame h c fr in
  (Rabs (dot (normal h) UnitX) < 8 / 10 →
   squaredNorm (cross (col2 frame) (col0 frame)) ≠ 0 →
   determinant frame = norm (cross (col2 frame) (col0 frame)) ∧ 0 < determinant frame) ∧
  (8 / 10 <= Rabs (dot (normal h) UnitX) →
   squaredNorm (cross (col1 frame) (col2 frame)) ≠ 0 →
   determinant frame = norm (cross (col1 frame) (col2 frame)) ∧ 0 < determinant frame).
Proof.
  cbv zeta. split; intros Hb.
  - rewrite (localPlaneFrame_x_branch h c fr Hb). cbv zeta. cbn [col0 col1 col2].
    set (xa := normalized (projection h (vadd (projection h c) UnitX))).
    set (za := normalized (normal h)).
    intros Hne.
    pose proof (norm_pos _ Hne) as Hpos. pose proof (norm_sqr (cross za xa)) as Hsq.
    assert (Hdet : determinant (mkAffine xa (normalized (cross za xa)) za (projection h c))
                   = norm (cross za xa)).
    { unfold determinant. cbn [col0 col1 col2]. unfold normalized.
      rewrite cross_vscale_l, dot_vscale_r, triple_cross, <- Hsq. field. lra. }
    rewrite Hdet. by split.
  - rewrite (localPlaneFrame_y_branch h c fr Hb). cbv zeta. cbn [col0 col1 col2].
    set (ya := normalized (projection h (vadd (projection h c) UnitY))).
    set (za := normalized (normal h)).
    intros Hne.
    pose proof (norm_pos _ Hne) as Hpos. pose proof (norm_sqr (cross ya za)) as Hsq.
    assert (Hdet : determinant (mkAffine (normalized (cross ya za)) ya za (projection h c))
                   = norm (cross ya za)).
    { unfold determinant. cbn [col0 col1 col2]. unfold normalized.
      rewrite dot_vscale_l. rewrite triple_cross', <- Hsq. field. lra. }
    rewrite Hdet. by split.
Qed.

(** The world axis the frame is built from. *)
Lemma frame_axis_dots (h : Hyperplane) (c : Vector3d) (fr : Affine3d) :
  squaredNorm (normal h) = 1 →
  let frame := localPlaneFrame h c fr in
  col2 frame = normal h ∧ signedDistance h (translation frame) = 0 ∧
  (Rabs (dot (normal h) UnitX) < 8 / 10 →
   dot (normal h) (col0 frame) =
     - offset h / norm (projection h (vadd (projection h c) UnitX)) ∧
   dot (normal h) (col1 frame) = 0) ∧
  (8 / 10 <= Rabs (dot (normal h) UnitX) →
   dot (normal h) (col1 frame) =
     - offset h / norm (projection h (vadd (projection h c) UnitY)) ∧
   dot (normal h) (col0 frame) = 0).
Proof.
  intros Hunit. cbv zeta.
  split; [by rewrite localPlaneFrame_col2, normalized_unit |].
  split; [rewrite localPlaneFrame_translation; by apply projection_orthogonal |].
  split; intros Hb.
  - rewrite (localPlaneFrame_x_branch h c fr Hb). cbv zeta. cbn [col0 col1].
    rewrite (normalized_unit (normal h)) by done.
    rewrite !(dot_comm (normal h)), !dot_normalized_l, axis_point_dot_normal by done.
    rewrite dot_cross_l. split; [unfold Rdiv; ring | ring].
  - rewrite (localPlaneFrame_y_branch h c fr Hb). cbv zeta. cbn [col0 col1].
    rewrite (normalized_unit (normal h)) by done.
    rewrite !(dot_comm (normal h)), !dot_normalized_l, axis_point_dot_normal by done.
    rewrite dot_cross_r. split; [unfold Rdiv; ring | ring].
Qed.

(** The local Z of a point, from the decomposition of the point on the
    columns of an invertible frame. *)
Lemma local_z_decomposition (frame : Affine3d) (q : Vector3d) :
  determinant frame ≠ 0 →
  let p := transform (inverse frame) q in
  dot (col2 frame) (vsub q (translation frame)) =
    vx p * dot (col2 frame) (col0 frame) + vy p * dot (col2 frame) (col1 frame)
    + vz p * squaredNorm (col2 frame).
Proof.
  intros Hdet p.
  pose proof (inverse_round_trip frame q Hdet) as Hq. fold p in Hq.
  rewrite <- Hq at 1. generalize p. clear. intros [p0 p1 p2].
  destruct frame as [[a0 a1 a2] [b0 b1 b2] [c0 c1 c2] [t0 t1 t2]]. vunfold. ring.
Qed.

Lemma signedDistance_diff (h : Hyperplane) (q o : Vector3d) :
  dot (normal h) (vsub q o) = signedDistance h q - signedDistance h o.
Proof. destruct h as [[nx ny nz] d], q, o. vunfold. ring. Qed.

(** X12. For a plane through the world origin the supposition of the source
    holds: with a unit normal and a projected axis that is not the null
    vector, the frame is orthonormal and right-handed. *)
Theorem frame_orthonormal_through_origin (h : Hyperplane) (c : Vector3d) (fr : Affine3d) :
  squaredNorm (normal h) = 1 →
  offset h = 0 →
  squaredNorm (projection h (vadd (projection h c)
                 (if Rltb (Rabs (dot (normal h) UnitX)) (8 / 10) then UnitX else UnitY)))
    ≠ 0 →
  orthonormal_right_handed (localPlaneFrame h c fr).
Proof.
  intros Hunit Hoff Hne.
  destruct (Rlt_dec (Rabs (dot (normal h) UnitX)) (8 / 10)) as [Hb | Hb].
  - rewrite Rltb_true in Hne by done.
    rewrite (localPlaneFrame_x_branch h c fr Hb). cbv zeta.
    rewrite (normalized_unit (normal h)) by done.
    set (xa := normalized (projection h (vadd (projection h c) UnitX))).
    assert (Hx : squaredNorm xa = 1) by (by apply squaredNorm_normalized).
    assert (Hxn : dot xa (normal h) = 0).
    { unfold xa. rewrite dot_normalized_l, axis_point_dot_normal, Hoff by done. ring. }
    assert (Hc : squaredNorm (cross (normal h) xa) = 1).
    { rewrite squaredNorm_cross, (dot_comm (normal h)), Hunit, Hx, Hxn. ring. }
    rewrite (normalized_unit (cross (normal h) xa)) by done.
    unfold orthonormal_right_handed, determinant. cbn [col0 col1 col2].
    rewrite triple_cross, (dot_comm xa (cross _ _)), dot_cross_r, dot_cross_l.
    by repeat split.
  - apply Rnot_lt_le in Hb. rewrite Rltb_false in Hne by done.
    rewrite (localPlaneFrame_y_branch h c fr Hb). cbv zeta.
    rewrite (normalized_unit (normal h)) by done.
    set (ya := normalized (projection h (vadd (projection h c) UnitY))).
    assert (Hy : squaredNorm ya = 1) by (by apply squaredNorm_normalized).
    assert (Hyn : dot ya (normal h) = 0).
    { unfold ya. rewrite dot_normalized_l, axis_point_dot_normal, Hoff by done. ring. }
    assert (Hc : squaredNorm (cross ya (normal h)) = 1).
    { rewrite squaredNorm_cross, Hunit, Hy, Hyn. ring. }
    rewrite (normalized_unit (cross ya (normal h))) by done.
    unfold orthonormal_right_handed, determinant. cbn [col0 col1 col2].
    rewrite triple_cross', dot_cross_l, dot_cross_r.
    by repeat split.
Qed.

(** X13. How far off the plane of the frame a projected point lands: with a
    unit normal and an invertible frame, the local Z of the projection of
    any point is its local X (its local Y in the other branch) times the
    offset of the plane over the length of the projected axis point. *)
Theorem residual_is_offset_times_axis (h : Hyperplane) (c : Vector3d) (fr : Affine3d)
    (v : Vector3d) :
  squaredNorm (normal h) = 1 →
  let frame := localPlaneFrame h c fr in
  determinant frame ≠ 0 →
  let p := transform (inverse frame) (projection h v) in
  (Rabs (dot (normal h) UnitX) < 8 / 10 →
   vz p = vx p * (offset h / norm (projection h (vadd (projection h c) UnitX)))) ∧
  (8 / 10 <= Rabs (dot (normal h) UnitX) →
   vz p = vy p * (offset h / norm (projection h (vadd (projection h c) UnitY)))).
Proof.
  intros Hunit frame Hdet p.
  pose proof (local_z_decomposition frame (projection h v) Hdet) as Hz.
  cbv zeta in Hz. fold p in Hz.
  destruct (frame_axis_dots h c fr Hunit) as (Hc2 & Ho & Hx & Hy).
  fold frame in Hc2, Ho, Hx, Hy.
  rewrite Hc2, signedDistance_diff, Ho, Hunit in Hz.
  rewrite (proj1 (projection_orthogonal h v Hunit)) in Hz.
  split; intros Hb.
  - destruct (Hx Hb) as [H0 H1]. rewrite H0, H1 in Hz. unfold Rdiv in *. lra.
  - destruct (Hy Hb) as [H1 H0]. rewrite H0, H1 in Hz. unfold Rdiv in *. lra.
Qed.

Local Close Scope R_scope.

Local Open Scope R_scope.

(** X14. On a plane through the world origin the assertion of the projector
    never fires: with a unit normal, an invertible frame and boundary
    vertices that can all be read, the call returns [true], with or
    without assertions, and its boundary list holds every loop. *)
Theorem through_origin_call_succeeds (input_mesh : PolygonMesh) (s : state)
    (h : Hyperplane) mesh m (vss : list (list PointType)) :
  fit (cloud input_mesh) = Returned (Some h) →
  squaredNorm (normal h) = 1 →
  offset h = 0 →
  build (polygons input_mesh) = Returned (Some (mesh, m)) →
  let frame := localPlaneFrame h (compute3DCentroid (cloud input_mesh)) Identity in
  determinant frame ≠ 0 →
  Forall2 (Forall2 (λ e pt, boundary_vertex (cloud input_mesh) mesh m e = Some pt))
          (getBoundBoundaryHalfEdges mesh) vss →
  calculateBoundaryData input_mesh s =
    (Returned true,
     push_boundaries
       (map (map (λ pt, xy (transform (inverse frame) (projection h (position pt))))) vss)
       (framed h (cloud input_mesh) s)).
Proof.
  intros Hfit Hunit Hoff Hb frame Hdet Hv.
  set (local := λ pt : PointType, transform (inverse frame) (projection h (position pt))).
  assert (Hzero : ∀ pt, vz (local pt) = 0).
  { intros pt. unfold local.
    pose proof (local_z_decomposition frame (projection h (position pt)) Hdet) as Hz.
    cbv zeta in Hz.
    destruct (frame_axis_dots h (compute3DCentroid (cloud input_mesh)) Identity Hunit)
      as (Hc2 & Ho & Hx & Hy).
    fold frame in Hc2, Ho, Hx, Hy.
    rewrite Hc2, signedDistance_diff, Ho, Hunit in Hz.
    rewrite (proj1 (projection_orthogonal h (position pt) Hunit)) in Hz.
    destruct (Rlt_dec (Rabs (dot (normal h) UnitX)) (8 / 10)) as [Hbr | Hbr].
    - destruct (Hx Hbr) as [H0 H1]. rewrite H0, H1, Hoff in Hz. unfold Rdiv in Hz. lra.
    - apply Rnot_lt_le in Hbr.
      destruct (Hy Hbr) as [H1 H0]. rewrite H0, H1, Hoff in Hz. unfold Rdiv in Hz. lra. }
  rewrite (calculateBoundaryData_built _ _ h _ _ Hfit Hb). cbv zeta.
  change (plane_frame_ (self (framed h (cloud input_mesh) s))) with frame.
  rewrite (boundaries_loop_pass (cloud input_mesh) h (inverse frame) mesh m _
             (map (map local) vss)).
  - simpl. f_equal. f_equal. rewrite <- list_fmap_compose. apply list_fmap_ext.
    intros _ vs _. simpl. by rewrite <- list_fmap_compose.
  - apply Forall2_fmap_r. eapply Forall2_impl; [exact Hv |].
    intros loop vs Hl. apply Forall2_fmap_r. eapply Forall2_impl; [exact Hl |].
    intros e pt Hpt. apply plane_point_vertex. by exists pt.
  - intros _. apply Forall_fmap. apply Forall_forall. intros vs _.
    apply Forall_fmap. apply Forall_forall. intros pt _.
    change (Rabs (vz (local pt)) < 1 / 1000). rewrite Hzero, Rabs_R0. lra.
Qed.

Local Close Scope R_scope.

(** ** Without assertions *)

Lemma never_aborts_ret {A} (a : A) : never_aborts (ret a).
Proof. by intros s. Qed.

Lemma never_aborts_throw {A} : never_aborts (@throw A).
Proof. by intros s. Qed.

Lemma never_aborts_log (msg : ros_msg) : never_aborts (ros_log msg).
Proof. by intros s. Qed.

Lemma never_aborts_modify (f : MeshImporter → MeshImporter) : never_aborts (modify_self f).
Proof. by intros s. Qed.

Lemma never_aborts_get : never_aborts get_self.
Proof. by intros s. Qed.

Lemma never_aborts_vector_at {A} (v : list A) (i : nat) : never_aborts (vector_at v i).
Proof. unfold vector_at. by destruct (v !! i); intros s. Qed.

Lemma never_aborts_bind {A B} (m : M A) (k : A → M B) :
  never_aborts m → (∀ a, never_aborts (k a)) → never_aborts (bind m k).
Proof.
  intros Hm Hk s. unfold bind. specialize (Hm s).
  destruct (m s) as [[a | |] s1]; [apply Hk | done | done].
Qed.

Lemma never_aborts_if {A} (b : bool) (m1 m2 : M A) :
  never_aborts m1 → never_aborts m2 → never_aborts (if b then m1 else m2).
Proof. by destruct b. Qed.

Lemma never_aborts_assert (c : bool) :
  ROS_ASSERT_ENABLED = false → never_aborts (ROS_ASSERT c).
Proof. intros He. unfold ROS_ASSERT. rewrite He. apply never_aborts_ret. Qed.

Ltac never_aborts_step :=
  first
    [ apply never_aborts_ret | apply never_aborts_throw | apply never_aborts_log
    | apply never_aborts_modify | apply never_aborts_get | apply never_aborts_vector_at
    | apply never_aborts_assert; assumption
    | apply never_aborts_if
    | apply never_aborts_bind; [| intros ?] ].

Lemma never_aborts_vertices_loop (vertices : list N) :
  ∀ vi mesh m, never_aborts (vertices_loop vertices vi mesh m).
Proof.
  induction vertices as [| vidx rest IH]; intros vi mesh m; simpl.
  - apply never_aborts_ret.
  - destruct (bool_decide _); simpl;
      (apply never_aborts_bind; [| intros v; apply IH]);
      unfold left_at; destruct (bimap.left _ !! _); never_aborts_step.
Qed.

Lemma never_aborts_polygons_loop (polygons : list (list N)) :
  ∀ mesh m, never_aborts (polygons_loop polygons mesh m).
Proof.
  induction polygons as [| f rest IH]; intros mesh m; simpl.
  - apply never_aborts_ret.
  - apply never_aborts_if; [repeat never_aborts_step |].
    apply never_aborts_bind; [apply never_aborts_vertices_loop |].
    intros [[vi mesh'] m']. repeat never_aborts_step. apply IH.
Qed.

Lemma never_aborts_edges_loop points hplane plane_inverse mesh m (boundary : list nat) :
  ROS_ASSERT_ENABLED = false →
  ∀ pbound, never_aborts (edges_loop points hplane plane_inverse mesh m boundary pbound).
Proof.
  intros He. induction boundary as [| edge rest IH]; intros pbound; simpl.
  - apply never_aborts_ret.
  - apply never_aborts_bind.
    { unfold right_at. destruct (bimap.right m !! _); never_aborts_step. }
    intros idx. repeat never_aborts_step. apply IH.
Qed.

Lemma never_aborts_boundaries_loop points hplane plane_inverse mesh m
    (loops : list (list nat)) :
  ROS_ASSERT_ENABLED = false →
  never_aborts (boundaries_loop points hplane plane_inverse mesh m loops).
Proof.
  intros He. induction loops as [| boundary rest IH]; simpl.
  - apply never_aborts_ret.
  - apply never_aborts_bind; [by apply never_aborts_edges_loop |].
    intros pbound. apply never_aborts_bind; [apply never_aborts_modify |].
    intros _. apply IH.
Qed.

(** X15. With assertions compiled out no call is stopped on the way: it
    returns or it throws. *)
Theorem unasserted_call_never_aborts (input_mesh : PolygonMesh) (s : state) :
  ROS_ASSERT_ENABLED = false →
  fst (calculateBoundaryData input_mesh s) ≠ Aborted.
Proof.
  intros He. revert s. change (never_aborts (calculateBoundaryData input_mesh)).
  unfold calculateBoundaryData.
  apply never_aborts_bind; [apply never_aborts_modify | intros _].
  apply never_aborts_bind; [apply never_aborts_modify | intros _].
  apply never_aborts_bind.
  { unfold computePlaneCoefficients. repeat never_aborts_step. }
  intros [hplane |]; [| repeat never_aborts_step].
  apply never_aborts_bind; [apply never_aborts_get | intros me].
  apply never_aborts_bind; [repeat never_aborts_step | intros _].
  apply never_aborts_bind; [apply never_aborts_modify | intros _].
  apply never_aborts_bind; [apply never_aborts_polygons_loop |].
  intros [[mesh m] |]; [| apply never_aborts_ret].
  apply never_aborts_bind; [apply never_aborts_get | intros me'].
  apply never_aborts_bind; [by apply never_aborts_boundaries_loop | intros _].
  apply never_aborts_ret.
Qed.

End Importer.


(** ** Runs on the sample data *)

Local Open Scope R_scope.

Lemma centroid_triangle_cloud : compute3DCentroid triangle_cloud = centroid_z4.
Proof.
  unfold compute3DCentroid, triangle_cloud, centroid_z4, flat_point.
  cbn [points foldr length INR]. vcalc.
Qed.

Lemma full_fit_run (b : bool) (s : state) :
  computePlaneCoefficients b full_fit triangle_cloud s = (Returned (Some plane_z4), s).
Proof.
  rewrite (computePlaneCoefficients_fit b full_fit triangle_cloud s
             (flat_point 0 (-3)) [flat_point 6 0; flat_point 0 3] 0 0 1 (-4));
    [| reflexivity | reflexivity |].
  - cbv zeta.
    assert (Hdot : dot (V3 0 0 1) (point_normal (flat_point 0 (-3))) = 1)
      by (unfold flat_point; vunfold; lra).
    rewrite Hdot. rewrite (Rltb_false 1 0) by lra.
    rewrite Hdot. rewrite (Rltb_false 1 (cos EpsAngle)) by apply COS_bound.
    by rewrite append_log_nil.
  - unfold fraction_below_90. change (cloud_size triangle_cloud) with 3%N.
    rewrite decide_False by done. apply Rltb_false. simpl. lra.
Qed.

Lemma full_fit_fit (b : bool) : fit b full_fit triangle_cloud = Returned (Some plane_z4).
Proof. unfold fit. by rewrite full_fit_run. Qed.

Lemma full_fit_log (b : bool) : fit_log b full_fit triangle_cloud = [].
Proof. unfold fit_log. by rewrite full_fit_run. Qed.

Lemma full_fit_framed (b : bool) :
  framed b full_fit plane_z4 triangle_cloud state0 =
    mkState (mkImporter tilted_frame [] false) [].
Proof.
  unfold framed. by rewrite full_fit_log, centroid_triangle_cloud, localPlaneFrame_z4.
Qed.

Lemma build_triangle : build [[0; 1; 2]%N] = Returned (Some (triangle_mesh, triangle_map)).
Proof. reflexivity. Qed.

Lemma inverse_tilted_frame : inverse tilted_frame = tilted_inverse.
Proof.
  unfold tilted_frame, tilted_inverse. vunfold.
  f_equal; apply f_equal3; field.
Qed.

Lemma triangle_points_in_frame :
  Forall2 (Forall2 (λ e p,
             plane_point one_triangle_origin triangle_cloud plane_z4 tilted_inverse
                         triangle_mesh triangle_map e = Some p))
          (one_triangle_loops triangle_mesh) triangle_plane_points.
Proof.
  repeat constructor; unfold plane_point.
  - change (bimap.right triangle_map !! one_triangle_origin triangle_mesh 0)
      with (Some 0%N).
    change (points triangle_cloud !! N.to_nat 0) with (Some (flat_point 0 (-3))).
    f_equal. unfold flat_point, plane_z4, tilted_inverse. vcalc.
  - change (bimap.right triangle_map !! one_triangle_origin triangle_mesh 1)
      with (Some 1%N).
    change (points triangle_cloud !! N.to_nat 1) with (Some (flat_point 6 0)).
    f_equal. unfold flat_point, plane_z4, tilted_inverse. vcalc.
  - change (bimap.right triangle_map !! one_triangle_origin triangle_mesh 2)
      with (Some 2%N).
    change (points triangle_cloud !! N.to_nat 2) with (Some (flat_point 0 3)).
    f_equal. unfold flat_point, plane_z4, tilted_inverse. vcalc.
Qed.

Lemma triangle_residual_large :
  Exists (Exists (λ p, 1 / 1000 <= Rabs (vz p))) triangle_plane_points.
Proof.
  apply Exists_cons_hd, Exists_cons_hd. cbn [vz].
  rewrite Rabs_pos_eq; lra.
Qed.

Lemma triangle_points_in_call_frame :
  Forall2 (Forall2 (λ e p,
             plane_point one_triangle_origin (cloud triangle_input) plane_z4
               (inverse (localPlaneFrame plane_z4
                           (compute3DCentroid (cloud triangle_input)) Identity))
               triangle_mesh triangle_map e = Some p))
          (one_triangle_loops triangle_mesh) triangle_plane_points.
Proof.
  change (cloud triangle_input) with triangle_cloud.
  rewrite centroid_triangle_cloud, localPlaneFrame_z4, inverse_tilted_frame.
  exact triangle_points_in_frame.
Qed.

(** The call on the triangle, with and without assertions. *)
Lemma triangle_run_asserting :
  fst (calculateBoundaryData true full_fit one_triangle_loops one_triangle_origin
         triangle_input state0) = Aborted.
Proof.
  rewrite (calculateBoundaryData_built true full_fit one_triangle_loops one_triangle_origin
             triangle_input state0 plane_z4 triangle_mesh triangle_map
             (full_fit_fit true) build_triangle).
  cbv zeta.
  change (plane_frame_ (self (framed true full_fit plane_z4 (cloud triangle_input) state0)))
    with (localPlaneFrame plane_z4 (compute3DCentroid (cloud triangle_input)) Identity).
  destruct (boundaries_loop_stop true one_triangle_origin (cloud triangle_input) plane_z4 _
              triangle_mesh triangle_map _ triangle_plane_points
              (framed true full_fit plane_z4 (cloud triangle_input) state0)
              eq_refl triangle_points_in_call_frame triangle_residual_large)
    as (s' & Hrun & _).
  by rewrite Hrun.
Qed.

Lemma triangle_run_unchecked :
  calculateBoundaryData false full_fit one_triangle_loops one_triangle_origin
    triangle_input state0 =
  (Returned true,
   mkState (mkImporter tilted_frame
              [[(-10 / 3, -3); (20 / 3, 0); (-10 / 3, 3)]] false) []).
Proof.
  rewrite (calculateBoundaryData_built false full_fit one_triangle_loops one_triangle_origin
             triangle_input state0 plane_z4 triangle_mesh triangle_map
             (full_fit_fit false) build_triangle).
  cbv zeta.
  change (plane_frame_ (self (framed false full_fit plane_z4 (cloud triangle_input) state0)))
    with (localPlaneFrame plane_z4 (compute3DCentroid (cloud triangle_input)) Identity).
  rewrite (boundaries_loop_pass false one_triangle_origin (cloud triangle_input) plane_z4 _
             triangle_mesh triangle_map _ triangle_plane_points);
    [| exact triangle_points_in_call_frame | discriminate].
  change (cloud triangle_input) with triangle_cloud.
  by rewrite full_fit_framed.
Qed.

(** The call on the cloud of the triangle with no polygon at all. *)
Lemma faceless_run (b : bool) :
  calculateBoundaryData b full_fit one_triangle_loops one_triangle_origin
    faceless_input state0 =
  (Returned true, mkState (mkImporter tilted_frame [] false) []).
Proof.
  rewrite (calculateBoundaryData_built b full_fit one_triangle_loops one_triangle_origin
             faceless_input state0 plane_z4 emptyMesh bimap.empty
             (full_fit_fit b) eq_refl).
  change (cloud faceless_input) with triangle_cloud.
  by rewrite full_fit_framed.
Qed.

(** C1. On the plane z = 4 (unit normal (0, 0, 1), not close to the world
    X axis) with the centroid (2, 0, 4), [computeLocalPlaneFrame] writes a
    frame whose first column, the normalised projection of origin + X, is
    (3/5, 0, 4/5): its dot product with the plane normal is 4/5, not 0,
    and the frame is not orthonormal. *)
Theorem tilted_plane_frame_not_orthonormal :
  squaredNorm (normal plane_z4) = 1 ∧
  Rabs (dot (normal plane_z4) UnitX) < 8 / 10 ∧
  plane_frame_ (self (snd (computeLocalPlaneFrame plane_z4 centroid_z4 state0)))
    = tilted_frame ∧
  normalized (projection plane_z4 (vadd (projection plane_z4 centroid_z4) UnitX))
    = col0 tilted_frame ∧
  dot (col0 tilted_frame) (normal plane_z4) = 4 / 5 ∧
  ¬ orthonormal_right_handed tilted_frame.
Proof.
  split; [unfold plane_z4; vunfold; lra |].
  split; [unfold plane_z4; vunfold; rewrite Rabs_pos_eq; lra |].
  split; [unfold computeLocalPlaneFrame, modify_self; simpl; apply localPlaneFrame_z4 |].
  split.
  { assert (Hx : projection plane_z4 (vadd (projection plane_z4 centroid_z4) UnitX)
                 = V3 3 0 4) by (unfold plane_z4, centroid_z4; vcalc).
    rewrite Hx. rewrite (normalized_by (V3 3 0 4) 5) by (try lra; vunfold; lra).
    unfold tilted_frame. vcalc. }
  split; [unfold tilted_frame, plane_z4; vunfold; lra |].
  intros (_ & _ & _ & _ & _ & H & _). revert H.
  unfold tilted_frame. vunfold. lra.
Qed.

(** C9. On the triangle in the plane z = 4, with assertions compiled out,
    the call returns [true] with the frame [tilted_frame] and the loop
    (-10/3, -3), (20/3, 0), (-10/3, 3); the first of these points, taken
    back through the frame with local Z = 0, lands on (0, -3, 4/3), at
    distance 8/3 from the projected vertex (0, -3, 4) it came from. *)
Theorem round_trip_misses_on_tilted_frame :
  ∃ s',
    calculateBoundaryData false full_fit one_triangle_loops one_triangle_origin
      triangle_input state0 = (Returned true, s') ∧
    boundaries_ (self s') = [[(-10 / 3, -3); (20 / 3, 0); (-10 / 3, 3)]] ∧
    projection plane_z4 (position (flat_point 0 (-3))) = V3 0 (-3) 4 ∧
    transform (plane_frame_ (self s')) (V3 (-10 / 3) (-3) 0) = V3 0 (-3) (4 / 3) ∧
    distance (transform (plane_frame_ (self s')) (V3 (-10 / 3) (-3) 0))
             (projection plane_z4 (position (flat_point 0 (-3)))) = 8 / 3 ∧
    1 / 1000 < 8 / 3.
Proof.
  eexists. split; [exact triangle_run_unchecked |]. cbn [self boundaries_ plane_frame_].
  split; [reflexivity |].
  assert (Hp : projection plane_z4 (position (flat_point 0 (-3))) = V3 0 (-3) 4)
    by (unfold plane_z4, flat_point; vcalc).
  assert (Hb : transform tilted_frame (V3 (-10 / 3) (-3) 0) = V3 0 (-3) (4 / 3))
    by (unfold tilted_frame; vcalc).
  split; [exact Hp |]. split; [exact Hb |]. split; [| lra].
  rewrite Hp, Hb. unfold distance.
  apply norm_of_square; [lra |]. vunfold. field.
Qed.

(** C2, refuted as stated: the first boundary vertex of the triangle has
    local Z 8/3 in the frame of the call, yet the call does not return
    [false]: it is stopped by the assertion, or returns [true] when
    assertions are compiled out. *)
Lemma residual_not_returned :
  plane_point one_triangle_origin (cloud triangle_input) plane_z4
    (inverse (localPlaneFrame plane_z4 (compute3DCentroid (cloud triangle_input)) Identity))
    triangle_mesh triangle_map 0 = Some (V3 (-10 / 3) (-3) (8 / 3)) ∧
  1 / 1000 <= Rabs (8 / 3) ∧
  fst (calculateBoundaryData true full_fit one_triangle_loops one_triangle_origin
         triangle_input state0) = Aborted ∧
  fst (calculateBoundaryData false full_fit one_triangle_loops one_triangle_origin
         triangle_input state0) = Returned true.
Proof.
  split.
  { pose proof triangle_points_in_call_frame as H.
    apply Forall2_cons_1 in H as [H _]. by apply Forall2_cons_1 in H as [H _]. }
  split; [rewrite Rabs_pos_eq; lra |].
  split; [exact triangle_run_asserting |].
  by rewrite triangle_run_unchecked.
Qed.

Lemma residual_is_asserted_witness :
  fst (calculateBoundaryData true full_fit one_triangle_loops one_triangle_origin
         triangle_input state0) = Aborted ∧
  rosout (snd (calculateBoundaryData true full_fit one_triangle_loops one_triangle_origin
                 triangle_input state0)) =
    FATAL_assertion_failed :: rosout (framed true full_fit plane_z4 (cloud triangle_input) state0).
Proof.
  exact (residual_is_asserted true full_fit one_triangle_loops one_triangle_origin
           triangle_input state0 plane_z4 triangle_mesh triangle_map triangle_plane_points
           (full_fit_fit true) build_triangle
           triangle_points_in_call_frame triangle_residual_large).
Defined.

(** C3, refuted as stated: with three points and no polygon the call
    returns [true]. *)
Lemma faceless_input_returns_true :
  points (cloud faceless_input) ≠ [] ∧
  polygons faceless_input = [] ∧
  fst (calculateBoundaryData true full_fit one_triangle_loops one_triangle_origin
         faceless_input state0) = Returned true ∧
  fst (calculateBoundaryData false full_fit one_triangle_loops one_triangle_origin
         faceless_input state0) = Returned true.
Proof.
  split; [done |]. split; [done |]. by rewrite !faceless_run.
Qed.

Lemma empty_input_outcomes_witness :
  calculateBoundaryData true full_fit one_triangle_loops one_triangle_origin
    faceless_input state0 =
    (Returned true, framed true full_fit plane_z4 (cloud faceless_input) state0) ∧
  boundaries_ (self (framed true full_fit plane_z4 (cloud faceless_input) state0)) = [].
Proof.
  exact (proj2 (proj2 (empty_input_outcomes true full_fit one_triangle_loops
                         one_triangle_origin faceless_input state0) eq_refl)
               plane_z4 (full_fit_fit true) eq_refl).
Defined.

Lemma plane_fit_inlier_fraction_witness :
  computePlaneCoefficients true sparse_fit triangle_cloud state0 =
    (Returned None, append_log [WARN_less_than_90_percent] state0) ∧
  calculateBoundaryData true sparse_fit one_triangle_loops one_triangle_origin
    (mkPolygonMesh triangle_cloud [[0; 1; 2]%N]) state0 =
    (Returned false,
     append_log [WARN_could_not_compute_plane; WARN_less_than_90_percent] (reset state0)).
Proof.
  assert (Hp : points triangle_cloud ≠ []) by discriminate.
  assert (Hdim : (height triangle_cloud * width triangle_cloud)%N =
                 N.of_nat (length (points triangle_cloud))) by reflexivity.
  assert (Hlt : (N.of_nat (length (points triangle_cloud)) < 2 ^ 32)%N) by reflexivity.
  assert (Hlen : true = true → length (values (sparse_fit triangle_cloud)) = 4%nat)
    by reflexivity.
  destruct (plane_fit_inlier_fraction true sparse_fit one_triangle_loops
              one_triangle_origin triangle_cloud state0 Hp Hdim Hlt Hlen)
    as [Hiff Hcall].
  assert (Hfr : INR (length (indices (sparse_fit triangle_cloud))) /
                INR (length (points triangle_cloud)) < 9 / 10)
    by (simpl; lra).
  split; [by apply Hiff | by apply Hcall].
Defined.

Lemma normal_orientation_witness :
  computePlaneCoefficients true reversed_fit triangle_cloud state0 =
    (Returned (Some (mkHyperplane (vscale (-1) (V3 0 0 (-1))) 4)),
     append_log [WARN_flipping_normal] state0).
Proof.
  assert (Hfrac : fraction_below_90 (length (indices (reversed_fit triangle_cloud)))
                    (cloud_size triangle_cloud) = false).
  { unfold fraction_below_90. change (cloud_size triangle_cloud) with 3%N.
    rewrite decide_False by done. apply Rltb_false. simpl. lra. }
  destruct (normal_orientation true reversed_fit triangle_cloud state0
              (flat_point 0 (-3)) [flat_point 6 0; flat_point 0 3] 0 0 (-1) 4
              eq_refl eq_refl Hfrac)
    as (flipped & corrected & Hflip & Hcorr & Habs & _ & Hok).
  assert (Hdot : dot (V3 0 0 (-1)) (point_normal (flat_point 0 (-3))) = -1)
    by (unfold flat_point; vunfold; lra).
  assert (Hf : flipped = true) by (apply Hflip; lra).
  rewrite Hf in Hcorr, Hok. rewrite <- Hcorr.
  apply Hok. rewrite Habs, Hdot, Rabs_left by lra.
  pose proof (COS_bound EpsAngle). lra.
Defined.

Lemma non_triangular_face_aborts_witness :
  let run := calculateBoundaryData true full_fit one_triangle_loops one_triangle_origin
               quad_input state0 in
  fst run ≠ Returned true ∧
  boundaries_ (self (snd run)) = [] ∧
  ∀ h, fit true full_fit (cloud quad_input) = Returned (Some h) →
       fst run = Returned false ∧
       rosout (snd run) =
         ERROR_polygon_sides 4 :: rosout (framed true full_fit h (cloud quad_input) state0).
Proof.
  apply (non_triangular_face_aborts true full_fit one_triangle_loops one_triangle_origin
           quad_input state0 [[0; 1; 2]%N] [0; 1; 2; 2]%N [[2; 1; 0]%N]).
  - reflexivity.
  - repeat constructor.
  - simpl. lia.
Defined.

Lemma plane_frame_invariant_witness :
  orthogonal_projection plane_z4 (compute3DCentroid (cloud triangle_input))
    (translation tilted_frame) ∧
  col2 tilted_frame = normal plane_z4.
Proof.
  apply (plane_frame_invariant false full_fit one_triangle_loops one_triangle_origin
           triangle_input state0
           (mkState (mkImporter tilted_frame
                       [[(-10 / 3, -3); (20 / 3, 0); (-10 / 3, 3)]] false) [])
           plane_z4).
  - exact triangle_run_unchecked.
  - exact (full_fit_fit false).
  - unfold plane_z4. vunfold. lra.
Defined.

Lemma mesh_builder_merges_indices_witness :
  ∃ mesh m,
    polygons_loop [[0; 1; 2]%N; [2; 1; 3]%N] emptyMesh bimap.empty state0
      = (Returned (Some (mesh, m)), state0) ∧
    (∀ k v, bimap.left m !! k = Some v ↔ bimap.right m !! v = Some k) ∧
    (∀ k, is_Some (bimap.left m !! k) ↔ k ∈ concat [[0; 1; 2]%N; [2; 1; 3]%N]) ∧
    (∀ v, is_Some (bimap.right m !! v) ↔ (v < sizeVertices mesh)%nat) ∧
    sizeVertices mesh = size (list_to_set (concat [[0; 1; 2]%N; [2; 1; 3]%N]) : gset N) ∧
    (∀ k v, bimap.left m !! k = Some v ↔ handle_of (concat [[0; 1; 2]%N; [2; 1; 3]%N]) k v) ∧
    Forall2 (λ f t, Forall2 (λ k v, bimap.left m !! k = Some v) f [t.1.1; t.1.2; t.2])
            [[0; 1; 2]%N; [2; 1; 3]%N] (faces mesh).
Proof.
  apply (mesh_builder_merges_indices [[0; 1; 2]%N; [2; 1; 3]%N] state0).
  repeat constructor.
Defined.

Lemma quad_run (b : bool) :
  calculateBoundaryData b full_fit one_triangle_loops one_triangle_origin quad_input state0 =
  (Returned false, mkState (mkImporter tilted_frame [] false) [ERROR_polygon_sides 4]).
Proof.
  rewrite (calculateBoundaryData_bad_face b full_fit one_triangle_loops one_triangle_origin
             quad_input state0 [[0; 1; 2]%N] [0; 1; 2; 2]%N [[2; 1; 0]%N] plane_z4
             eq_refl);
    [| repeat constructor | simpl; lia | exact (full_fit_fit b)].
  change (cloud quad_input) with triangle_cloud.
  by rewrite full_fit_framed.
Qed.

Lemma failure_keeps_new_frame_witness :
  let s' := mkState (mkImporter tilted_frame [] false) [ERROR_polygon_sides 4] in
  boundaries_ (self s') = [] ∧
  ((fit true full_fit (cloud quad_input) = Returned None ∧
    plane_frame_ (self s') = Identity) ∨
   (∃ h, fit true full_fit (cloud quad_input) = Returned (Some h) ∧
         Exists (λ f, length f ≠ 3%nat) (polygons quad_input) ∧
         plane_frame_ (self s') =
           localPlaneFrame h (compute3DCentroid (cloud quad_input)) Identity)).
Proof.
  apply (failure_keeps_new_frame true full_fit one_triangle_loops one_triangle_origin
           quad_input state0).
  exact (quad_run true).
Defined.

(** The frame left by the failing call on [quad_input] is not the identity
    it was reset to on entry. *)
Lemma tilted_frame_not_identity : tilted_frame ≠ Identity.
Proof.
  intros H. apply (f_equal (λ t, vx (col0 t))) in H.
  unfold tilted_frame, Identity, UnitX in H. cbn [col0 vx] in H. lra.
Qed.

(** ** Runs on the triangle in the plane z = 0 *)

Lemma centroid_ground_cloud : compute3DCentroid ground_cloud = V3 2 0 0.
Proof.
  unfold compute3DCentroid, ground_cloud, ground_point.
  cbn [points foldr length INR]. vcalc.
Qed.

Lemma localPlaneFrame_z0 (frame : Affine3d) :
  localPlaneFrame plane_z0 (V3 2 0 0) frame = ground_frame.
Proof.
  unfold localPlaneFrame.
  assert (Ho : projection plane_z0 (V3 2 0 0) = V3 2 0 0) by (unfold plane_z0; vcalc).
  rewrite Ho.
  assert (Hx : projection plane_z0 (vadd (V3 2 0 0) UnitX) = V3 3 0 0)
    by (unfold plane_z0; vcalc).
  rewrite Hx.
  rewrite Rltb_true by (unfold plane_z0; vunfold; rewrite Rabs_pos_eq; lra).
  rewrite (normalized_unit (normal plane_z0)) by (unfold plane_z0; vunfold; lra).
  rewrite (normalized_by (V3 3 0 0) 3) by (try lra; vunfold; lra).
  assert (Hc : cross (normal plane_z0) (vscale (/ 3) (V3 3 0 0)) = V3 0 1 0)
    by (unfold plane_z0; vcalc).
  rewrite Hc.
  rewrite (normalized_unit (V3 0 1 0)) by (vunfold; lra).
  unfold ground_frame, plane_z0. vunfold. f_equal; vcalc.
Qed.

Lemma ground_fit_run (b : bool) (s : state) :
  computePlaneCoefficients b ground_fit ground_cloud s = (Returned (Some plane_z0), s).
Proof.
  rewrite (computePlaneCoefficients_fit b ground_fit ground_cloud s
             (ground_point 0 (-3)) [ground_point 6 0; ground_point 0 3] 0 0 1 0);
    [| reflexivity | reflexivity |].
  - cbv zeta.
    assert (Hdot : dot (V3 0 0 1) (point_normal (ground_point 0 (-3))) = 1)
      by (unfold ground_point; vunfold; lra).
    rewrite Hdot. rewrite (Rltb_false 1 0) by lra.
    rewrite Hdot. rewrite (Rltb_false 1 (cos EpsAngle)) by apply COS_bound.
    by rewrite append_log_nil.
  - unfold fraction_below_90. change (cloud_size ground_cloud) with 3%N.
    rewrite decide_False by done. apply Rltb_false. simpl. lra.
Qed.

Lemma ground_fit_fit (b : bool) : fit b ground_fit ground_cloud = Returned (Some plane_z0).
Proof. unfold fit. by rewrite ground_fit_run. Qed.

Lemma ground_fit_framed (b : bool) :
  framed b ground_fit plane_z0 ground_cloud state0 =
    mkState (mkImporter ground_frame [] false) [].
Proof.
  unfold framed, fit_log. rewrite ground_fit_run. simpl.
  by rewrite centroid_ground_cloud, localPlaneFrame_z0.
Qed.

Lemma inverse_ground_frame : inverse ground_frame = ground_inverse.
Proof.
  unfold ground_frame, ground_inverse. vunfold. f_equal; apply f_equal3; field.
Qed.

Lemma ground_call_frame :
  localPlaneFrame plane_z0 (compute3DCentroid (cloud ground_input)) Identity = ground_frame.
Proof.
  change (cloud ground_input) with ground_cloud.
  by rewrite centroid_ground_cloud, localPlaneFrame_z0.
Qed.

Lemma determinant_ground_frame : determinant ground_frame ≠ 0.
Proof. unfold ground_frame. vunfold. lra. Qed.

Lemma ground_vertices :
  Forall2 (Forall2 (λ e pt,
             boundary_vertex one_triangle_origin (cloud ground_input)
                             triangle_mesh triangle_map e = Some pt))
          (one_triangle_loops triangle_mesh)
          [[ground_point 0 (-3); ground_point 6 0; ground_point 0 3]].
Proof. repeat constructor. Qed.

Lemma ground_points_in_frame :
  Forall2 (Forall2 (λ e p,
             plane_point one_triangle_origin (cloud ground_input) plane_z0
                         (inverse ground_frame) triangle_mesh triangle_map e = Some p))
          (one_triangle_loops triangle_mesh)
          [[V3 (-2) (-3) 0; V3 4 0 0; V3 (-2) 3 0]].
Proof.
  rewrite inverse_ground_frame.
  repeat constructor; apply plane_point_vertex.
  - exists (ground_point 0 (-3)). split; [reflexivity |].
    unfold ground_point, plane_z0, ground_inverse. vcalc.
  - exists (ground_point 6 0). split; [reflexivity |].
    unfold ground_point, plane_z0, ground_inverse. vcalc.
  - exists (ground_point 0 3). split; [reflexivity |].
    unfold ground_point, plane_z0, ground_inverse. vcalc.
Qed.

(** The call on the triangle in the plane z = 0, assertions compiled in. *)
Lemma ground_run :
  calculateBoundaryData true ground_fit one_triangle_loops one_triangle_origin
    ground_input state0 =
  (Returned true,
   mkState (mkImporter ground_frame [[(-2, -3); (4, 0); (-2, 3)]] false) []).
Proof.
  rewrite (calculateBoundaryData_built true ground_fit one_triangle_loops one_triangle_origin
             ground_input state0 plane_z0 triangle_mesh triangle_map
             (ground_fit_fit true) build_triangle).
  cbv zeta.
  change (cloud ground_input) with ground_cloud. rewrite ground_fit_framed.
  cbn [self plane_frame_].
  rewrite (boundaries_loop_pass true one_triangle_origin ground_cloud plane_z0 _
             triangle_mesh triangle_map _ [[V3 (-2) (-3) 0; V3 4 0 0; V3 (-2) 3 0]]).
  - reflexivity.
  - exact ground_points_in_frame.
  - intros _. repeat constructor; cbn [vz]; rewrite Rabs_R0; lra.
Qed.

(** ** Instances of the further properties *)

Lemma estimator_success_postcondition_witness :
  ∃ p0 rest c0 c1 c2 c3 cs,
    points ground_cloud = p0 :: rest ∧
    values (ground_fit ground_cloud) = c0 :: c1 :: c2 :: c3 :: cs ∧
    (true = true → cs = []) ∧
    fraction_below_90 (length (indices (ground_fit ground_cloud))) (cloud_size ground_cloud)
      = false ∧
    offset plane_z0 = c3 ∧
    ((0 <= dot (V3 c0 c1 c2) (point_normal p0) ∧ normal plane_z0 = V3 c0 c1 c2) ∨
     (dot (V3 c0 c1 c2) (point_normal p0) < 0 ∧ normal plane_z0 = vscale (-1) (V3 c0 c1 c2))) ∧
    cos EpsAngle <= dot (normal plane_z0) (point_normal p0).
Proof.
  exact (estimator_success_postcondition true ground_fit ground_cloud plane_z0
           (ground_fit_fit true)).
Defined.

Lemma reversed_fit_fit (b : bool) :
  fit b reversed_fit triangle_cloud =
    Returned (Some (mkHyperplane (vscale (-1) (V3 0 0 (-1))) 4)).
Proof.
  unfold fit.
  rewrite (computePlaneCoefficients_fit b reversed_fit triangle_cloud state0
             (flat_point 0 (-3)) [flat_point 6 0; flat_point 0 3] 0 0 (-1) 4);
    [| reflexivity | reflexivity |].
  - cbv zeta.
    assert (Hdot : dot (V3 0 0 (-1)) (point_normal (flat_point 0 (-3))) = -1)
      by (unfold flat_point; vunfold; lra).
    rewrite Hdot. rewrite (Rltb_true (-1) 0) by lra.
    assert (Hdot' : dot (vscale (-1) (V3 0 0 (-1))) (point_normal (flat_point 0 (-3))) = 1)
      by (unfold flat_point; vunfold; lra).
    rewrite Hdot'. by rewrite (Rltb_false 1 (cos EpsAngle)) by apply COS_bound.
  - unfold fraction_below_90. change (cloud_size triangle_cloud) with 3%N.
    rewrite decide_False by done. apply Rltb_false. simpl. lra.
Qed.

(** The first point of the cloud, which lies in the fitted plane z = 4, is
    at signed distance 8 from the plane returned after the flip. *)
Lemma flipped_plane_is_mirrored_witness :
  signedDistance (mkHyperplane (vscale (-1) (V3 0 0 (-1))) 4) (V3 0 (-3) 4) =
    2 * 4 - signedDistance (mkHyperplane (V3 0 0 (-1)) 4) (V3 0 (-3) 4).
Proof.
  apply (flipped_plane_is_mirrored true reversed_fit triangle_cloud _
           (flat_point 0 (-3)) [flat_point 6 0; flat_point 0 3] 0 0 (-1) 4
           eq_refl eq_refl (reversed_fit_fit true) (V3 0 (-3) 4)).
  unfold flat_point. vunfold. lra.
Defined.

Lemma no_model_outcome_witness :
  calculateBoundaryData true no_fit one_triangle_loops one_triangle_origin
    triangle_input state0 =
    (Aborted, append_log [FATAL_assertion_failed] (reset state0)).
Proof.
  apply (no_model_outcome true no_fit one_triangle_loops one_triangle_origin
           triangle_input state0).
  - discriminate.
  - discriminate.
  - reflexivity.
Defined.

Lemma builder_extends_witness :
  (∀ k v, bimap.left triangle_map !! k = Some v →
          bimap.left two_triangle_map !! k = Some v) ∧
  (∀ v k, bimap.right triangle_map !! v = Some k →
          bimap.right two_triangle_map !! v = Some k) ∧
  (sizeVertices triangle_mesh ≤ sizeVertices two_triangle_mesh)%nat ∧
  ∃ ts, faces two_triangle_mesh = faces triangle_mesh ++ ts ∧
        length ts = length [[2; 1; 3]%N].
Proof.
  apply (builder_extends [[0; 1; 2]%N] [[2; 1; 3]%N]); reflexivity.
Defined.

Lemma returned_true_postcondition_witness :
  let s' := mkState (mkImporter ground_frame [[(-2, -3); (4, 0); (-2, 3)]] false) [] in
  ∃ h mesh m (vss : list (list PointType)),
    fit true ground_fit (cloud ground_input) = Returned (Some h) ∧
    build (polygons ground_input) = Returned (Some (mesh, m)) ∧
    Forall2 (Forall2 (λ e pt,
               boundary_vertex one_triangle_origin (cloud ground_input) mesh m e = Some pt))
            (one_triangle_loops mesh) vss ∧
    boundaries_ (self s') =
      map (map (λ pt, xy (transform (inverse (plane_frame_ (self s')))
                                    (projection h (position pt))))) vss ∧
    length (boundaries_ (self s')) = length (one_triangle_loops mesh) ∧
    Forall2 (λ loop pbound, length pbound = length loop)
            (one_triangle_loops mesh) (boundaries_ (self s')).
Proof.
  exact (returned_true_postcondition true ground_fit one_triangle_loops one_triangle_origin
           ground_input state0 _ ground_run).
Defined.

Lemma round_trip_when_asserted_witness :
  ∃ h mesh m,
    fit true ground_fit (cloud ground_input) = Returned (Some h) ∧
    build (polygons ground_input) = Returned (Some (mesh, m)) ∧
    ∀ loop e pt,
      loop ∈ one_triangle_loops mesh → e ∈ loop →
      boundary_vertex one_triangle_origin (cloud ground_input) mesh m e = Some pt →
      let q := projection h (position pt) in
      let p := transform (inverse ground_frame) q in
      Rabs (vz p) < 1 / 1000 ∧
      distance (transform ground_frame (V3 (vx p) (vy p) 0)) q < 1 / 1000.
Proof.
  apply (round_trip_when_asserted true ground_fit one_triangle_loops one_triangle_origin
           ground_input state0 _ eq_refl ground_run).
  - exact determinant_ground_frame.
  - cbn [self plane_frame_]. unfold ground_frame. vunfold. lra.
Defined.

Lemma stray_call_frame :
  localPlaneFrame plane_z0 (compute3DCentroid (cloud stray_input)) Identity = ground_frame.
Proof.
  change (cloud stray_input) with ground_cloud.
  by rewrite centroid_ground_cloud, localPlaneFrame_z0.
Qed.

Lemma stray_points_in_frame :
  Forall2 (λ e p,
             plane_point one_triangle_origin (cloud stray_input) plane_z0
               (inverse (localPlaneFrame plane_z0
                           (compute3DCentroid (cloud stray_input)) Identity))
               triangle_mesh stray_map e = Some p)
          [0%nat; 1%nat] [V3 (-2) (-3) 0; V3 4 0 0].
Proof.
  rewrite stray_call_frame, inverse_ground_frame.
  repeat constructor; apply plane_point_vertex.
  - exists (ground_point 0 (-3)). split; [reflexivity |].
    unfold ground_point, plane_z0, ground_inverse. vcalc.
  - exists (ground_point 6 0). split; [reflexivity |].
    unfold ground_point, plane_z0, ground_inverse. vcalc.
Qed.

Lemma unreadable_vertex_throws_witness :
  calculateBoundaryData true ground_fit one_triangle_loops one_triangle_origin
    stray_input state0 =
    (Thrown_out_of_range,
     push_boundaries (map (map xy) [])
       (framed true ground_fit plane_z0 (cloud stray_input) state0)).
Proof.
  apply (unreadable_vertex_throws true ground_fit one_triangle_loops one_triangle_origin
           stray_input state0 plane_z0 triangle_mesh stray_map
           [] [] [0%nat; 1%nat] [V3 (-2) (-3) 0; V3 4 0 0] 2%nat [] []).
  - exact (ground_fit_fit true).
  - reflexivity.
  - reflexivity.
  - constructor.
  - exact stray_points_in_frame.
  - reflexivity.
  - intros _. repeat constructor; cbn [vz]; rewrite Rabs_R0; lra.
Defined.

Lemma frame_cross_column_perpendicular_witness :
  dot (col1 (localPlaneFrame plane_z4 centroid_z4 Identity))
      (col0 (localPlaneFrame plane_z4 centroid_z4 Identity)) = 0 ∧
  dot (col1 (localPlaneFrame plane_z4 centroid_z4 Identity))
      (col2 (localPlaneFrame plane_z4 centroid_z4 Identity)) = 0.
Proof.
  apply (frame_cross_column_perpendicular plane_z4 centroid_z4 Identity).
  unfold plane_z4. vunfold. rewrite Rabs_pos_eq; lra.
Defined.

Lemma frame_determinant_positive_witness :
  determinant (localPlaneFrame plane_z4 centroid_z4 Identity) =
    norm (cross (col2 (localPlaneFrame plane_z4 centroid_z4 Identity))
                (col0 (localPlaneFrame plane_z4 centroid_z4 Identity))) ∧
  0 < determinant (localPlaneFrame plane_z4 centroid_z4 Identity).
Proof.
  apply (frame_determinant_positive plane_z4 centroid_z4 Identity).
  - unfold plane_z4. vunfold. rewrite Rabs_pos_eq; lra.
  - rewrite localPlaneFrame_z4. unfold tilted_frame. vunfold. lra.
Defined.

Lemma frame_orthonormal_through_origin_witness :
  orthonormal_right_handed (localPlaneFrame plane_z0 (V3 2 0 0) Identity).
Proof.
  apply (frame_orthonormal_through_origin plane_z0 (V3 2 0 0) Identity).
  - unfold plane_z0. vunfold. lra.
  - reflexivity.
  - rewrite Rltb_true by (unfold plane_z0; vunfold; rewrite Rabs_pos_eq; lra).
    unfold plane_z0. vunfold. lra.
Defined.

Lemma residual_is_offset_times_axis_witness :
  let p := transform (inverse (localPlaneFrame plane_z4 centroid_z4 Identity))
             (projection plane_z4 (V3 0 (-3) 4)) in
  vz p = vx p * (offset plane_z4 /
                 norm (projection plane_z4 (vadd (projection plane_z4 centroid_z4) UnitX))).
Proof.
  apply (residual_is_offset_times_axis plane_z4 centroid_z4 Identity (V3 0 (-3) 4)).
  - unfold plane_z4. vunfold. lra.
  - rewrite localPlaneFrame_z4. unfold tilted_frame. vunfold. lra.
  - unfold plane_z4. vunfold. rewrite Rabs_pos_eq; lra.
Defined.

Lemma through_origin_call_succeeds_witness :
  calculateBoundaryData true ground_fit one_triangle_loops one_triangle_origin
    ground_input state0 =
    (Returned true,
     push_boundaries
       (map (map (λ pt, xy (transform
                              (inverse (localPlaneFrame plane_z0
                                          (compute3DCentroid (cloud ground_input)) Identity))
                              (projection plane_z0 (position pt)))))
            [[ground_point 0 (-3); ground_point 6 0; ground_point 0 3]])
       (framed true ground_fit plane_z0 (cloud ground_input) state0)).
Proof.
  apply (through_origin_call_succeeds true ground_fit one_triangle_loops one_triangle_origin
           ground_input state0 plane_z0 triangle_mesh triangle_map).
  - exact (ground_fit_fit true).
  - unfold plane_z0. vunfold. lra.
  - reflexivity.
  - exact build_triangle.
  - rewrite ground_call_frame. exact determinant_ground_frame.
  - exact ground_vertices.
Defined.

Lemma unasserted_call_never_aborts_witness :
  fst (calculateBoundaryData false full_fit one_triangle_loops one_triangle_origin
         triangle_input state0) ≠ Aborted.
Proof.
  exact (unasserted_call_never_aborts false full_fit one_triangle_loops one_triangle_origin
           triangle_input state0 eq_refl).
Defined.

(** ** Where the estimator decides the call *)

Lemma no_fit_run (s : state) :
  computePlaneCoefficients true no_fit triangle_cloud s =
    (Aborted, append_log [FATAL_assertion_failed] s).
Proof.
  apply computePlaneCoefficients_no_model; [discriminate | reflexivity | discriminate].
Qed.

(** C4, refuted as stated: on a cloud of three points for which the fit
    found no model, the fraction of inliers is 0, below 0.9, yet with
    assertions compiled in the estimator does not return [false]: it is
    stopped by the assertion on the number of coefficients, and so is the
    whole call. *)
Lemma no_model_is_not_insufficient_fit :
  points triangle_cloud ≠ [] ∧
  INR (length (indices (no_fit triangle_cloud))) / INR (length (points triangle_cloud))
    < 9 / 10 ∧
  computePlaneCoefficients true no_fit triangle_cloud state0 =
    (Aborted, append_log [FATAL_assertion_failed] state0) ∧
  calculateBoundaryData true no_fit one_triangle_loops one_triangle_origin
    triangle_input state0 =
    (Aborted, mkState (mkImporter Identity [] false) [FATAL_assertion_failed]).
Proof.
  split; [discriminate |]. split; [simpl; lra |].
  split; [apply no_fit_run |].
  rewrite calculateBoundaryData_fit_aborted.
  - change (cloud triangle_input) with triangle_cloud.
    unfold fit_log. by rewrite no_fit_run.
  - change (cloud triangle_input) with triangle_cloud.
    unfold fit. by rewrite no_fit_run.
Qed.

Lemma sparse_fit_run (b : bool) (s : state) :
  computePlaneCoefficients b sparse_fit triangle_cloud s =
    (Returned None, append_log [WARN_less_than_90_percent] s).
Proof.
  apply computePlaneCoefficients_below; [discriminate | reflexivity |].
  unfold fraction_below_90. change (cloud_size triangle_cloud) with 3%N.
  rewrite decide_False by done. apply Rltb_true. simpl. lra.
Qed.

(** C6, refuted as stated: [quad_input] has a polygon of four indices, yet
    with the fit that keeps two points out of three the call returns
    [false] from the estimator, with the estimator's two warnings and no
    message about the polygon. *)
Lemma quad_input_fails_in_estimator :
  Exists (λ f, length f ≠ 3%nat) (polygons quad_input) ∧
  calculateBoundaryData true sparse_fit one_triangle_loops one_triangle_origin
    quad_input state0 =
    (Returned false,
     mkState (mkImporter Identity [] false)
             [WARN_could_not_compute_plane; WARN_less_than_90_percent]).
Proof.
  split.
  { apply Exists_cons_tl, Exists_cons_hd. simpl. lia. }
  rewrite calculateBoundaryData_fit_failed.
  - change (cloud quad_input) with triangle_cloud.
    unfold fit_log. by rewrite sparse_fit_run.
  - change (cloud quad_input) with triangle_cloud.
    unfold fit. by rewrite sparse_fit_run.
Qed.

(** ** The frame after a flip *)

Lemma reversed_fit_run (b : bool) (s : state) :
  computePlaneCoefficients b reversed_fit triangle_cloud s =
    (Returned (Some flipped_plane), append_log [WARN_flipping_normal] s).
Proof.
  rewrite (computePlaneCoefficients_fit b reversed_fit triangle_cloud s
             (flat_point 0 (-3)) [flat_point 6 0; flat_point 0 3] 0 0 (-1) 4);
    [| reflexivity | reflexivity |].
  - cbv zeta.
    assert (Hdot : dot (V3 0 0 (-1)) (point_normal (flat_point 0 (-3))) = -1)
      by (unfold flat_point; vunfold; lra).
    rewrite Hdot. rewrite (Rltb_true (-1) 0) by lra.
    assert (Hdot' : dot (vscale (-1) (V3 0 0 (-1))) (point_normal (flat_point 0 (-3))) = 1)
      by (unfold flat_point; vunfold; lra).
    rewrite Hdot'. by rewrite (Rltb_false 1 (cos EpsAngle)) by apply COS_bound.
  - unfold fraction_below_90. change (cloud_size triangle_cloud) with 3%N.
    rewrite decide_False by done. apply Rltb_false. simpl. lra.
Qed.

Lemma reversed_fit_flipped (b : bool) :
  fit b reversed_fit triangle_cloud = Returned (Some flipped_plane).
Proof. unfold fit. by rewrite reversed_fit_run. Qed.

Lemma flipped_origin (frame : Affine3d) :
  translation (localPlaneFrame flipped_plane (compute3DCentroid triangle_cloud) frame)
    = V3 2 0 (-4).
Proof.
  rewrite localPlaneFrame_translation, centroid_triangle_cloud.
  unfold flipped_plane, centroid_z4. vcalc.
Qed.

(** The call on the cloud in z = 4 with the reversed fit: no polygon and
    assertions compiled in, or the triangle and assertions compiled out. *)
Lemma flipped_faceless_run :
  calculateBoundaryData true reversed_fit one_triangle_loops one_triangle_origin
    faceless_input state0 =
  (Returned true, framed true reversed_fit flipped_plane triangle_cloud state0).
Proof.
  by rewrite (calculateBoundaryData_built true reversed_fit one_triangle_loops
                one_triangle_origin faceless_input state0 flipped_plane emptyMesh bimap.empty
                (reversed_fit_flipped true) eq_refl).
Qed.

Lemma flipped_triangle_run :
  ∃ bs,
    calculateBoundaryData false reversed_fit one_triangle_loops one_triangle_origin
      triangle_input state0 =
    (Returned true,
     push_boundaries bs (framed false reversed_fit flipped_plane triangle_cloud state0)).
Proof.
  rewrite (calculateBoundaryData_built false reversed_fit one_triangle_loops
             one_triangle_origin triangle_input state0 flipped_plane
             triangle_mesh triangle_map (reversed_fit_flipped false) build_triangle).
  cbv zeta.
  set (inv := inverse _).
  set (local := λ pt : PointType, transform inv (projection flipped_plane (position pt))).
  exists (map (map xy)
            [[local (flat_point 0 (-3)); local (flat_point 6 0); local (flat_point 0 3)]]).
  rewrite (boundaries_loop_pass false one_triangle_origin (cloud triangle_input)
             flipped_plane inv triangle_mesh triangle_map _
             [[local (flat_point 0 (-3)); local (flat_point 6 0); local (flat_point 0 3)]]).
  - reflexivity.
  - repeat constructor; apply plane_point_vertex; eexists; (split; [reflexivity | reflexivity]).
  - discriminate.
Qed.

(** C7. The three points of the cloud and their centroid (2, 0, 4) lie in
    the fitted plane z = 4, which the fit wrote with the normal (0, 0, -1)
    and the offset 4.  The estimator negates the normal and keeps the
    offset, with a warning, and the call, which returns [true], leaves a
    frame whose origin is (2, 0, -4): at signed distance 8 from the fitted
    plane, not the foot of the perpendicular from the centroid to it,
    which is the centroid itself. *)
Theorem flipped_frame_origin_off_fitted_plane :
  Forall (λ pt, signedDistance reversed_plane (position pt) = 0) (points triangle_cloud) ∧
  compute3DCentroid triangle_cloud = V3 2 0 4 ∧
  orthogonal_projection reversed_plane (compute3DCentroid triangle_cloud) (V3 2 0 4) ∧
  computePlaneCoefficients true reversed_fit triangle_cloud state0 =
    (Returned (Some flipped_plane), append_log [WARN_flipping_normal] state0) ∧
  (∃ s',
     calculateBoundaryData true reversed_fit one_triangle_loops one_triangle_origin
       faceless_input state0 = (Returned true, s') ∧
     translation (plane_frame_ (self s')) = V3 2 0 (-4) ∧
     signedDistance reversed_plane (translation (plane_frame_ (self s'))) = 8 ∧
     ¬ orthogonal_projection reversed_plane (compute3DCentroid (cloud faceless_input))
         (translation (plane_frame_ (self s')))) ∧
  (∃ s',
     calculateBoundaryData false reversed_fit one_triangle_loops one_triangle_origin
       triangle_input state0 = (Returned true, s') ∧
     translation (plane_frame_ (self s')) = V3 2 0 (-4) ∧
     signedDistance reversed_plane (translation (plane_frame_ (self s'))) = 8 ∧
     ¬ orthogonal_projection reversed_plane (compute3DCentroid (cloud triangle_input))
         (translation (plane_frame_ (self s')))).
Proof.
  assert (Hsd : signedDistance reversed_plane (V3 2 0 (-4)) = 8)
    by (unfold reversed_plane; vunfold; lra).
  assert (Hnot : ∀ c, ¬ orthogonal_projection reversed_plane c (V3 2 0 (-4))).
  { intros c [H0 _]. rewrite Hsd in H0. lra. }
  split.
  { repeat constructor; unfold reversed_plane, flat_point; vunfold; lra. }
  split; [exact centroid_triangle_cloud |].
  split.
  { rewrite centroid_triangle_cloud. split.
    - unfold reversed_plane, centroid_z4. vunfold. lra.
    - exists 0. unfold reversed_plane, centroid_z4. vcalc. }
  split; [apply reversed_fit_run |].
  split.
  - eexists. split; [exact flipped_faceless_run |].
    cbn [framed self plane_frame_]. rewrite flipped_origin.
    split; [reflexivity |]. split; [exact Hsd | apply Hnot].
  - destruct flipped_triangle_run as (bs & Hrun).
    eexists. split; [exact Hrun |].
    cbn [push_boundaries framed self plane_frame_]. rewrite flipped_origin.
    split; [reflexivity |]. split; [exact Hsd | apply Hnot].
Qed.

(** ** A call that throws after a loop *)

Lemma apart_run (b : bool) :
  calculateBoundaryData b ground_fit apart_loops apart_origin apart_input state0 =
  (Thrown_out_of_range,
   mkState (mkImporter ground_frame [[(-2, -3); (4, 0); (-2, 3)]] false) []).
Proof.
  rewrite (calculateBoundaryData_built b ground_fit apart_loops apart_origin
             apart_input state0 plane_z0 apart_mesh apart_map
             (ground_fit_fit b) eq_refl).
  cbv zeta.
  change (cloud apart_input) with ground_cloud. rewrite ground_fit_framed.
  cbn [self plane_frame_].
  change (apart_loops apart_mesh) with [[0; 1; 2]; [3; 4; 5]]%nat.
  cbn [boundaries_loop].
  rewrite (bind_run _ _ _ _ [(-2, -3); (4, 0); (-2, 3)]
             (edges_loop_pass b apart_origin ground_cloud plane_z0 (inverse ground_frame)
                apart_mesh apart_map [0; 1; 2]%nat
                [V3 (-2) (-3) 0; V3 4 0 0; V3 (-2) 3 0] [] _
                ltac:(rewrite inverse_ground_frame;
                      repeat constructor; apply plane_point_vertex;
                      eexists; (split; [reflexivity |]);
                      unfold ground_point, plane_z0, ground_inverse; vcalc)
                ltac:(intros _; repeat constructor; cbn [vz]; rewrite Rabs_R0; lra))).
  unfold bind at 1, modify_self at 1.
  rewrite (bind_thrown _ _ _ _
             (edge_step_none b apart_origin ground_cloud plane_z0 (inverse ground_frame)
                apart_mesh apart_map 3%nat [4; 5]%nat [] _ eq_refl)).
  reflexivity.
Qed.

(** C10, refuted as stated: the call on two triangles apart, the second
    with indices beyond the cloud, fails by an exception after the loop of
    the first triangle was added, and the boundary list is not empty. *)
Lemma throwing_call_keeps_loops :
  fst (calculateBoundaryData true ground_fit apart_loops apart_origin apart_input state0)
    = Thrown_out_of_range ∧
  boundaries_ (self (snd (calculateBoundaryData true ground_fit apart_loops apart_origin
                            apart_input state0)))
    = [[(-2, -3); (4, 0); (-2, 3)]].
Proof. by rewrite apart_run. Qed.
